(** * GPX File Merger: a shallow embedding of [merge_gpx.py]

    The development follows the layout of the program:

    - [Datetime]: the part of Python's [datetime] the merger relies on
      (field checks, ordinals, comparison of naive and aware values);
    - [ET]: the part of [xml.etree.ElementTree] the merger relies on
      (elements with object identity, [find], [findall], serialisation of
      start tags and namespace declarations, parsing of markup);
    - [GPXMerger]: the class of [merge_gpx.py], method by method, in a small
      state-and-exception monad, and [main];
    - the properties of the merger. *)

From Stdlib Require Import ZArith Lia Bool Ascii String List DecimalString.
From stdpp Require Import base option list strings gmap sorting.

Local Open Scope Z_scope.

(** ** Python's [datetime], as far as the merger uses it *)

Module Datetime.

(** [_DAYS_IN_MONTH] and [_DAYS_BEFORE_MONTH]; index 0 is a placeholder. *)
Definition _DAYS_IN_MONTH : list Z :=
  [-1; 31; 28; 31; 30; 31; 30; 31; 31; 30; 31; 30; 31].

Definition _DAYS_BEFORE_MONTH : list Z :=
  [-1; 0; 31; 59; 90; 120; 151; 181; 212; 243; 273; 304; 334].

Definition _is_leap (year : Z) : bool :=
  (year mod 4 =? 0) && (negb (year mod 100 =? 0) || (year mod 400 =? 0)).

Definition _days_before_year (year : Z) : Z :=
  let y := year - 1 in y * 365 + y / 4 - y / 100 + y / 400.

Definition _days_in_month (year month : Z) : Z :=
  if (month =? 2) && _is_leap year then 29
  else nth (Z.to_nat month) _DAYS_IN_MONTH (-1).

Definition _days_before_month (year month : Z) : Z :=
  nth (Z.to_nat month) _DAYS_BEFORE_MONTH (-1)
  + (if (2 <? month) && _is_leap year then 1 else 0).

Definition _ymd2ord (year month day : Z) : Z :=
  _days_before_year year + _days_before_month year month + day.

Definition MINYEAR : Z := 1.
Definition MAXYEAR : Z := 9999.

(** The range checks of the constructor; [false] stands for [ValueError]. *)
Definition _check_date_fields (year month day : Z) : bool :=
  (MINYEAR <=? year) && (year <=? MAXYEAR)
  && (1 <=? month) && (month <=? 12)
  && (1 <=? day) && (day <=? _days_in_month year month).

Definition _check_time_fields (hour minute second microsecond : Z) : bool :=
  (0 <=? hour) && (hour <=? 23)
  && (0 <=? minute) && (minute <=? 59)
  && (0 <=? second) && (second <=? 59)
  && (0 <=? microsecond) && (microsecond <=? 999999).

(** A [timezone] is given by its offset from UTC, here in microseconds; the
    constructor accepts offsets strictly between minus and plus 24 hours. *)
Definition _check_utc_offset (tz : option Z) : bool :=
  match tz with
  | None => true
  | Some off => (-86400000000 <? off) && (off <? 86400000000)
  end.

(** A [datetime] object.  [tzinfo = None] is a naive value, [Some off] an
    aware one.  Every object went through the constructor's checks. *)
Record datetime : Type := mk_datetime {
  year : Z; month : Z; day : Z;
  hour : Z; minute : Z; second : Z; microsecond : Z;
  tzinfo : option Z;
  datetime_checked :
    _check_date_fields year month day
    && _check_time_fields hour minute second microsecond
    && _check_utc_offset tzinfo = true
}.

(** The constructor: [None] stands for [ValueError]. *)
Definition new (y mo d h mi s us : Z) (tz : option Z) : option datetime :=
  match bool_dec (_check_date_fields y mo d
                  && _check_time_fields h mi s us
                  && _check_utc_offset tz) true with
  | left ok => Some (mk_datetime y mo d h mi s us tz ok)
  | right _ => None
  end.

Definition toordinal (d : datetime) : Z := _ymd2ord (year d) (month d) (day d).

(** Python's module-level [_cmp(x, y)] on tuples of integers. *)
Fixpoint _cmp_tuple (x y : list Z) : comparison :=
  match x, y with
  | [], [] => Eq
  | [], _ :: _ => Lt
  | _ :: _, [] => Gt
  | a :: x', b :: y' =>
      match a ?= b with
      | Eq => _cmp_tuple x' y'
      | c => c
      end
  end.

Definition fields (d : datetime) : list Z :=
  [year d; month d; day d; hour d; minute d; second d; microsecond d].

(** The microseconds between 0001-01-01T00:00 and the wall-clock reading. *)
Definition local_micros (d : datetime) : Z :=
  ((toordinal d - 1) * 86400
   + hour d * 3600 + minute d * 60 + second d) * 1000000 + microsecond d.

(** [self - other] for two aware values with different [tzinfo], as a number
    of microseconds: the wall-clock difference, [+ otoff - myoff]. *)
Definition __sub__ (self other : datetime) (myoff otoff : Z) : Z :=
  (local_micros self - local_micros other) + otoff - myoff.

Inductive cmp_outcome : Type :=
  | Cmp (c : comparison)
  | TypeError_naive_aware.

(** [datetime._cmp(self, other)] with [allow_mixed=False].  Two values
    produced by [fromisoformat] have the same [tzinfo] object only when both
    are naive or both are [timezone.utc], and then the offsets are equal. *)
Definition _cmp (self other : datetime) : cmp_outcome :=
  match tzinfo self, tzinfo other with
  | None, None => Cmp (_cmp_tuple (fields self) (fields other))
  | Some myoff, Some otoff =>
      if myoff =? otoff then Cmp (_cmp_tuple (fields self) (fields other))
      else
        let diff := __sub__ self other myoff otoff in
        if diff <? 0 then Cmp Lt
        else if diff =? 0 then Cmp Eq else Cmp Gt
  | _, _ => TypeError_naive_aware
  end.

(** [self < other]; [None] stands for [TypeError]. *)
Definition __lt__ (self other : datetime) : option bool :=
  match _cmp self other with
  | Cmp Lt => Some true
  | Cmp _ => Some false
  | TypeError_naive_aware => None
  end.

(** [self == other] calls [_cmp] with [allow_mixed=True]: a naive and an
    aware value are unequal, without an exception. *)
Definition __eq__ (self other : datetime) : bool :=
  match _cmp self other with
  | Cmp Eq => true
  | _ => false
  end.

(** The physical moment an aware value denotes (microseconds of UTC); for a
    naive value, its wall-clock reading. *)
Definition instant (d : datetime) : Z :=
  local_micros d - default 0 (tzinfo d).

Definition aware (d : datetime) : bool :=
  match tzinfo d with Some _ => true | None => false end.

End Datetime.

Local Close Scope Z_scope.
Local Open Scope string_scope.
Local Open Scope list_scope.

(** ** Python strings, as far as the merger uses them *)

Module Str.

(** [s.replace(old, new)] for a one-character [old]: every occurrence is
    replaced, not only a trailing one. *)
Fixpoint replace (old : ascii) (new : string) (s : string) : string :=
  match s with
  | EmptyString => EmptyString
  | String c s' =>
      if Ascii.eqb c old then new +:+ replace old new s'
      else String c (replace old new s')
  end.

(** Truth value of an optional string: [None] and the empty string are
    false. *)
Definition truthy (s : option string) : bool :=
  match s with
  | None | Some EmptyString => false
  | Some _ => true
  end.

(** ["%d" % n] *)
Definition of_nat (n : nat) : string :=
  DecimalString.NilZero.string_of_uint (Nat.to_uint n).

(** [s.split(sep, 1)]: around the first [sep], if there is one. *)
Fixpoint split1 (sep : ascii) (s : string) : option (string * string) :=
  match s with
  | EmptyString => None
  | String c s' =>
      if Ascii.eqb c sep then Some (EmptyString, s')
      else match split1 sep s' with
           | Some (a, b) => Some (String c a, b)
           | None => None
           end
  end.

(** [s.rsplit(sep, 1)]: around the last [sep], if there is one. *)
Fixpoint rsplit1 (sep : ascii) (s : string) : option (string * string) :=
  match s with
  | EmptyString => None
  | String c s' =>
      match rsplit1 sep s' with
      | Some (a, b) => Some (String c a, b)
      | None => if Ascii.eqb c sep then Some (EmptyString, s') else None
      end
  end.

(** [s[1:]] when [s[:1] == "{"]. *)
Definition after_brace (s : string) : option string :=
  match s with
  | String c rest => if Ascii.eqb c "{" then Some rest else None
  | EmptyString => None
  end.

(** [sub in s] *)
Fixpoint contains (sub s : string) : bool :=
  String.prefix sub s
  || match s with
     | EmptyString => false
     | String _ s' => contains sub s'
     end.

End Str.

(** ** Documents

    A file holds either bytes the XML tokenizer rejects, or markup: a tree of
    start tags as they are written (the name with its prefix, the attributes
    with the namespace declarations among them, in order), character data
    and end tags.  The names are names of the grammar of XML, which allows
    colons anywhere in them.  The empty string stands for no character
    data. *)

#[local] Unset Elimination Schemes.

Inductive markup : Type :=
  | MTag (name : string) (attrs : list (string * string))
         (text : string) (children : list markup) (tail : string).

Inductive file_content : Type :=
  | Unparsable (expat_error : string)
  | Markup (root : markup).

(** An [xml.etree.ElementTree.Element].  An element is a mutable object: [eid]
    is its identity and [attrib_id] the identity of its attribute dictionary.
    A value of this type stands for the object graph below the element; two
    references to one object are two values with one [eid].  [attrib] keeps
    the insertion order of the dictionary. *)
Inductive Element : Type :=
  | mkElement (eid : nat) (tag : string)
              (attrib_id : nat) (attrib : list (string * string))
              (text : option string) (tail : option string)
              (children : list Element).

Definition eid (e : Element) : nat :=
  match e with mkElement i _ _ _ _ _ _ => i end.
Definition tag (e : Element) : string :=
  match e with mkElement _ t _ _ _ _ _ => t end.
Definition attrib_id (e : Element) : nat :=
  match e with mkElement _ _ i _ _ _ _ => i end.
Definition attrib (e : Element) : list (string * string) :=
  match e with mkElement _ _ _ a _ _ _ => a end.
Definition text (e : Element) : option string :=
  match e with mkElement _ _ _ _ t _ _ => t end.
Definition tail (e : Element) : option string :=
  match e with mkElement _ _ _ _ _ t _ => t end.
Definition children (e : Element) : list Element :=
  match e with mkElement _ _ _ _ _ _ c => c end.

(** Induction on elements, with the hypothesis on every child. *)
Fixpoint Element_ind' (P : Element -> Prop)
    (step : forall i t d a tx tl ch,
        Forall P ch -> P (mkElement i t d a tx tl ch))
    (e : Element) : P e :=
  match e with
  | mkElement i t d a tx tl ch =>
      step i t d a tx tl ch
           ((fix all (l : list Element) : Forall P l :=
               match l with
               | [] => List.Forall_nil P
               | c :: l' => List.Forall_cons P c l' (Element_ind' P step c) (all l')
               end) ch)
  end.

Fixpoint markup_ind' (P : markup -> Prop)
    (step : forall name attrs tx kids tl,
        Forall P kids -> P (MTag name attrs tx kids tl))
    (m : markup) : P m :=
  match m with
  | MTag name attrs tx kids tl =>
      step name attrs tx kids tl
           ((fix all (l : list markup) : Forall P l :=
               match l with
               | [] => List.Forall_nil P
               | k :: l' => List.Forall_cons P k l' (markup_ind' P step k) (all l')
               end) kids)
  end.

(** What an element holds, whatever the objects that hold it: tag,
    attributes, text, tail and the contents of the children, in order. *)
Inductive content : Type :=
  | Content (tag : string) (attrib : list (string * string))
            (text : option string) (tail : option string)
            (children : list content).

Fixpoint content_of (e : Element) : content :=
  match e with
  | mkElement _ t _ a tx tl ch => Content t a tx tl (map content_of ch)
  end.

(** The objects an element is made of: itself, its dictionary, and the
    objects of its children. *)
Fixpoint objects (e : Element) : list nat :=
  match e with
  | mkElement i _ d _ _ _ ch => i :: d :: concat (map objects ch)
  end.

#[local] Set Elimination Schemes.

(** ** The interpreter state and the monad of statements *)

Inductive exn : Type :=
  | FileNotFoundError (msg : string)
  | ParseError (msg : string)
  | TypeError (msg : string)
  | ValueError (msg : string)
  | KeyError (msg : string)
  | OSError (msg : string)
  | SystemExit (code : Z).

(** [str(e)] for the exceptions that carry a message. *)
Definition str_exn (e : exn) : string :=
  match e with
  | FileNotFoundError m | ParseError m | TypeError m | ValueError m
  | KeyError m | OSError m => m
  | SystemExit _ => ""
  end.

Record world : Type := mk_world {
  next_id : nat;                      (* the next fresh object identity *)
  fs : gmap string file_content;      (* the regular files, by path *)
  stdout : list string;               (* lines printed so far *)
  stderr : list string;
  utcnow : string;                    (* datetime.utcnow().isoformat() *)
  openable : string -> bool;          (* the paths [open(path, "wb")] can open *)
  stdout_unicode : bool               (* [sys.stdout] can encode U+2713 *)
}.

Inductive result (A : Type) : Type :=
  | Ok (a : A)
  | Raise (e : exn).
Arguments Ok {A} a.
Arguments Raise {A} e.

Definition M (A : Type) : Type := world -> result A * world.

Definition ret {A} (a : A) : M A := fun w => (Ok a, w).

Definition bind {A B} (m : M A) (k : A -> M B) : M B :=
  fun w => match m w with
           | (Ok a, w') => k a w'
           | (Raise e, w') => (Raise e, w')
           end.

Definition raise {A} (e : exn) : M A := fun w => (Raise e, w).

(** [try: body  except ...: handler]; the handler declines the exceptions
    its [except] clause does not name. *)
Definition try_except {A} (body : M A) (handler : exn -> option (M A)) : M A :=
  fun w => match body w with
           | (Ok a, w') => (Ok a, w')
           | (Raise e, w') =>
               match handler e with
               | Some h => h w'
               | None => (Raise e, w')
               end
           end.

Declare Scope py_scope.
Delimit Scope py_scope with py.
Notation "x <- m ;; k" := (bind m (fun x => k))
  (at level 100, m at next level, right associativity) : py_scope.
Notation "m ;; k" := (bind m (fun _ => k))
  (at level 100, right associativity) : py_scope.

Definition fresh : M nat :=
  fun w => (Ok (next_id w),
            mk_world (S (next_id w)) (fs w) (stdout w) (stderr w) (utcnow w)
                     (openable w) (stdout_unicode w)).

(** [print(line)] and [print(line, file=sys.stderr)], for the lines that
    are ASCII text and names of files; the names of the files are taken to
    be text the streams can encode. *)
Definition print (line : string) : M unit :=
  fun w => (Ok tt,
            mk_world (next_id w) (fs w) (stdout w ++ [line]) (stderr w) (utcnow w)
                     (openable w) (stdout_unicode w)).

Definition print_stderr (line : string) : M unit :=
  fun w => (Ok tt,
            mk_world (next_id w) (fs w) (stdout w) (stderr w ++ [line]) (utcnow w)
                     (openable w) (stdout_unicode w)).

(** [print(line)] for a line that holds the check mark U+2713: a stream
    whose encoding lacks the character raises [UnicodeEncodeError], which is
    a [ValueError], and prints nothing. *)
Definition print_check_mark (line : string) : M unit :=
  fun w => if stdout_unicode w then print line w
           else (Raise (ValueError "codec can't encode character U+2713"), w).

Definition read_file (path : string) : M (option file_content) :=
  fun w => (Ok (fs w !! path), w).

(** [open(path, "wb")] and the writes that follow.  The empty path opens
    nowhere; the other paths that do not open (no such directory, no
    permission, a directory) are the host's.  A path that does not open
    raises an [OSError] and leaves the files as they are. *)
Definition can_open (w : world) (path : string) : bool :=
  negb (String.eqb path "") && openable w path.

Definition write_file (path : string) (c : file_content) : M unit :=
  fun w => if can_open w path
           then (Ok tt,
                 mk_world (next_id w) (<[path := c]> (fs w)) (stdout w) (stderr w)
                          (utcnow w) (openable w) (stdout_unicode w))
           else (Raise (OSError ("No such file or directory: " +:+ path)), w).

Definition datetime_utcnow_isoformat : M string :=
  fun w => (Ok (utcnow w), w).

(** [for x in l: body], where [s] stands for the variables the body
    assigns. *)
Section ForEach.
Context {A S : Type} (body : S -> A -> M S).

Fixpoint for_each (l : list A) (s : S) : M S :=
  match l with
  | [] => ret s
  | x :: l' => bind (body s x) (for_each l')
  end.
End ForEach.

(** All the results of [f] on [l], unless one is missing. *)
Section AllSome.
Context {A B : Type} (f : A -> option B).

Fixpoint all_some (l : list A) : option (list B) :=
  match l with
  | [] => Some []
  | x :: l' =>
      match f x, all_some l' with
      | Some y, Some r => Some (y :: r)
      | _, _ => None
      end
  end.
End AllSome.

(** ** Python built-ins *)

Module Builtins.

(** [list.sort(key=...)] and [sorted(..., key=...)].  Python documents the
    sort as stable and as using only [<] between keys; a comparison that
    raises ends the sort with that exception ([None] here).  The algorithm
    below is the stable insertion sort: the result of a stable sort is
    determined by the list and the order, whatever the algorithm. *)
Section Sort.
Context {A K : Type} (lt : K -> K -> option bool) (key : A -> K).

Fixpoint insert (x : A) (l : list A) : option (list A) :=
  match l with
  | [] => Some [x]
  | y :: l' =>
      match lt (key y) (key x) with
      | None => None
      | Some true => option_map (cons y) (insert x l')
      | Some false => Some (x :: l)
      end
  end.

Fixpoint sort (l : list A) : option (list A) :=
  match l with
  | [] => Some []
  | x :: l' =>
      match sort l' with
      | None => None
      | Some s => insert x s
      end
  end.
End Sort.

(** [d.get(k)] on a dictionary kept as an association list in insertion
    order. *)
Fixpoint dict_get {V} (k : string) (d : list (string * V)) : option V :=
  match d with
  | [] => None
  | (k', v) :: d' => if String.eqb k k' then Some v else dict_get k d'
  end.

(** [d[k] = v]: an existing key keeps its position. *)
Fixpoint dict_set {V} (k : string) (v : V) (d : list (string * V))
  : list (string * V) :=
  match d with
  | [] => [(k, v)]
  | (k', v') :: d' =>
      if String.eqb k k' then (k, v) :: d' else (k', v') :: dict_set k v d'
  end.

End Builtins.

(** ** [xml.etree.ElementTree], as far as the merger uses it *)

Module ET.
Import Builtins.

Definition qname (uri local : string) : string := "{" +:+ uri +:+ "}" +:+ local.

(** [Element(tag, attrib)]: a new object, with a new dictionary holding a
    copy of [attrib] ([self.attrib = {**attrib, **extra}]), no text, no tail
    and no children. *)
Definition new_Element (tag : string) (attrib : list (string * string))
  : M Element :=
  (i <- fresh ;;
   d <- fresh ;;
   ret (mkElement i tag d attrib None None []))%py.

(** [SubElement(parent, tag)] creates the element; in this value model the
    caller attaches it to [parent] with [append] once it is complete. *)
Definition SubElement (tag : string) : M Element := new_Element tag [].

Definition set (e : Element) (k v : string) : Element :=
  match e with
  | mkElement i t d a tx tl ch => mkElement i t d (dict_set k v a) tx tl ch
  end.

Definition set_text (e : Element) (tx : option string) : Element :=
  match e with
  | mkElement i t d a _ tl ch => mkElement i t d a tx tl ch
  end.

Definition set_tail (e : Element) (tl : option string) : Element :=
  match e with
  | mkElement i t d a tx _ ch => mkElement i t d a tx tl ch
  end.

Definition append (e child : Element) : Element :=
  match e with
  | mkElement i t d a tx tl ch => mkElement i t d a tx tl (ch ++ [child])
  end.

(** [elem.iter()]: the element and its descendants, in document order. *)
Fixpoint iter (e : Element) : list Element :=
  match e with
  | mkElement _ _ _ _ _ _ ch => e :: concat (map iter ch)
  end.

Definition descendants (e : Element) : list Element :=
  concat (map iter (children e)).

(** [elem.findall(".//p:local", {p: uri})] with [t = qname uri local]: the
    descendants of [elem], not [elem] itself, that carry the tag, in
    document order. *)
Definition findall_descendants (elem : Element) (t : string) : list Element :=
  filter (fun e => tag e = t) (descendants elem).

(** [elem.find("p:local", {p: uri})]: the first child that carries the tag. *)
Definition find (elem : Element) (t : string) : option Element :=
  List.find (fun e => String.eqb (tag e) t) (children elem).

(** *** Serialisation *)

(** The registry of well-known prefixes, by namespace. *)
Definition _namespace_map : list (string * string) :=
  [ ("http://www.w3.org/XML/1998/namespace", "xml");
    ("http://www.w3.org/1999/xhtml", "html");
    ("http://www.w3.org/1999/02/22-rdf-syntax-ns#", "rdf");
    ("http://schemas.xmlsoap.org/wsdl/", "wsdl");
    ("http://www.w3.org/2001/XMLSchema", "xs");
    ("http://www.w3.org/2001/XMLSchema-instance", "xsi");
    ("http://purl.org/dc/elements/1.1/", "dc") ].

(** [register_namespace(prefix, uri)]: existing entries for the prefix or
    the namespace are removed.  (Prefixes of the form [ns<digits>] are
    refused; the merger registers the empty prefix.) *)
Definition register_namespace (prefix uri : string)
    (registry : list (string * string)) : list (string * string) :=
  List.filter (fun kv => negb (String.eqb (fst kv) uri || String.eqb (snd kv) prefix))
              registry
  ++ [(uri, prefix)].

(** The two tables of [_namespaces]: the written form of each qualified
    name, and the prefix of each namespace in use, in order of first use. *)
Definition tables : Type := gmap string string * list (string * string).

(** [add_qname]; [None] stands for the [ValueError] on a name that opens a
    brace and does not close it. *)
Definition add_qname (registry : list (string * string)) (qn : string)
    (st : tables) : option tables :=
  let '(qnames, namespaces) := st in
  match Str.after_brace qn with
  | Some rest =>
      match Str.rsplit1 "}"%char rest with
      | Some (uri, local) =>
          let '(prefix, namespaces') :=
            match dict_get uri namespaces with
            | Some p => (p, namespaces)
            | None =>
                let p := match dict_get uri registry with
                         | Some p => p
                         | None => "ns" +:+ Str.of_nat (length namespaces)
                         end in
                (p, if String.eqb p "xml" then namespaces
                    else namespaces ++ [(uri, p)])
            end in
          Some (<[qn := if String.eqb prefix "" then local
                        else prefix +:+ ":" +:+ local]> qnames,
                namespaces')
      | None => None
      end
  | None => Some (<[qn := qn]> qnames, namespaces)
  end.

Definition add_if_new (registry : list (string * string)) (qn : string)
    (st : tables) : option tables :=
  match fst st !! qn with
  | Some _ => Some st
  | None => add_qname registry qn st
  end.

Fixpoint add_all (registry : list (string * string)) (qns : list string)
    (st : tables) : option tables :=
  match qns with
  | [] => Some st
  | qn :: qns' =>
      match add_if_new registry qn st with
      | Some st' => add_all registry qns' st'
      | None => None
      end
  end.

(** The names [_namespaces] looks at, in its order: for each element of
    [elem.iter()], the tag and then the attribute keys. *)
Definition names_of (e : Element) : list string := tag e :: map fst (attrib e).

Definition _namespaces (registry : list (string * string)) (elem : Element)
  : option tables :=
  add_all registry (concat (map names_of (iter elem))) (∅, []).

(** The namespace declarations of the root start tag:
    [sorted(namespaces.items(), key=lambda x: x[1])]. *)
Definition str_lt (a b : string) : option bool := Some (String.ltb a b).

Definition declarations (namespaces : list (string * string))
  : list (string * string) :=
  map (fun up => ("xmlns" +:+ (if String.eqb (snd up) "" then ""
                               else ":" +:+ snd up), fst up))
      (default [] (sort str_lt snd namespaces)).

Definition written_items (qnames : gmap string string)
    (items : list (string * string)) : option (list (string * string)) :=
  all_some (fun kv => match qnames !! fst kv with
                      | Some k' => Some (k', snd kv)
                      | None => None
                      end) items.

(** [_serialize_xml]: the start tag carries the namespace declarations (on
    the root only, [namespaces] is [None] below it) and then the items of
    the element; text and tail are written when they are not empty.
    [None] stands for a [KeyError] on [qnames]. *)
Fixpoint _serialize_xml (qnames : gmap string string)
    (namespaces : option (list (string * string))) (elem : Element)
  : option markup :=
  match elem with
  | mkElement _ t _ a tx tl ch =>
      match qnames !! t, written_items qnames a,
            all_some (_serialize_xml qnames None) ch with
      | Some t', Some items, Some kids =>
          Some (MTag t'
                     (match namespaces with
                      | Some ns => declarations ns
                      | None => []
                      end ++ items)
                     (default "" tx) kids (default "" tl))
      | _, _, _ => None
      end
  end.

(** [ElementTree(root).write(path, encoding="utf-8", xml_declaration=True)].
    The file is opened, and so created or emptied, before the tree is
    serialised. *)
Definition write (registry : list (string * string)) (root : Element)
    (path : string) : M unit :=
  match _namespaces registry root with
  | None =>
      (write_file path (Unparsable "no element found") ;;
       raise (ValueError "not enough values to unpack"))%py
  | Some (qnames, namespaces) =>
      match _serialize_xml qnames (Some namespaces) root with
      | None =>
          (write_file path (Unparsable "no element found") ;;
           raise (KeyError "qnames"))%py
      | Some m => write_file path (Markup m)
      end
  end.

(** *** Parsing

    The XML parser works with namespace processing.  Of the grammar of
    names the tree depends on this much: a name has at most one colon, with
    a name on each side, and no brace.  A start tag is then worked through
    as expat does: the attributes in order, each refused when its name came
    before in the tag, each namespace declaration ([xmlns], [xmlns:p])
    bound or refused; then the other attributes in order, a prefixed name
    resolved or refused, and refused when its resolved name came before;
    then the name of the element.  Element names take the default
    namespace, attribute names do not; a qualified name arrives as
    [{uri}local].  The messages are those of expat, without the position
    ([: line L, column C]) that follows them. *)

Record ns_env : Type := mk_ns_env {
  default_ns : option string;
  prefixes : list (string * string)
}.

Definition XML_NAMESPACE : string := "http://www.w3.org/XML/1998/namespace".
Definition XMLNS_NAMESPACE : string := "http://www.w3.org/2000/xmlns/".

Definition initial_env : ns_env := mk_ns_env None [("xml", XML_NAMESPACE)].

Definition ncname_ok (s : string) : bool :=
  negb (String.eqb s "") && negb (Str.contains ":" s)
  && negb (Str.contains "{" s) && negb (Str.contains "}" s).

Definition name_ok (n : string) : bool :=
  match Str.split1 ":"%char n with
  | Some (p, local) => ncname_ok p && ncname_ok local
  | None => ncname_ok n
  end.

Definition is_declaration (k : string) : bool :=
  String.eqb k "xmlns" || String.prefix "xmlns:" k.

(** The error of expat ([addBinding]) on the declaration of [prefix]
    ([None] for the default namespace) as [uri], if it refuses it. *)
Definition binding_error (prefix : option string) (uri : string) : option string :=
  let reserved := String.eqb uri XML_NAMESPACE || String.eqb uri XMLNS_NAMESPACE in
  match prefix with
  | Some p =>
      if String.eqb uri "" then Some "must not undeclare prefix"
      else if String.eqb p "xmlns"
      then Some "reserved prefix (xmlns) must not be declared or undeclared"
      else if Str.contains "}" uri then Some "syntax error"
      else if String.eqb p "xml"
      then if String.eqb uri XML_NAMESPACE then None
           else Some "reserved prefix (xml) must not be undeclared or bound to another namespace name"
      else if reserved
      then Some "prefix must not be bound to one of the reserved namespace names"
      else None
  | None =>
      if Str.contains "}" uri then Some "syntax error"
      else if reserved
      then Some "prefix must not be bound to one of the reserved namespace names"
      else None
  end.

(** One attribute as a namespace declaration: the environment with the
    binding, or the error; an attribute that declares nothing leaves the
    environment as it is. *)
Definition declare (env : ns_env) (kv : string * string) : string + ns_env :=
  let '(k, v) := kv in
  if String.eqb k "xmlns"
  then match binding_error None v with
       | Some e => inl e
       | None => inr (mk_ns_env (if String.eqb v "" then None else Some v)
                                (prefixes env))
       end
  else match Str.split1 ":"%char k with
       | Some (p, local) =>
           if String.eqb p "xmlns"
           then match binding_error (Some local) v with
                | Some e => inl e
                | None => inr (mk_ns_env (default_ns env)
                                         ((local, v) :: prefixes env))
                end
           else inr env
       | None => inr env
       end.

(** The attributes of a start tag in order, [seen] being the names met so
    far in the tag. *)
Fixpoint declare_all (seen : list string) (attrs : list (string * string))
    (env : ns_env) : string + ns_env :=
  match attrs with
  | [] => inr env
  | kv :: rest =>
      if bool_decide (fst kv ∈ seen) then inl "duplicate attribute"
      else match declare env kv with
           | inl e => inl e
           | inr env' => declare_all (fst kv :: seen) rest env'
           end
  end.

Definition resolve_element (env : ns_env) (name : string) : option string :=
  match Str.split1 ":"%char name with
  | Some (p, local) =>
      match dict_get p (prefixes env) with
      | Some uri => Some (qname uri local)
      | None => None
      end
  | None =>
      Some (match default_ns env with
            | Some uri => qname uri name
            | None => name
            end)
  end.

Definition resolve_attribute (env : ns_env) (name : string) : option string :=
  match Str.split1 ":"%char name with
  | Some (p, local) =>
      match dict_get p (prefixes env) with
      | Some uri => Some (qname uri local)
      | None => None
      end
  | None => Some name
  end.

(** The attributes that are not declarations, in order, under their
    resolved names, [seen] being the resolved names met so far. *)
Fixpoint resolve_attributes (env : ns_env) (seen : list string)
    (attrs : list (string * string)) : string + list (string * string) :=
  match attrs with
  | [] => inr []
  | kv :: rest =>
      if is_declaration (fst kv) then resolve_attributes env seen rest
      else match resolve_attribute env (fst kv) with
           | None => inl "unbound prefix"
           | Some k' =>
               if bool_decide (k' ∈ seen) then inl "duplicate attribute"
               else match resolve_attributes env (k' :: seen) rest with
                    | inl e => inl e
                    | inr a => inr ((k', snd kv) :: a)
                    end
           end
  end.

(** A start tag: the error of the parser, or the environment for the
    content of the element, its tag and its attributes. *)
Definition start_tag (env : ns_env) (name : string)
    (attrs : list (string * string))
  : string + (ns_env * string * list (string * string)) :=
  if negb (name_ok name && forallb (fun kv => name_ok (fst kv)) attrs)
  then inl "not well-formed (invalid token)"
  else match declare_all [] attrs env with
       | inl e => inl e
       | inr env' =>
           match resolve_attributes env' [] attrs with
           | inl e => inl e
           | inr a =>
               match resolve_element env' name with
               | None => inl "unbound prefix"
               | Some t => inr (env', t, a)
               end
           end
       end.

Definition character_data (s : string) : option string :=
  if String.eqb s "" then None else Some s.

(** The tree builder: one new element per start tag, in document order. *)
Fixpoint build (env : ns_env) (m : markup) : M Element :=
  match m with
  | MTag name attrs tx kids tl =>
      match start_tag env name attrs with
      | inl msg => raise (ParseError msg)
      | inr (env', t, a) =>
          (elem <- new_Element t a ;;
           let elem := set_text elem (character_data tx) in
           let elem := set_tail elem (character_data tl) in
           for_each (fun elem k => c <- build env' k ;; ret (append elem c))
                    kids elem)%py
      end
  end.

(** [ET.parse(path).getroot()] *)
Definition parse (path : string) : M Element :=
  (c <- read_file path ;;
   match c with
   | None => raise (FileNotFoundError ("No such file or directory: " +:+ path))
   | Some (Unparsable e) => raise (ParseError e)
   | Some (Markup m) => build initial_env m
   end)%py.

End ET.

(** ** [merge_gpx.py] *)

Module GPXMerger.
Import Builtins.

Definition GPX_NAMESPACE : string := "http://www.topografix.com/GPX/1/1".

(** The prefix registry once the class body has run
    [ET.register_namespace("", GPX_NAMESPACE)]. *)
Definition registry : list (string * string) :=
  ET.register_namespace "" GPX_NAMESPACE ET._namespace_map.

(** The path [gpx:local] under [ns = {"gpx": GPX_NAMESPACE}]. *)
Definition gpx (local : string) : string := ET.qname GPX_NAMESPACE local.

(** One entry of [self.track_points]: [(timestamp, element, file_path)]. *)
Definition point : Type := Datetime.datetime * Element * string.

Definition timestamp (p : point) : Datetime.datetime := p.1.1.
Definition point_elem (p : point) : Element := p.1.2.
Definition source_file (p : point) : string := p.2.

(** The attributes of a [GPXMerger] object.  The values of [metadata] are
    the [text] of the elements found, which may be [None]. *)
Record merger : Type := mk_merger {
  track_points : list point;
  metadata : gmap string (option string)
}.

Definition __init__ : merger := mk_merger [] ∅.

Definition _extract_metadata (self : merger) (root : Element) : merger :=
  match ET.find root (gpx "metadata") with
  | Some md_elem =>
      let md := metadata self in
      let md := match ET.find md_elem (gpx "name") with
                | Some name => <["name" := text name]> md
                | None => md
                end in
      let md := match ET.find md_elem (gpx "desc") with
                | Some desc => <["desc" := text desc]> md
                | None => md
                end in
      mk_merger (track_points self) md
  | None => self
  end.

Section WithParser.

(** [datetime.fromisoformat]; [None] stands for [ValueError].  The accepted
    texts differ between Python versions; the merger is modelled for any. *)
Variable fromisoformat : string -> option Datetime.datetime.

Definition warning (time_text file_path : string) : string :=
  "Warning: Could not parse timestamp '" +:+ time_text +:+ "' from "
  +:+ file_path.

(** The body of both loops of [_extract_track_points] (the second differs
    from the first in the name of the loop variable only). *)
Definition extract_point (file_path : string) (self : merger) (pt : Element)
  : M merger :=
  match ET.find pt (gpx "time") with
  | Some time_elem =>
      if Str.truthy (text time_elem) then
        let time_text := default "" (text time_elem) in
        match fromisoformat (Str.replace "Z" "+00:00" time_text) with
        | Some ts =>
            ret (mk_merger (track_points self ++ [(ts, pt, file_path)])
                           (metadata self))
        | None =>
            (print_stderr (warning time_text file_path) ;; ret self)%py
        end
      else ret self
  | None => ret self
  end.

Definition _extract_track_points (self : merger) (root : Element)
    (file_path : string) : M merger :=
  (self <- for_each (extract_point file_path)
                    (ET.findall_descendants root (gpx "trkpt")) self ;;
   for_each (extract_point file_path)
            (ET.findall_descendants root (gpx "wpt")) self)%py.

(** On an exception [self] is as before the call: only [ET.parse] raises,
    and it comes before the first assignment. *)
Definition parse_gpx_file (self : merger) (file_path : string) : M merger :=
  (c <- read_file file_path ;;
   match c with
   | None => raise (FileNotFoundError ("GPX file not found: " +:+ file_path))
   | Some _ =>
       try_except
         (root <- ET.parse file_path ;;
          let self := if bool_decide (metadata self = ∅)
                      then _extract_metadata self root else self in
          _extract_track_points self root file_path)
         (fun e => match e with
                   | ParseError m =>
                       Some (raise (ParseError ("Invalid GPX file '" +:+ file_path
                                                +:+ "': " +:+ m)))
                   | _ => None
                   end)
   end)%py.

Definition sort_by_timestamp (self : merger) : M merger :=
  match sort Datetime.__lt__ timestamp (track_points self) with
  | Some l => ret (mk_merger l (metadata self))
  | None =>
      raise (TypeError "can't compare offset-naive and offset-aware datetimes")
  end.

Fixpoint _clone_element (elem : Element) : M Element :=
  match elem with
  | mkElement _ t _ a tx tl ch =>
      (clone <- ET.new_Element t a ;;
       let clone := ET.set_text clone tx in
       let clone := ET.set_tail clone tl in
       for_each (fun clone child =>
                   c <- _clone_element child ;; ret (ET.append clone c))
                ch clone)%py
  end.

(** Lines 122 to 148 of [merge_to_file]: the tree that is then written.
    The elements are created in the order of the source and attached to
    their parents once complete. *)
Definition build_document (self : merger) : M Element :=
  (gpx <- ET.new_Element "gpx" [] ;;
   let gpx := ET.set gpx "version" "1.1" in
   let gpx := ET.set gpx "creator" "GPX Merger Script" in
   let gpx := ET.set gpx "xmlns" GPX_NAMESPACE in
   md <- ET.SubElement "metadata" ;;
   name <- ET.SubElement "name" ;;
   let name := ET.set_text name
                 (default (Some "Merged GPX Track") (metadata self !! "name")) in
   desc <- ET.SubElement "desc" ;;
   let desc := ET.set_text desc
                 (default (Some "Merged from multiple GPX files")
                          (metadata self !! "desc")) in
   time <- ET.SubElement "time" ;;
   now <- datetime_utcnow_isoformat ;;
   let time := ET.set_text time (Some (now +:+ "Z")) in
   trk <- ET.SubElement "trk" ;;
   trk_name <- ET.SubElement "name" ;;
   let trk_name := ET.set_text trk_name (Some "Merged Track") in
   trk_seg <- ET.SubElement "trkseg" ;;
   trk_seg <- for_each (fun trk_seg p =>
                          new_point <- _clone_element (point_elem p) ;;
                          ret (ET.append trk_seg new_point))
                       (track_points self) trk_seg ;;
   let md := ET.append (ET.append (ET.append md name) desc) time in
   let trk := ET.append (ET.append trk trk_name) trk_seg in
   ret (ET.append (ET.append gpx md) trk))%py.

Definition merge_to_file (self : merger) (output_path : string) : M unit :=
  match track_points self with
  | [] => print_stderr "Error: No track points found to merge."
  | _ :: _ =>
      (gpx <- build_document self ;;
       ET.write registry gpx output_path ;;
       print_check_mark ("✓ Merged GPX file created: " +:+ output_path) ;;
       print ("  Total track points merged: "
              +:+ Str.of_nat (length (track_points self))))%py
  end.

(** The body of the loop of [main] over the input files (lines 213 to
    218); [merger] is the variable of that name. *)
Definition process_file (merger : merger) (gpx_file : string) : M GPXMerger.merger :=
  try_except
    (print ("Processing: " +:+ gpx_file) ;;
     parse_gpx_file merger gpx_file)%py
    (fun e => match e with
              | FileNotFoundError _ | ParseError _ =>
                  Some (print_stderr ("Error: " +:+ str_exn e) ;;
                        raise (SystemExit 1))%py
              | _ => None
              end).

(** [main], from the point where the patterns of the command line have been
    expanded into [input_files]; [output] is the value of [--output]. *)
Definition main (input_files : list string) (output : string) : M unit :=
  match input_files with
  | [] =>
      (print_stderr "Error: No valid GPX files found." ;;
       raise (SystemExit 1))%py
  | _ :: _ =>
      (print ("Found " +:+ Str.of_nat (length input_files)
              +:+ " GPX file(s) to merge:") ;;
       for_each (fun _ f => print ("  - " +:+ f)) input_files tt ;;
       merger <- for_each process_file input_files __init__ ;;
       merger <- sort_by_timestamp merger ;;
       merge_to_file merger output)%py
  end.

(** The exit status of the process: 0 when [main] returns, the code of
    [sys.exit], 1 after any other exception. *)
Definition exit_status (r : result unit) : Z :=
  match r with
  | Ok _ => 0
  | Raise (SystemExit c) => c
  | Raise _ => 1
  end.

Definition run (input_files : list string) (output : string) (w : world)
  : Z * world :=
  let (r, w') := main input_files output w in (exit_status r, w').

End WithParser.
End GPXMerger.

(** ** [example_usage.py] *)

Module ExampleUsage.
Import GPXMerger.

Section WithParser.
Variable fromisoformat : string -> option Datetime.datetime.

Definition gpx_files : list string := ["track1.gpx"; "track2.gpx"; "track3.gpx"].

(** The body of the loop of [example_merge] (lines 24 to 30).  The line
    [Loaded] is printed inside the [try].  [except Exception] takes every
    exception that is not a [SystemExit]; [parse_gpx_file] has left the
    merger as it was when it raises. *)
Definition load_file (merger : merger) (gpx_file : string) : M GPXMerger.merger :=
  try_except
    (loaded <- parse_gpx_file fromisoformat merger gpx_file ;;
     print ("Loaded: " +:+ gpx_file) ;;
     ret loaded)%py
    (fun e => match e with
              | FileNotFoundError _ =>
                  Some (print ("File not found: " +:+ gpx_file) ;; ret merger)%py
              | SystemExit _ => None
              | _ =>
                  Some (print ("Error loading " +:+ gpx_file +:+ ": " +:+ str_exn e) ;;
                        ret merger)%py
              end).

Definition example_merge : M unit :=
  (merger <- for_each load_file gpx_files __init__ ;;
   merger <- sort_by_timestamp merger ;;
   merge_to_file merger "merged_output.gpx")%py.

End WithParser.
End ExampleUsage.

(** ** A parser for the common form of timestamps

    [datetime.fromisoformat] accepts more or fewer texts from one Python
    version to the next.  Every version since 3.7 accepts the form
    [YYYY-MM-DD*HH:MM:SS[.fff[fff]][+HH:MM]] ([*] any one character, the sign
    [+] or [-]) with the result below, and rejects a text that does not start
    with four digits.  The instance below recognises that form and nothing
    else; it serves to run the merger on concrete documents. *)

Module Iso8601.
Import Datetime.
Local Open Scope Z_scope.

Definition digit (c : ascii) : option Z :=
  let n := Z.of_nat (nat_of_ascii c) in
  if (48 <=? n) && (n <=? 57) then Some (n - 48) else None.

(** Exactly [n] digits, most significant first. *)
Fixpoint digits (n : nat) (acc : Z) (s : string) : option (Z * string) :=
  match n, s with
  | O, _ => Some (acc, s)
  | S n', String c s' =>
      match digit c with
      | Some d => digits n' (acc * 10 + d) s'
      | None => None
      end
  | S _, EmptyString => None
  end.

Definition literal (c : ascii) (s : string) : option string :=
  match s with
  | String c' s' => if Ascii.eqb c c' then Some s' else None
  | EmptyString => None
  end.

Definition any_char (s : string) : option string :=
  match s with
  | String _ s' => Some s'
  | EmptyString => None
  end.

(** [.ffffff] or [.fff], or nothing. *)
Definition fraction (s : string) : option (Z * string) :=
  match s with
  | String "."%char s' =>
      match digits 6 0 s' with
      | Some r => Some r
      | None =>
          match digits 3 0 s' with
          | Some (ms, s'') => Some (ms * 1000, s'')
          | None => None
          end
      end
  | _ => Some (0, s)
  end.

(** [+HH:MM] or [-HH:MM] up to the end of the text, or the end of the text:
    the offset in microseconds. *)
Definition offset (s : string) : option (option Z) :=
  match s with
  | EmptyString => Some None
  | String c s' =>
      sign ← (if Ascii.eqb c "+" then Some 1
              else if Ascii.eqb c "-" then Some (-1) else None);
      '(hh, s1) ← digits 2 0 s';
      s2 ← literal ":" s1;
      '(mm, s3) ← digits 2 0 s2;
      if String.eqb s3 "" && (mm <=? 59)
      then Some (Some (sign * ((hh * 3600 + mm * 60) * 1000000)))
      else None
  end.

Definition fromisoformat (date_string : string) : option datetime :=
  '(y, s) ← digits 4 0 date_string;
  s ← literal "-" s;
  '(mo, s) ← digits 2 0 s;
  s ← literal "-" s;
  '(d, s) ← digits 2 0 s;
  s ← any_char s;
  '(h, s) ← digits 2 0 s;
  s ← literal ":" s;
  '(mi, s) ← digits 2 0 s;
  s ← literal ":" s;
  '(sec, s) ← digits 2 0 s;
  '(us, s) ← fraction s;
  tz ← offset s;
  Datetime.new y mo d h mi sec us tz.

End Iso8601.

(** ** The vocabulary of the properties *)

Module Spec.
Import GPXMerger.

Section Ranked.
Context {A K : Type} (lt : K -> K -> option bool) (key : A -> K).
Context (rank : A -> Z).

(** [lt] on the keys of [x] and [y] answers, and as the ranks order. *)
Definition ranked (x y : A) : Prop :=
  lt (key x) (key y) = Some (rank x <? rank y)%Z.

Definition by_rank (x y : A) : Prop := (rank x <= rank y)%Z.
End Ranked.

(** The instant of a record, as the number that orders it. *)
Definition instant_of (p : point) : Z := Datetime.instant (timestamp p).

(** A collection whose timestamps all carry an offset, or all carry none:
    any two of them can be compared. *)
Definition comparable (l : list point) : Prop :=
  Forall (fun p => Datetime.aware (timestamp p) = true) l
  \/ Forall (fun p => Datetime.aware (timestamp p) = false) l.

Definition non_decreasing (l : list point) : Prop :=
  StronglySorted (fun p q => (instant_of p <= instant_of q)%Z) l.

(** The records of a collection at one instant, in the order of the
    collection. *)
Definition at_instant (t : Z) (l : list point) : list point :=
  filter (fun p => instant_of p = t) l.

(** The world after some more lines on the diagnostic stream. *)
Definition with_stderr (lines : list string) (w : world) : world :=
  mk_world (next_id w) (fs w) (stdout w) (stderr w ++ lines) (utcnow w)
           (openable w) (stdout_unicode w).

(** The world after [k] more objects were created. *)
Definition advance (k : nat) (w : world) : world :=
  mk_world (next_id w + k) (fs w) (stdout w) (stderr w) (utcnow w)
           (openable w) (stdout_unicode w).

(** An element with more children at the end. *)
Definition with_children (e : Element) (more : list Element) : Element :=
  match e with
  | mkElement i t d a tx tl ch => mkElement i t d a tx tl (ch ++ more)
  end.

(** The output document, as section 4.5 of the specification lays it out:
    a root with version and generator (and the [xmlns] attribute the code
    gives it), a metadata block with name, description and generation
    instant, and one track with one segment that holds the points.  [n] is
    the identity of the root; the skeleton takes sixteen objects. *)
Definition document (n : nat) (name desc : option string) (now : string)
    (points : list Element) : Element :=
  mkElement n "gpx" (S n)
    [("version", "1.1"); ("creator", "GPX Merger Script");
     ("xmlns", GPX_NAMESPACE)] None None
    [ mkElement (n + 2) "metadata" (S (n + 2)) [] None None
        [ mkElement (n + 4) "name" (S (n + 4)) [] name None [];
          mkElement (n + 6) "desc" (S (n + 6)) [] desc None [];
          mkElement (n + 8) "time" (S (n + 8)) [] (Some (now +:+ "Z")) None [] ];
      mkElement (n + 10) "trk" (S (n + 10)) [] None None
        [ mkElement (n + 12) "name" (S (n + 12)) [] (Some "Merged Track") None [];
          mkElement (n + 14) "trkseg" (S (n + 14)) [] None None points ] ].

(** The name and the description the output document is given. *)
Definition output_name (self : merger) : option string :=
  default (Some "Merged GPX Track") (metadata self !! "name").
Definition output_desc (self : merger) : option string :=
  default (Some "Merged from multiple GPX files") (metadata self !! "desc").

(** The objects of the elements of a collection, in order. *)
Definition objects_of (l : list point) : list nat :=
  concat (map (fun p => objects (point_elem p)) l).

(** The point elements of an output document: the children of the segment
    of its track. *)
Definition output_points (doc : Element) : list Element :=
  match ET.find doc "trk" with
  | Some trk =>
      match ET.find trk "trkseg" with
      | Some trk_seg => children trk_seg
      | None => []
      end
  | None => []
  end.

(** Every object of the collection exists in the world: its identity was
    handed out before. *)
Definition allocated (w : world) (l : list point) : Prop :=
  Forall (fun p => Forall (fun i => i < next_id w) (objects (point_elem p))) l.

(** What a copy made in [w] is: the same content, held by objects created
    for it, one after the other from the next free identity. *)
Definition copy_of (elem : Element) (w : world) (clone : Element) : Prop :=
  content_of clone = content_of elem
  /\ objects clone = seq (next_id w) (length (objects elem)).

(** No object in common. *)
Definition independent (e1 e2 : Element) : Prop :=
  forall i, i ∈ objects e1 -> i ∉ objects e2.

(** The first error among the results of [f] on [l]. *)
Section FirstError.
Context {A : Type} (f : A -> option string).

Fixpoint first_error (l : list A) : option string :=
  match l with
  | [] => None
  | x :: l' =>
      match f x with
      | Some e => Some e
      | None => first_error l'
      end
  end.
End FirstError.

(** The error the parser reports on markup, if any: the checks of
    [ET.build], in its order, without the elements. *)
Fixpoint check (env : ET.ns_env) (m : markup) : option string :=
  match m with
  | MTag name attrs _ kids _ =>
      match ET.start_tag env name attrs with
      | inl msg => Some msg
      | inr (env', _, _) => first_error (check env') kids
      end
  end.

(** A document that is not well-formed, and the error of the parser. *)
Definition parse_error (c : file_content) : option string :=
  match c with
  | Unparsable e => Some e
  | Markup m => check ET.initial_env m
  end.

(** What a document supplies for a field of the metadata: nothing, or the
    text of the element (which may be missing). *)
Definition supplied (root : Element) (field : string) : option (option string) :=
  match ET.find root (gpx "metadata") with
  | Some md =>
      match ET.find md (gpx field) with
      | Some e => Some (text e)
      | None => None
      end
  | None => None
  end.

(** The candidates of a document: its path points, then its marker points,
    each kind in document order. *)
Definition path_points (root : Element) : list Element :=
  ET.findall_descendants root (gpx "trkpt").
Definition marker_points (root : Element) : list Element :=
  ET.findall_descendants root (gpx "wpt").
Definition candidates (root : Element) : list Element :=
  path_points root ++ marker_points root.

(** The timestamp text of a candidate: the text of its first timestamp
    child, when it has one and the text is not empty. *)
Definition timestamp_text (pt : Element) : option string :=
  match ET.find pt (gpx "time") with
  | Some time_elem =>
      if Str.truthy (text time_elem) then text time_elem else None
  | None => None
  end.

Section WithParser.
Variable fromisoformat : string -> option Datetime.datetime.

(** The Timestamp Parser: a trailing [Z] is read as a zero offset. *)
Definition parse_timestamp (txt : string) : option Datetime.datetime :=
  fromisoformat (Str.replace "Z" "+00:00" txt).

(** The record a candidate yields, if any. *)
Definition record_of (file_path : string) (pt : Element) : option point :=
  match timestamp_text pt with
  | Some txt =>
      match parse_timestamp txt with
      | Some ts => Some (ts, pt, file_path)
      | None => None
      end
  | None => None
  end.

(** The warning a candidate causes, if any. *)
Definition warning_of (file_path : string) (pt : Element) : option string :=
  match timestamp_text pt with
  | Some txt =>
      match parse_timestamp txt with
      | Some _ => None
      | None => Some (warning txt file_path)
      end
  | None => None
  end.

(** The merger once it has taken in the document [root] of [file_path]. *)
Definition absorb (file_path : string) (self : merger) (root : Element) : merger :=
  mk_merger (track_points self ++ omap (record_of file_path) (candidates root))
            (metadata (if bool_decide (metadata self = ∅)
                       then _extract_metadata self root else self)).

End WithParser.

(** A point element of the format: a path point or a marker point. *)
Definition gpx_point (e : Element) : Prop :=
  tag e = gpx "trkpt" \/ tag e = gpx "wpt".

(** The namespace of an element of a tree: that of its tag when the tag is
    qualified, [{uri}local]; an element with a plain tag is in no
    namespace, whatever attributes the tree carries. *)
Definition namespace_of (e : Element) : option string :=
  match Str.after_brace (tag e) with
  | Some rest => option_map fst (Str.rsplit1 "}"%char rest)
  | None => None
  end.

(** [e] is below [root]: a child of it, or below one of its children. *)
Inductive below (root : Element) : Element -> Prop :=
  | below_child c : c ∈ children root -> below root c
  | below_deeper c e : c ∈ children root -> below c e -> below root e.

(** [te] is the first child of [e] with the tag [t]; and [e] has no child
    with the tag [t]. *)
Definition first_child (e : Element) (t : string) (te : Element) : Prop :=
  exists before after,
    children e = before ++ te :: after
    /\ tag te = t /\ Forall (fun c => tag c <> t) before.

Definition no_child (e : Element) (t : string) : Prop :=
  Forall (fun c => tag c <> t) (children e).

(** What the tables of the serialiser keep true while names are added: the
    namespace of the format has the empty prefix or none yet; it has the
    empty prefix once the name of a point has been seen; and the plain name
    [xmlns] is written as it is. *)
Definition tables_inv (st : ET.tables) : Prop :=
  (forall p, Builtins.dict_get GPX_NAMESPACE (snd st) = Some p -> p = "")
  /\ (forall qn, qn = gpx "trkpt" \/ qn = gpx "wpt" ->
        is_Some (fst st !! qn) -> Builtins.dict_get GPX_NAMESPACE (snd st) = Some "")
  /\ (forall v, fst st !! "xmlns" = Some v -> v = "xmlns").

(** The file exists and holds a well-formed document. *)
Definition readable (w : world) (path : string) : Prop :=
  exists c, fs w !! path = Some c /\ parse_error c = None.

(** The file exists and holds a document that is not well-formed; [msg] is
    the error of the parser. *)
Definition malformed (w : world) (path msg : string) : Prop :=
  exists c, fs w !! path = Some c /\ parse_error c = Some msg.

(** The line [main] prints when a document does not parse. *)
Definition invalid_file_error (path msg : string) : string :=
  "Error: Invalid GPX file '" +:+ path +:+ "': " +:+ msg.

(** What a record holds, whatever the objects that hold its element: the
    timestamp, the content of the element, and the file. *)
Definition timed (p : point) : Datetime.datetime * content * string :=
  (timestamp p, content_of (point_elem p), source_file p).

Section OfFile.
Variable fromisoformat : string -> option Datetime.datetime.

(** The records and the warnings of the document of a file, as [ET.parse]
    and the extraction make them in [w]; none when the file does not
    parse. *)
Definition file_records (w : world) (path : string) : list point :=
  match ET.parse path w with
  | (Ok root, _) => omap (record_of fromisoformat path) (candidates root)
  | (Raise _, _) => []
  end.

Definition file_warnings (w : world) (path : string) : list string :=
  match ET.parse path w with
  | (Ok root, _) => omap (warning_of fromisoformat path) (candidates root)
  | (Raise _, _) => []
  end.

(** The records of the documents of a list of files, file after file. *)
Definition collected (w : world) (files : list string) : list point :=
  concat (map (file_records w) files).

End OfFile.

(** The metadata the document of a file supplies, as [_extract_metadata]
    takes it into a new merger; empty when the file does not parse. *)
Definition file_metadata (w : world) (path : string)
  : gmap string (option string) :=
  match ET.parse path w with
  | (Ok root, _) => metadata (_extract_metadata __init__ root)
  | (Raise _, _) => ∅
  end.

(** The first metadata of a list that is not empty. *)
Definition first_nonempty (l : list (gmap string (option string)))
  : gmap string (option string) :=
  default ∅ (head (filter (fun md => md <> ∅) l)).

(** The line the loop of [example_merge] prints for a file. *)
Definition load_report (w : world) (path : string) : string :=
  match fs w !! path with
  | None => "File not found: " +:+ path
  | Some c =>
      match parse_error c with
      | Some msg =>
          "Error loading " +:+ path +:+ ": "
          +:+ ("Invalid GPX file '" +:+ path +:+ "': " +:+ msg)
      | None => "Loaded: " +:+ path
      end
  end.

(** The content of the element the tree builder makes of markup that is
    well-formed. *)
Fixpoint content_tree (env : ET.ns_env) (m : markup) : content :=
  match m with
  | MTag name attrs tx kids tl =>
      match ET.start_tag env name attrs with
      | inr (env', t, a) =>
          Content t a (ET.character_data tx) (ET.character_data tl)
                  (map (content_tree env') kids)
      | inl _ => Content name [] None None []
      end
  end.

(** A name the serialiser can write: a plain name, or [{uri}local]. *)
Definition writable (n : string) : bool :=
  match Str.after_brace n with
  | Some rest => bool_decide (is_Some (Str.rsplit1 "}"%char rest))
  | None => true
  end.

(** The names of a content, in the order of [ET.names_of] along
    [ET.iter]. *)
Fixpoint content_names (c : content) : list string :=
  match c with
  | Content t a _ _ ch => t :: map fst a ++ concat (map content_names ch)
  end.

(** The markup [ET.write] makes of a document, when it makes one. *)
Definition written (doc : Element) : option markup :=
  match ET._namespaces registry doc with
  | Some (qnames, namespaces) => ET._serialize_xml qnames (Some namespaces) doc
  | None => None
  end.

End Spec.

(** ** Sample data *)

Module Examples.
Import GPXMerger.
Local Open Scope Z_scope.

(** 2024-01-01T10:00:00+00:00, the same moment written as 11:00:00+01:00,
    five seconds later, and 10:00:00 with no offset. *)
Definition t_100000_utc : Datetime.datetime :=
  Datetime.mk_datetime 2024 1 1 10 0 0 0 (Some 0) eq_refl.
Definition t_110000_plus1 : Datetime.datetime :=
  Datetime.mk_datetime 2024 1 1 11 0 0 0 (Some 3600000000) eq_refl.
Definition t_100005_utc : Datetime.datetime :=
  Datetime.mk_datetime 2024 1 1 10 0 5 0 (Some 0) eq_refl.
Definition t_100000_naive : Datetime.datetime :=
  Datetime.mk_datetime 2024 1 1 10 0 0 0 None eq_refl.

(** A bare point element with the given identity and latitude. *)
Definition bare_point (i : nat) (kind lat : string) : Element :=
  mkElement i (gpx kind) (S i) [("lat", lat)] None None [].

(** A collection as two documents would leave it: the later point of [a.gpx]
    first, then two points of one instant, from [a.gpx] and from [b.gpx]. *)
Definition three_points : merger :=
  mk_merger [ (t_100005_utc, bare_point 0 "trkpt" "1", "a.gpx");
              (t_100000_utc, bare_point 2 "trkpt" "2", "a.gpx");
              (t_110000_plus1, bare_point 4 "trkpt" "3", "b.gpx") ]
            ∅.

Definition empty_world : world :=
  mk_world 6 ∅ [] [] "2024-06-01T12:00:00" (fun _ => true) true.

(** Markup of documents. *)
Definition time_tag (t : string) : markup := MTag "time" [] t [] "".
Definition trkpt (lat : string) (kids : list markup) : markup :=
  MTag "trkpt" [("lat", lat); ("lon", "0.0")] "" kids "".
Definition wpt (lat : string) (kids : list markup) : markup :=
  MTag "wpt" [("lat", lat); ("lon", "0.0")] "" kids "".
Definition track (points : list markup) : markup :=
  MTag "trk" [] "" [MTag "trkseg" [] "" points ""] "".
Definition gpx_doc (kids : list markup) : markup :=
  MTag "gpx" [("version", "1.1"); ("creator", "device");
              ("xmlns", GPX_NAMESPACE)] "" kids "".

(** Named "A", no description; the later point comes first. *)
Definition doc_a : markup :=
  gpx_doc [ MTag "metadata" [] "" [MTag "name" [] "A" [] ""] "";
            track [ trkpt "1" [time_tag "2024-01-01T10:00:05Z"];
                    trkpt "2" [time_tag "2024-01-01T10:00:00Z"] ] ].

(** Named "B", described as "X"; its point is at the instant of the second
    point of [doc_a], written with another offset. *)
Definition doc_b : markup :=
  gpx_doc [ MTag "metadata" [] ""
              [MTag "name" [] "B" [] ""; MTag "desc" [] "X" [] ""] "";
            track [ trkpt "3" [time_tag "2024-01-01T11:00:00+01:00"] ] ].

(** A marker point, and after it in the text a path point of the same
    instant. *)
Definition doc_marker_first : markup :=
  gpx_doc [ wpt "9" [time_tag "2024-01-01T10:00:00Z"];
            track [ trkpt "1" [time_tag "2024-01-01T10:00:00Z"] ] ].

(** Points that cannot take part: no timestamp, an empty timestamp, and a
    text that is no timestamp; and one good point. *)
Definition doc_dropped : markup :=
  gpx_doc [ track [ trkpt "1" [];
                    trkpt "2" [time_tag ""];
                    trkpt "3" [time_tag "yesterday"];
                    trkpt "4" [time_tag "2024-01-01T10:00:00Z"] ] ].

(** No usable point at all. *)
Definition doc_untimed : markup :=
  gpx_doc [ track [ trkpt "1" []; trkpt "2" [MTag "ele" [] "12.5" [] ""] ] ].

(** A timestamp with the UTC designator and one with no offset. *)
Definition doc_mixed : markup :=
  gpx_doc [ track [ trkpt "1" [time_tag "2024-01-01T10:00:00Z"];
                    trkpt "2" [time_tag "2024-01-01T10:00:05"] ] ].

(** A point with an extension element of another namespace. *)
Definition doc_extension : markup :=
  gpx_doc [ track [ trkpt "1"
                      [ time_tag "2024-01-01T10:00:00Z";
                        MTag "extensions" [] ""
                          [ MTag "x:hr" [("xmlns:x", "http://example.com/ext")]
                                 "72" [] "" ] "" ] ] ].

(** The world at the start of a run: the given files, nothing printed. *)
Definition world_of (files : list (string * file_content)) : world :=
  mk_world 0 (list_to_map files) [] [] "2024-06-01T12:00:00" (fun _ => true) true.

(** The same files on a host where no path opens for writing, and on one
    whose standard output cannot encode the check mark. *)
Definition read_only_world_of (files : list (string * file_content)) : world :=
  mk_world 0 (list_to_map files) [] [] "2024-06-01T12:00:00" (fun _ => false) true.

Definition ascii_world_of (files : list (string * file_content)) : world :=
  mk_world 0 (list_to_map files) [] [] "2024-06-01T12:00:00" (fun _ => true) false.

Definition run_on (files : list (string * file_content))
    (input_files : list string) (output : string) : Z * world :=
  run Iso8601.fromisoformat input_files output (world_of files).

(** The collection once the input files are processed and sorted, and the
    world then; and the document that is built from it. *)
Definition merged (files : list (string * file_content))
    (input_files : list string) : option (merger * world) :=
  match (self <- for_each (process_file Iso8601.fromisoformat)
                          input_files __init__ ;;
         sort_by_timestamp self)%py (world_of files) with
  | (Ok self, w) => Some (self, w)
  | (Raise _, _) => None
  end.

Definition output_document (files : list (string * file_content))
    (input_files : list string) : option Element :=
  match merged files input_files with
  | Some (self, w) =>
      match build_document self w with
      | (Ok doc, _) => Some doc
      | (Raise _, _) => None
      end
  | None => None
  end.

(** File systems. *)
Definition two_documents : list (string * file_content) :=
  [("a.gpx", Markup doc_a); ("b.gpx", Markup doc_b)].

Definition with_a_broken_file : list (string * file_content) :=
  [("a.gpx", Markup doc_a);
   ("bad.gpx", Unparsable "mismatched tag: line 7, column 4")].

Definition t_100005_naive : Datetime.datetime :=
  Datetime.mk_datetime 2024 1 1 10 0 5 0 None eq_refl.

(** The directory of the example of use: the first file is there, the
    second is missing, the third is not well-formed. *)
Definition example_directory : list (string * file_content) :=
  [("track1.gpx", Markup doc_a);
   ("track3.gpx", Unparsable "syntax error: line 1, column 0")].

(** The root of a document as the parser builds it in a new world. *)
Definition root_of (m : markup) : option Element :=
  match ET.build ET.initial_env m (world_of []) with
  | (Ok root, _) => Some root
  | (Raise _, _) => None
  end.

End Examples.

(** ** Tactics *)

(** One case per disjunct of a proof of [x = a \/ x = b \/ ...]. *)
Ltac each_case pf :=
  let C := fresh "C" in
  pose proof pf as C;
  repeat (destruct C as [C | C]; [subst |]); subst.

(** * Properties *)

(** ** Comparison of timestamps *)

Module DatetimeFacts.
Import Datetime.
Local Open Scope Z_scope.

Lemma _days_before_year_step y :
  _days_before_year (y + 1)
  = _days_before_year y + (if _is_leap y then 366 else 365).
Proof.
  unfold _days_before_year, _is_leap. cbv zeta.
  replace (y + 1 - 1) with y by lia.
  destruct (Z.eqb_spec (y mod 4) 0), (Z.eqb_spec (y mod 100) 0),
    (Z.eqb_spec (y mod 400) 0);
    cbn [andb orb negb]; Z.div_mod_to_equations; lia.
Qed.

Lemma _days_before_year_mono y1 y2 :
  y1 <= y2 -> _days_before_year y1 <= _days_before_year y2.
Proof.
  unfold _days_before_year. cbv zeta. intros. Z.div_mod_to_equations. lia.
Qed.

Lemma month_cases m :
  1 <= m <= 12 ->
  m = 1 \/ m = 2 \/ m = 3 \/ m = 4 \/ m = 5 \/ m = 6 \/
  m = 7 \/ m = 8 \/ m = 9 \/ m = 10 \/ m = 11 \/ m = 12.
Proof. lia. Qed.

Lemma _check_date_fields_range y m d :
  _check_date_fields y m d = true ->
  1 <= y <= 9999 /\ 1 <= m <= 12 /\ 1 <= d <= _days_in_month y m.
Proof.
  unfold _check_date_fields, MINYEAR, MAXYEAR. intros H.
  repeat (apply andb_prop in H as [H ?]). lia.
Qed.

Lemma _check_time_fields_range h mi s us :
  _check_time_fields h mi s us = true ->
  0 <= h <= 23 /\ 0 <= mi <= 59 /\ 0 <= s <= 59 /\ 0 <= us <= 999999.
Proof.
  unfold _check_time_fields. intros H.
  repeat (apply andb_prop in H as [H ?]). lia.
Qed.

(** Within a year the day number stays within the length of the year ... *)
Lemma day_of_year_range y m d :
  1 <= m <= 12 -> 1 <= d <= _days_in_month y m ->
  1 <= _days_before_month y m + d <= (if _is_leap y then 366 else 365).
Proof.
  intros Hm Hd. unfold _days_in_month, _days_before_month in *.
  each_case (month_cases m Hm); destruct (_is_leap y); simpl in *; lia.
Qed.

(** ... and grows with the month. *)
Lemma day_of_year_lt y m1 d1 m2 d2 :
  1 <= m1 <= 12 -> 1 <= d1 <= _days_in_month y m1 ->
  1 <= m2 <= 12 -> 1 <= d2 <= _days_in_month y m2 ->
  m1 < m2 ->
  _days_before_month y m1 + d1 < _days_before_month y m2 + d2.
Proof.
  intros Hm1 Hd1 Hm2 Hd2 Hlt. unfold _days_in_month, _days_before_month in *.
  each_case (month_cases m1 Hm1); each_case (month_cases m2 Hm2);
    try lia; destruct (_is_leap y); simpl in *; lia.
Qed.

Lemma _ymd2ord_lt_year y1 m1 d1 y2 m2 d2 :
  1 <= m1 <= 12 -> 1 <= d1 <= _days_in_month y1 m1 ->
  1 <= m2 <= 12 -> 1 <= d2 <= _days_in_month y2 m2 ->
  y1 < y2 -> _ymd2ord y1 m1 d1 < _ymd2ord y2 m2 d2.
Proof.
  intros Hm1 Hd1 Hm2 Hd2 Hlt. unfold _ymd2ord.
  pose proof (day_of_year_range y1 m1 d1 Hm1 Hd1) as R1.
  pose proof (day_of_year_range y2 m2 d2 Hm2 Hd2) as R2.
  pose proof (_days_before_year_step y1) as St.
  pose proof (_days_before_year_mono (y1 + 1) y2 ltac:(lia)) as Mo.
  destruct (_is_leap y1), (_is_leap y2); lia.
Qed.

(** On checked fields, the order of the tuples is the order of the
    wall-clock readings. *)
Lemma _cmp_tuple_local_micros a b :
  _cmp_tuple (fields a) (fields b) = (local_micros a ?= local_micros b).
Proof.
  destruct a as [y1 m1 d1 h1 mi1 s1 us1 tz1 ok1],
           b as [y2 m2 d2 h2 mi2 s2 us2 tz2 ok2].
  unfold fields, local_micros, toordinal.
  cbn [year month day hour minute second microsecond].
  apply andb_prop in ok1 as [ok1 _]. apply andb_prop in ok1 as [okd1 okt1].
  apply andb_prop in ok2 as [ok2 _]. apply andb_prop in ok2 as [okd2 okt2].
  apply _check_date_fields_range in okd1 as (Hy1 & Hm1 & Hd1).
  apply _check_date_fields_range in okd2 as (Hy2 & Hm2 & Hd2).
  apply _check_time_fields_range in okt1 as (? & ? & ? & ?).
  apply _check_time_fields_range in okt2 as (? & ? & ? & ?).
  assert (Hyear : y1 < y2 -> _ymd2ord y1 m1 d1 < _ymd2ord y2 m2 d2)
    by (apply _ymd2ord_lt_year; assumption).
  assert (Hyear' : y2 < y1 -> _ymd2ord y2 m2 d2 < _ymd2ord y1 m1 d1)
    by (apply _ymd2ord_lt_year; assumption).
  assert (Hmonth : y1 = y2 -> m1 < m2 -> _ymd2ord y1 m1 d1 < _ymd2ord y2 m2 d2).
  { intros -> ?. unfold _ymd2ord.
    pose proof (day_of_year_lt y2 m1 d1 m2 d2 Hm1 Hd1 Hm2 Hd2). lia. }
  assert (Hmonth' : y1 = y2 -> m2 < m1 -> _ymd2ord y2 m2 d2 < _ymd2ord y1 m1 d1).
  { intros -> ?. unfold _ymd2ord.
    pose proof (day_of_year_lt y2 m2 d2 m1 d1 Hm2 Hd2 Hm1 Hd1). lia. }
  assert (Hday : y1 = y2 -> m1 = m2 ->
                 _ymd2ord y1 m1 d1 - _ymd2ord y2 m2 d2 = d1 - d2).
  { intros -> ->. unfold _ymd2ord. lia. }
  generalize dependent (_ymd2ord y1 m1 d1).
  generalize dependent (_ymd2ord y2 m2 d2).
  intros o2 o1 **. cbn [_cmp_tuple].
  symmetry.
  repeat match goal with
         | |- context [?x ?= ?y] =>
             is_var x; is_var y; destruct (Z.compare_spec x y)
         end;
    first [ apply Z.compare_eq_iff | apply Z.compare_lt_iff
          | apply Z.compare_gt_iff ];
    lia.
Qed.

(** Two naive values, or two aware values, compare as their instants. *)
Lemma _cmp_instant a b :
  aware a = aware b -> _cmp a b = Cmp (instant a ?= instant b).
Proof.
  unfold _cmp, aware, instant, __sub__.
  destruct (tzinfo a) as [oa|], (tzinfo b) as [ob|]; try discriminate; intros _;
    cbn [from_option id].
  - destruct (Z.eqb_spec oa ob) as [->|Hne].
    + rewrite _cmp_tuple_local_micros. f_equal.
      destruct (Z.compare_spec (local_micros a) (local_micros b));
        symmetry;
        first [ apply Z.compare_eq_iff | apply Z.compare_lt_iff
              | apply Z.compare_gt_iff ]; lia.
    + destruct (Z.ltb_spec (local_micros a - local_micros b + ob - oa) 0).
      { f_equal. symmetry. apply Z.compare_lt_iff. lia. }
      destruct (Z.eqb_spec (local_micros a - local_micros b + ob - oa) 0).
      { f_equal. symmetry. apply Z.compare_eq_iff. lia. }
      f_equal. symmetry. apply Z.compare_gt_iff. lia.
  - rewrite _cmp_tuple_local_micros. f_equal. f_equal; lia.
Qed.

(** A naive and an aware value do not compare. *)
Lemma _cmp_mixed a b :
  aware a <> aware b -> _cmp a b = TypeError_naive_aware.
Proof.
  unfold _cmp, aware.
  destruct (tzinfo a), (tzinfo b); intros H; try reflexivity; contradiction.
Qed.

Lemma __lt___instant a b :
  aware a = aware b -> __lt__ a b = Some (instant a <? instant b).
Proof.
  intros H. unfold __lt__. rewrite (_cmp_instant a b H). unfold Z.ltb.
  destruct (instant a ?= instant b); reflexivity.
Qed.

Lemma __lt___mixed a b : aware a <> aware b -> __lt__ a b = None.
Proof. intros H. unfold __lt__. by rewrite (_cmp_mixed a b H). Qed.

(** Equality of two aware values is equality of the moments they denote,
    whatever the offsets they were written with. *)
Lemma __eq___instant a b :
  aware a = aware b -> __eq__ a b = (instant a =? instant b).
Proof.
  intros H. unfold __eq__. rewrite (_cmp_instant a b H), <- Z.eqb_compare.
  destruct (instant a ?= instant b); reflexivity.
Qed.

Lemma __eq___mixed a b : aware a <> aware b -> __eq__ a b = false.
Proof. intros H. unfold __eq__. by rewrite (_cmp_mixed a b H). Qed.

End DatetimeFacts.

(** ** The stable sort *)

Section SortMembers.
Context {A K : Type} (lt : K -> K -> option bool) (key : A -> K).

(** What the sort returns holds the elements of the list, whether or not
    the keys are ranked. *)
Lemma insert_elem_of x s s' :
  Builtins.insert lt key x s = Some s' ->
  forall z, z ∈ s' <-> z = x \/ z ∈ s.
Proof.
  revert s'. induction s as [|y s IH]; intros s' Hi z.
  - injection Hi as <-. rewrite list_elem_of_singleton, elem_of_nil. tauto.
  - cbn [Builtins.insert] in Hi.
    destruct (lt (key y) (key x)) as [[]|]; [| |done].
    + destruct (Builtins.insert lt key x s) as [s''|]; [|done].
      injection Hi as <-. rewrite !elem_of_cons, (IH s'' eq_refl). tauto.
    + injection Hi as <-. rewrite !elem_of_cons. tauto.
Qed.

Lemma sort_elem_of l s :
  Builtins.sort lt key l = Some s -> forall z, z ∈ l <-> z ∈ s.
Proof.
  revert s. induction l as [|x l IH]; intros s Hs z.
  - by injection Hs as <-.
  - cbn [Builtins.sort] in Hs.
    destruct (Builtins.sort lt key l) as [s0|]; [|done].
    rewrite (insert_elem_of _ _ _ Hs), elem_of_cons, (IH s0 eq_refl). tauto.
Qed.

End SortMembers.

Section SortFacts.
Context {A K : Type} (lt : K -> K -> option bool) (key : A -> K).
Context (rank : A -> Z).

Local Abbreviation ranked := (Spec.ranked lt key rank).
Local Abbreviation by_rank := (Spec.by_rank rank).

Lemma insert_spec x s :
  (forall y, y ∈ s -> ranked y x) ->
  exists s', Builtins.insert lt key x s = Some s'
    /\ s' ≡ₚ x :: s
    /\ (forall t, filter (fun a => rank a = t) s'
                  = filter (fun a => rank a = t) (x :: s))
    /\ (StronglySorted by_rank s -> StronglySorted by_rank s').
Proof.
  induction s as [|y s IH]; intros Hr.
  - exists [x]. repeat split; auto. intros _. repeat constructor.
  - cbn [Builtins.insert]. rewrite (Hr y) by set_solver.
    destruct (Z.ltb_spec (rank y) (rank x)) as [Hlt|Hge].
    + destruct IH as (s' & -> & Hp & Hf & Hs); [intros; apply Hr; set_solver|].
      exists (y :: s'). split; [reflexivity|]. split; [|split].
      * rewrite Hp. apply Permutation_swap.
      * intros t. rewrite (filter_cons _ y s'), Hf, !filter_cons.
        repeat case_decide; try done; lia.
      * intros Hss. apply StronglySorted_inv in Hss as [Hss Hall].
        constructor; [auto|].
        apply Forall_forall. intros z Hz. rewrite Hp in Hz.
        apply elem_of_cons in Hz as [->|Hz]; [unfold Spec.by_rank; lia|].
        rewrite Forall_forall in Hall. auto.
    + exists (x :: y :: s). repeat split; auto.
      intros Hss. constructor; [done|].
      apply StronglySorted_inv in Hss as [Hss Hall].
      constructor; [unfold Spec.by_rank; lia|].
      eapply Forall_impl; [exact Hall|]. unfold Spec.by_rank. intros; lia.
Qed.

(** When the keys of the list compare pairwise, the sort returns, and what
    it returns is a permutation in rank order that keeps the records of one
    rank in the order they had. *)
Lemma sort_spec l :
  (forall x y, x ∈ l -> y ∈ l -> ranked x y) ->
  exists l', Builtins.sort lt key l = Some l'
    /\ l' ≡ₚ l
    /\ (forall t, filter (fun a => rank a = t) l'
                  = filter (fun a => rank a = t) l)
    /\ StronglySorted by_rank l'.
Proof.
  induction l as [|x l IH]; intros Hr.
  - exists []. repeat split; auto. constructor.
  - destruct IH as (s & Hs & Hp & Hf & Hss); [intros; apply Hr; set_solver|].
    cbn [Builtins.sort]. rewrite Hs.
    destruct (insert_spec x s) as (s' & Hi & Hp' & Hf' & Hss').
    { intros y Hy. rewrite Hp in Hy. apply Hr; set_solver. }
    exists s'. split; [done|]. split; [|split].
    + by rewrite Hp', Hp.
    + intros t. rewrite Hf', !filter_cons, Hf. done.
    + auto.
Qed.

(** Two lists in rank order that agree rank by rank are one list: the
    outcome of a stable sort does not depend on the algorithm. *)
Lemma stable_sorted_unique l1 l2 :
  StronglySorted by_rank l1 -> StronglySorted by_rank l2 ->
  (forall t, filter (fun a => rank a = t) l1 = filter (fun a => rank a = t) l2) ->
  l1 = l2.
Proof.
  revert l2. induction l1 as [|x l1 IH]; intros l2 S1 S2 Hf.
  - destruct l2 as [|y l2]; [done|].
    specialize (Hf (rank y)). rewrite filter_nil, filter_cons_True in Hf; done.
  - destruct l2 as [|y l2].
    { specialize (Hf (rank x)). rewrite filter_nil, filter_cons_True in Hf; done. }
    apply StronglySorted_inv in S1 as [S1 A1].
    apply StronglySorted_inv in S2 as [S2 A2].
    rewrite Forall_forall in A1, A2.
    assert (Hxy : rank x = rank y).
    { assert (x ∈ y :: l2) as Hx.
      { eapply (list_elem_of_filter (fun a => rank a = rank x)).
        rewrite <- Hf, filter_cons_True by done. apply elem_of_cons; auto. }
      assert (y ∈ x :: l1) as Hy.
      { eapply (list_elem_of_filter (fun a => rank a = rank y)).
        rewrite Hf, filter_cons_True by done. apply elem_of_cons; auto. }
      apply elem_of_cons in Hx as [Hx|Hx]; [by rewrite Hx|].
      apply elem_of_cons in Hy as [Hy|Hy]; [by rewrite Hy|].
      apply A2 in Hx. apply A1 in Hy. unfold Spec.by_rank in *. lia. }
    pose proof (Hf (rank x)) as Hh.
    rewrite filter_cons_True, (filter_cons_True _ y) in Hh by done.
    injection Hh as -> Hh. f_equal.
    apply IH; [done..|]. intros t. specialize (Hf t).
    rewrite !filter_cons in Hf. case_decide; [by injection Hf|done].
Qed.

End SortFacts.

(** ** The sort of the collection *)

Section SortByTimestamp.
Import GPXMerger.

Lemma comparable_ranked (l : list point) :
  Spec.comparable l ->
  forall p q, p ∈ l -> q ∈ l ->
    Spec.ranked Datetime.__lt__ timestamp Spec.instant_of p q.
Proof.
  intros Hc p q Hp Hq. unfold Spec.ranked, Spec.instant_of.
  apply DatetimeFacts.__lt___instant.
  destruct Hc as [Hc|Hc]; rewrite Forall_forall in Hc;
    rewrite (Hc p Hp), (Hc q Hq); reflexivity.
Qed.

(** On a collection whose timestamps compare, the sort returns. *)
Lemma sort_by_timestamp_Ok (self : merger) (w : world) :
  Spec.comparable (track_points self) ->
  exists sorted,
    sort_by_timestamp self w = (Ok sorted, w)
    /\ metadata sorted = metadata self
    /\ track_points sorted ≡ₚ track_points self
    /\ Spec.non_decreasing (track_points sorted)
    /\ forall t, Spec.at_instant t (track_points sorted)
                 = Spec.at_instant t (track_points self).
Proof.
  intros Hc.
  destruct (sort_spec Datetime.__lt__ timestamp Spec.instant_of
              (track_points self) (comparable_ranked _ Hc))
    as (l' & Hs & Hp & Hf & Hss).
  exists (mk_merger l' (metadata self)).
  unfold sort_by_timestamp. rewrite Hs. repeat split; auto.
Qed.

(** The two records of one instant come out in the order of their
    documents, before the later record of the first document. *)
Example sort_three_points :
  (let (r, _) := sort_by_timestamp Examples.three_points Examples.empty_world in
   match r with
   | Ok sorted => map (fun p => (eid (point_elem p), source_file p))
                      (track_points sorted)
   | Raise _ => []
   end)
  = [(2, "a.gpx"); (4, "b.gpx"); (0, "a.gpx")].
Proof. vm_compute. reflexivity. Qed.

(** A stable sort of any other making returns the same list. *)
Lemma sort_by_timestamp_canonical (self sorted : merger) (w : world) (l : list point) :
  sort_by_timestamp self w = (Ok sorted, w) ->
  Spec.comparable (track_points self) ->
  Spec.non_decreasing l ->
  (forall t, Spec.at_instant t l = Spec.at_instant t (track_points self)) ->
  l = track_points sorted.
Proof.
  intros Hs Hc Hl Hf.
  destruct (sort_by_timestamp_Ok self w Hc) as (s' & Hs' & _ & _ & Hn & Hf').
  rewrite Hs in Hs'. injection Hs' as <-.
  apply (stable_sorted_unique Spec.instant_of); [done..|].
  intros t. specialize (Hf t). specialize (Hf' t).
  unfold Spec.at_instant in *. congruence.
Qed.

(** A collection that holds a timestamp with an offset and one without
    cannot be sorted: a comparison raises. *)
Lemma sort_mixed (l : list point) (p q : point) :
  p ∈ l -> q ∈ l ->
  Datetime.aware (timestamp p) <> Datetime.aware (timestamp q) ->
  Builtins.sort Datetime.__lt__ timestamp l = None.
Proof.
  intros Hp Hq Hne.
  destruct (Builtins.sort Datetime.__lt__ timestamp l) as [s|] eqn:Hs; [|done].
  exfalso. apply Hne. clear Hne.
  revert s Hs p q Hp Hq. induction l as [|x l IH]; intros s Hs p q Hp Hq.
  { by apply elem_of_nil in Hp. }
  cbn [Builtins.sort] in Hs.
  destruct (Builtins.sort Datetime.__lt__ timestamp l) as [s0|] eqn:Hs0; [|done].
  assert (Hx : forall z, z ∈ l ->
             Datetime.aware (timestamp z) = Datetime.aware (timestamp x)).
  { intros z Hz. destruct s0 as [|y s0].
    - apply (sort_elem_of _ _ _ _ Hs0) in Hz. by apply elem_of_nil in Hz.
    - cbn [Builtins.insert] in Hs.
      destruct (Datetime.__lt__ (timestamp y) (timestamp x)) eqn:Hlt; [|done].
      assert (Hy : y ∈ l).
      { apply (sort_elem_of _ _ _ _ Hs0), elem_of_cons. auto. }
      rewrite (IH _ eq_refl z y Hz Hy).
      destruct (bool_decide (Datetime.aware (timestamp y)
                             = Datetime.aware (timestamp x))) eqn:Hd.
      + by apply bool_decide_eq_true in Hd.
      + apply bool_decide_eq_false in Hd.
        by rewrite (DatetimeFacts.__lt___mixed _ _ Hd) in Hlt. }
  apply elem_of_cons in Hp as [->|Hp], Hq as [->|Hq]; auto.
  - symmetry. auto.
  - rewrite (Hx p Hp), (Hx q Hq). done.
Qed.

(** So a sort that returns was given timestamps that compare. *)
Lemma sort_Some_comparable (l s : list point) :
  Builtins.sort Datetime.__lt__ timestamp l = Some s -> Spec.comparable l.
Proof.
  intros Hs.
  assert (Hall : forall p q, p ∈ l -> q ∈ l ->
            Datetime.aware (timestamp p) = Datetime.aware (timestamp q)).
  { intros p q Hp Hq.
    destruct (bool_decide (Datetime.aware (timestamp p)
                           = Datetime.aware (timestamp q))) eqn:Hd.
    - by apply bool_decide_eq_true in Hd.
    - apply bool_decide_eq_false in Hd.
      by rewrite (sort_mixed l p q Hp Hq Hd) in Hs. }
  destruct l as [|x l]; [left; constructor|].
  destruct (Datetime.aware (timestamp x)) eqn:Hx; [left|right];
    apply Forall_forall; intros p Hp;
    rewrite <- Hx; apply Hall; first [done | apply elem_of_cons; auto].
Qed.

Lemma sort_by_timestamp_inv (self sorted : merger) (w w' : world) :
  sort_by_timestamp self w = (Ok sorted, w') ->
  w' = w /\ Spec.comparable (track_points self).
Proof.
  unfold sort_by_timestamp.
  destruct (Builtins.sort Datetime.__lt__ timestamp (track_points self))
    as [l|] eqn:Hs; [|discriminate].
  intros [= <- <-]. split; [done|]. by eapply sort_Some_comparable.
Qed.

(** C1. Whenever the sort returns, the collection holds the same records,
    is non-decreasing by instant, and has the records of each instant in the
    order in which they were appended; nothing else changes, and no other
    key takes part.  The sort does return when the timestamps compare (all
    carry an offset, or none does). *)
Theorem sort_by_timestamp_stable (self : merger) (w : world) :
  (Spec.comparable (track_points self) ->
   exists sorted, sort_by_timestamp self w = (Ok sorted, w))
  /\ (forall sorted w',
        sort_by_timestamp self w = (Ok sorted, w') ->
        w' = w
        /\ metadata sorted = metadata self
        /\ track_points sorted ≡ₚ track_points self
        /\ Spec.non_decreasing (track_points sorted)
        /\ forall t, Spec.at_instant t (track_points sorted)
                     = Spec.at_instant t (track_points self)).
Proof.
  split.
  - intros Hc. destruct (sort_by_timestamp_Ok self w Hc) as (s & Hs & _).
    by exists s.
  - intros sorted w' Hs.
    destruct (sort_by_timestamp_inv _ _ _ _ Hs) as [-> Hc].
    destruct (sort_by_timestamp_Ok self w Hc) as (s & Hs' & H).
    rewrite Hs in Hs'. injection Hs' as <-. by split.
Qed.

Lemma sort_by_timestamp_stable_witness :
  exists sorted,
    sort_by_timestamp Examples.three_points Examples.empty_world
    = (Ok sorted, Examples.empty_world)
    /\ map (fun p => eid (point_elem p)) (track_points sorted) = [2; 4; 0]
    /\ track_points sorted ≡ₚ track_points Examples.three_points
    /\ Spec.non_decreasing (track_points sorted)
    /\ forall t, Spec.at_instant t (track_points sorted)
                 = Spec.at_instant t (track_points Examples.three_points).
Proof.
  destruct (proj1 (sort_by_timestamp_stable Examples.three_points
                     Examples.empty_world))
    as (sorted & Hs); [left; repeat constructor|].
  exists sorted. split; [exact Hs|].
  destruct (proj2 (sort_by_timestamp_stable Examples.three_points
                     Examples.empty_world) sorted _ Hs)
    as (_ & _ & Hp & Hn & Hf).
  split; [|by repeat split].
  vm_compute in Hs. by injection Hs as <-.
Defined.

End SortByTimestamp.

(** ** Statements of the monad *)

Section MonadFacts.

Lemma with_stderr_nil w : Spec.with_stderr [] w = w.
Proof. destruct w. unfold Spec.with_stderr. cbn. by rewrite app_nil_r. Qed.

Lemma with_stderr_app l1 l2 w :
  Spec.with_stderr l2 (Spec.with_stderr l1 w) = Spec.with_stderr (l1 ++ l2) w.
Proof. unfold Spec.with_stderr. cbn. by rewrite app_assoc. Qed.

Lemma bind_Ok {A B} (m : M A) (k : A -> M B) w a w' :
  m w = (Ok a, w') -> bind m k w = k a w'.
Proof. unfold bind. by intros ->. Qed.

Lemma bind_Raise {A B} (m : M A) (k : A -> M B) w e w' :
  m w = (Raise e, w') -> bind m k w = (Raise e, w').
Proof. unfold bind. by intros ->. Qed.

(** A sequence that returns went through both of its parts. *)
Lemma bind_inv_Ok {A B} (m : M A) (k : A -> M B) w b w' :
  bind m k w = (Ok b, w') ->
  exists a w1, m w = (Ok a, w1) /\ k a w1 = (Ok b, w').
Proof.
  unfold bind. destruct (m w) as [[a|e] w1]; [eauto|discriminate].
Qed.

Lemma for_each_app {A S} (body : S -> A -> M S) l1 l2 s w :
  for_each body (l1 ++ l2) s w
  = bind (for_each body l1 s) (for_each body l2) w.
Proof.
  revert s w. induction l1 as [|x l1 IH]; intros s w; cbn [for_each app].
  - reflexivity.
  - unfold bind. destruct (body s x w) as [[s1|e] w1]; [|reflexivity].
    rewrite IH. reflexivity.
Qed.

Lemma elem_of_concat {A} (x : A) (ls : list (list A)) :
  x ∈ concat ls <-> exists l, x ∈ l /\ l ∈ ls.
Proof.
  induction ls as [|l ls IH]; cbn [concat].
  - rewrite elem_of_nil. split; [done|]. intros (l & _ & H).
    by apply elem_of_nil in H.
  - rewrite elem_of_app, IH. split.
    + intros [H|(l' & H1 & H2)]; [exists l|exists l'];
        (split; [done|apply elem_of_cons; auto]).
    + intros (l' & H1 & [->|H2]%elem_of_cons); eauto.
Qed.

Lemma omap_cons_option_list {A B} (f : A -> option B) x l :
  option_list (f x) ++ omap f l = omap f (x :: l).
Proof. cbn. destruct (f x); reflexivity. Qed.

End MonadFacts.

(** ** Texts *)

Section StrFacts.

Lemma append_nil t : "" +:+ t = t.
Proof. reflexivity. Qed.

Lemma append_String c s t : String c s +:+ t = String c (s +:+ t).
Proof. reflexivity. Qed.

Lemma prefix_nil t : String.prefix "" t = true.
Proof. by destruct t. Qed.

Lemma prefix_String c s t :
  String.prefix (String c s) (String c t) = String.prefix s t.
Proof. cbn. destruct (ascii_dec c c); [done|contradiction]. Qed.

Lemma prefix_refl s : String.prefix s s = true.
Proof.
  induction s as [|c s IH]; [done|]. by rewrite prefix_String.
Qed.

Lemma prefix_app s t : String.prefix s (s +:+ t) = true.
Proof.
  induction s as [|c s IH]; [apply prefix_nil|].
  by rewrite append_String, prefix_String.
Qed.

Lemma contains_prefix s t : Str.contains s (s +:+ t) = true.
Proof.
  destruct (s +:+ t) eqn:E; cbn [Str.contains];
    rewrite <- E, prefix_app; reflexivity.
Qed.

Lemma contains_refl s : Str.contains s s = true.
Proof. destruct s; cbn [Str.contains]; rewrite prefix_refl; reflexivity. Qed.

Lemma contains_app_r sub s t :
  Str.contains sub t = true -> Str.contains sub (s +:+ t) = true.
Proof.
  intros H. induction s as [|c s IH]; [done|].
  rewrite append_String. cbn [Str.contains]. rewrite IH. apply orb_true_r.
Qed.

(** The warning names the offending text and the source document. *)
Lemma warning_names txt file :
  Str.contains txt (GPXMerger.warning txt file) = true
  /\ Str.contains file (GPXMerger.warning txt file) = true.
Proof.
  unfold GPXMerger.warning. split.
  - apply contains_app_r, contains_prefix.
  - do 3 apply contains_app_r. apply contains_refl.
Qed.

Lemma append_assoc s t u : (s +:+ t) +:+ u = s +:+ (t +:+ u).
Proof.
  induction s as [|c s IH]; [done|]. by rewrite !append_String, IH.
Qed.

(** [replace] works through a text piece by piece. *)
Lemma replace_app old new s t :
  Str.replace old new (s +:+ t)
  = Str.replace old new s +:+ Str.replace old new t.
Proof.
  induction s as [|c s IH]; [done|].
  rewrite append_String. cbn [Str.replace]. rewrite IH.
  destruct (Ascii.eqb c old); [|by rewrite append_String].
  by rewrite append_assoc.
Qed.

(** [Z] at the end of a text, and [+00:00] at the end of the text, are one
    text once [replace] has run. *)
Lemma replace_Z_designator s :
  Str.replace "Z" "+00:00" (s +:+ "Z")
  = Str.replace "Z" "+00:00" (s +:+ "+00:00").
Proof. rewrite !replace_app. reflexivity. Qed.

End StrFacts.

(** ** Extraction of the points of a document *)

Section Extraction.
Import GPXMerger.
Variable fromisoformat : string -> option Datetime.datetime.

Local Abbreviation extract_point := (GPXMerger.extract_point fromisoformat).
Local Abbreviation _extract_track_points :=
  (GPXMerger._extract_track_points fromisoformat).
Local Abbreviation record_of := (Spec.record_of fromisoformat).
Local Abbreviation warning_of := (Spec.warning_of fromisoformat).
Local Abbreviation parse_timestamp := (Spec.parse_timestamp fromisoformat).

(** One turn of the loop: the record is appended, or the warning printed,
    or nothing happens; no turn raises. *)
Lemma extract_point_spec file self pt w :
  extract_point file self pt w
  = (Ok (mk_merger (track_points self ++ option_list (record_of file pt))
                   (metadata self)),
     Spec.with_stderr (option_list (warning_of file pt)) w).
Proof.
  unfold GPXMerger.extract_point, Spec.record_of, Spec.warning_of,
    Spec.timestamp_text, Spec.parse_timestamp.
  destruct self as [tp md]. cbn [track_points metadata].
  destruct (ET.find pt (gpx "time")) as [te|];
    [destruct (text te) as [[|c txt]|]|];
    cbn [Str.truthy from_option id option_list];
    rewrite ?app_nil_r, ?with_stderr_nil; try reflexivity.
  destruct (fromisoformat _);
    cbn [option_list]; rewrite ?app_nil_r, ?with_stderr_nil; reflexivity.
Qed.

Lemma for_each_extract_point file l self w :
  for_each (extract_point file) l self w
  = (Ok (mk_merger (track_points self ++ omap (record_of file) l)
                   (metadata self)),
     Spec.with_stderr (omap (warning_of file) l) w).
Proof.
  revert self w. induction l as [|pt l IH]; intros self w; cbn [for_each omap].
  - destruct self. cbn. by rewrite app_nil_r, with_stderr_nil.
  - erewrite bind_Ok by apply extract_point_spec.
    rewrite IH. cbn [track_points metadata].
    rewrite with_stderr_app, <- app_assoc, <- !omap_cons_option_list.
    reflexivity.
Qed.

(** The whole method, in closed form. *)
Lemma _extract_track_points_spec self root file w :
  _extract_track_points self root file w
  = (Ok (mk_merger (track_points self
                    ++ omap (record_of file) (Spec.candidates root))
                   (metadata self)),
     Spec.with_stderr (omap (warning_of file) (Spec.candidates root)) w).
Proof.
  unfold GPXMerger._extract_track_points.
  erewrite bind_Ok by apply for_each_extract_point.
  rewrite for_each_extract_point. cbn [track_points metadata].
  unfold Spec.candidates, Spec.path_points, Spec.marker_points.
  rewrite with_stderr_app, <- app_assoc, !omap_app. reflexivity.
Qed.

(** The lookups of the tree, read on the tree itself. *)
Lemma iter_cons e : ET.iter e = e :: ET.descendants e.
Proof. by destruct e. Qed.

Lemma descendants_below root e : e ∈ ET.descendants root <-> Spec.below root e.
Proof.
  split.
  - revert e. induction root as [i t d a tx tl ch IH] using Element_ind'.
    unfold ET.descendants. cbn [children].
    intros e (l & He & Hl)%elem_of_concat.
    apply list_elem_of_fmap in Hl as (c & -> & Hc).
    rewrite iter_cons in He. apply elem_of_cons in He as [->|He].
    + by apply Spec.below_child.
    + apply (Spec.below_deeper _ c); [exact Hc|].
      rewrite Forall_forall in IH. by apply (IH c Hc).
  - induction 1 as [root c Hc|root c e Hc _ IH].
    + apply elem_of_concat. exists (ET.iter c).
      split; [rewrite iter_cons; apply elem_of_cons; by left|].
      by apply list_elem_of_fmap_2.
    + apply elem_of_concat. exists (ET.iter c).
      split; [rewrite iter_cons; apply elem_of_cons; by right|].
      by apply list_elem_of_fmap_2.
Qed.

Lemma candidates_below root pt :
  pt ∈ Spec.candidates root <-> Spec.below root pt /\ Spec.gpx_point pt.
Proof.
  unfold Spec.candidates, Spec.path_points, Spec.marker_points,
    ET.findall_descendants, Spec.gpx_point.
  rewrite elem_of_app, !list_elem_of_filter, descendants_below. tauto.
Qed.

Lemma find_first_child e t te : Spec.first_child e t te -> ET.find e t = Some te.
Proof.
  intros (before & after & Hch & Ht & Hb). unfold ET.find. rewrite Hch.
  clear Hch. induction Hb as [|c before Hc _ IH]; cbn [app List.find].
  - by rewrite Ht, String.eqb_refl.
  - destruct (String.eqb (tag c) t) eqn:E; [|exact IH].
    apply String.eqb_eq in E. done.
Qed.

Lemma find_no_child e t : Spec.no_child e t -> ET.find e t = None.
Proof.
  unfold Spec.no_child, ET.find.
  induction 1 as [|c l Hc _ IH]; cbn [List.find]; [done|].
  destruct (String.eqb (tag c) t) eqn:E; [|exact IH].
  apply String.eqb_eq in E. done.
Qed.

(** C5. Extraction never fails the document.  It returns, with the records
    and the warnings of all the candidates, in order: a dropped point stops
    nothing.  The candidates are the elements below the root that are path
    or marker points.  A candidate with no timestamp child, or whose first
    timestamp child has no text, leaves neither a record nor a warning; a
    candidate whose timestamp text does not parse leaves a warning that
    names the text and the document, and no record; the other candidates
    leave their records. *)
Theorem extraction_is_point_level self root file w :
  _extract_track_points self root file w
  = (Ok (mk_merger (track_points self
                    ++ omap (record_of file) (Spec.candidates root))
                   (metadata self)),
     Spec.with_stderr (omap (warning_of file) (Spec.candidates root)) w)
  /\ (forall pt, pt ∈ Spec.candidates root
                 <-> Spec.below root pt /\ Spec.gpx_point pt)
  /\ forall pt,
       (Spec.no_child pt (gpx "time") ->
        record_of file pt = None /\ warning_of file pt = None)
       /\ (forall te, Spec.first_child pt (gpx "time") te ->
             text te = None \/ text te = Some "" ->
             record_of file pt = None /\ warning_of file pt = None)
       /\ (forall te txt, Spec.first_child pt (gpx "time") te ->
             text te = Some txt -> txt <> "" ->
             fromisoformat (Str.replace "Z" "+00:00" txt) = None ->
             record_of file pt = None
             /\ warning_of file pt = Some (warning txt file)
             /\ Str.contains txt (warning txt file) = true
             /\ Str.contains file (warning txt file) = true)
       /\ (forall te txt ts, Spec.first_child pt (gpx "time") te ->
             text te = Some txt -> txt <> "" ->
             fromisoformat (Str.replace "Z" "+00:00" txt) = Some ts ->
             record_of file pt = Some (ts, pt, file)
             /\ warning_of file pt = None).
Proof.
  split; [apply _extract_track_points_spec|].
  split; [apply candidates_below|]. intros pt.
  unfold Spec.record_of, Spec.warning_of, Spec.timestamp_text,
    Spec.parse_timestamp.
  split; [by intros ->%find_no_child|].
  split; [by intros te ->%find_first_child [-> | ->]|].
  split.
  - intros te txt ->%find_first_child -> Hne Hp. destruct txt; [done|].
    cbn [Str.truthy]. rewrite Hp. by pose proof (warning_names (String a txt) file).
  - intros te txt ts ->%find_first_child -> Hne Hp. destruct txt; [done|].
    cbn [Str.truthy]. by rewrite Hp.
Qed.

(** C10. Extraction appends the records of the path points of the
    document, in document order, and then those of its marker points;
    and whatever is merged before and after, the sort leaves, at each
    instant, the path points of the document before its marker points. *)
Theorem path_points_before_marker_points self root file w :
  exists self' w',
    _extract_track_points self root file w = (Ok self', w')
    /\ track_points self'
       = track_points self
         ++ omap (record_of file) (Spec.path_points root)
         ++ omap (record_of file) (Spec.marker_points root)
    /\ forall later sorted w1 w2 t,
         sort_by_timestamp
           (mk_merger (track_points self' ++ later) (metadata self')) w1
         = (Ok sorted, w2) ->
         Spec.at_instant t (track_points sorted)
         = Spec.at_instant t (track_points self)
           ++ Spec.at_instant t (omap (record_of file) (Spec.path_points root))
           ++ Spec.at_instant t (omap (record_of file) (Spec.marker_points root))
           ++ Spec.at_instant t later.
Proof.
  eexists _, _. split; [apply _extract_track_points_spec|].
  cbn [track_points metadata]. unfold Spec.candidates. rewrite omap_app.
  split; [reflexivity|].
  intros later sorted w1 w2 t Hs.
  destruct (sort_by_timestamp_inv _ _ _ _ Hs) as [-> Hc].
  destruct (sort_by_timestamp_Ok _ w1 Hc) as (s' & Hs' & _ & _ & _ & Hf).
  rewrite Hs in Hs'. injection Hs' as <-.
  rewrite Hf. cbn [track_points]. unfold Spec.at_instant.
  rewrite !filter_app, <- !app_assoc. reflexivity.
Qed.

End Extraction.

(** ** Copies *)

Section Clone.
Import GPXMerger.

Lemma advance_0 w : Spec.advance 0 w = w.
Proof. destruct w. unfold Spec.advance. cbn. by rewrite Nat.add_0_r. Qed.

Lemma advance_advance j k w :
  Spec.advance k (Spec.advance j w) = Spec.advance (j + k) w.
Proof. unfold Spec.advance. cbn. by rewrite Nat.add_assoc. Qed.

Lemma new_Element_spec t a w :
  ET.new_Element t a w
  = (Ok (mkElement (next_id w) t (S (next_id w)) a None None []),
     Spec.advance 2 w).
Proof.
  unfold ET.new_Element, bind, fresh, ret, Spec.advance. cbn.
  do 3 f_equal. lia.
Qed.

Lemma with_children_nil e : Spec.with_children e [] = e.
Proof. destruct e. cbn. by rewrite app_nil_r. Qed.

Lemma with_children_append e c cs :
  Spec.with_children (ET.append e c) cs = Spec.with_children e (c :: cs).
Proof. destruct e. cbn. by rewrite <- app_assoc. Qed.

Lemma clone_loop {A} (g : A -> Element) (f : A -> M Element) (l : list A) :
  Forall (fun x => forall w, exists c,
            f x w = (Ok c, Spec.advance (length (objects (g x))) w)
            /\ Spec.copy_of (g x) w c) l ->
  forall acc w, exists cs,
    for_each (fun clone x => c <- f x ;; ret (ET.append clone c))%py l acc w
    = (Ok (Spec.with_children acc cs),
       Spec.advance (length (concat (map (fun x => objects (g x)) l))) w)
    /\ map content_of cs = map (fun x => content_of (g x)) l
    /\ concat (map objects cs)
       = seq (next_id w) (length (concat (map (fun x => objects (g x)) l))).
Proof.
  induction 1 as [|x l Hx _ IH]; intros acc w.
  - exists []. cbn. by rewrite with_children_nil, advance_0.
  - destruct (Hx w) as (c & Hc & Hcont & Hobj).
    destruct (IH (ET.append acc c) (Spec.advance (length (objects (g x))) w))
      as (cs & Hcs & Hconts & Hobjs).
    exists (c :: cs). cbn [for_each map concat].
    erewrite bind_Ok; [|erewrite bind_Ok by exact Hc; reflexivity].
    rewrite Hcs, with_children_append, advance_advance, length_app.
    split; [reflexivity|]. split; [by rewrite Hcont, Hconts|].
    rewrite Hobj, Hobjs. cbn [Spec.advance next_id].
    by rewrite <- seq_app.
Qed.

Lemma _clone_element_spec elem w :
  exists clone,
    _clone_element elem w
    = (Ok clone, Spec.advance (length (objects elem)) w)
    /\ Spec.copy_of elem w clone.
Proof.
  revert w. induction elem as [i t d a tx tl ch IH] using Element_ind'.
  intros w. cbn [_clone_element].
  destruct (clone_loop id _clone_element ch IH
              (ET.set_tail (ET.set_text
                 (mkElement (next_id w) t (S (next_id w)) a None None []) tx) tl)
              (Spec.advance 2 w))
    as (cs & Hcs & Hconts & Hobjs).
  eexists. erewrite bind_Ok by apply new_Element_spec.
  rewrite Hcs, advance_advance. cbn [objects length].
  split; [reflexivity|]. split.
  - cbn. by rewrite Hconts.
  - cbn [ET.set_tail ET.set_text Spec.with_children objects app].
    rewrite Hobjs. cbn [Spec.advance next_id seq].
    by rewrite Nat.add_succ_r, Nat.add_succ_r, Nat.add_0_r.
Qed.

(** The document that is written: the skeleton, and in its segment one
    copy per record, in the order of the collection. *)
Lemma build_document_spec self w :
  exists cs,
    build_document self w
    = (Ok (Spec.document (next_id w) (Spec.output_name self)
             (Spec.output_desc self) (utcnow w) cs),
       Spec.advance (16 + length (Spec.objects_of (track_points self))) w)
    /\ map content_of cs = map (fun p => content_of (point_elem p)) (track_points self)
    /\ concat (map objects cs)
       = seq (next_id w + 16) (length (Spec.objects_of (track_points self))).
Proof.
  unfold build_document.
  repeat (erewrite bind_Ok by first [apply new_Element_spec | reflexivity]).
  cbv zeta. rewrite !advance_advance. cbn [Nat.add].
  match goal with
  | |- context [bind (for_each _ _ ?seg) _ ?w0] =>
      destruct (clone_loop point_elem (fun p => _clone_element (point_elem p))
                  (track_points self)
                  ltac:(apply Forall_forall; intros p _ w1;
                        apply _clone_element_spec) seg w0)
        as (cs & Hcs & Hconts & Hobjs)
  end.
  exists cs. erewrite bind_Ok by exact Hcs.
  rewrite advance_advance. split; [|split; [exact Hconts|exact Hobjs]].
  unfold ret. f_equal.
Qed.

Lemma map_eq_Forall2 {A B C} (f : A -> C) (g : B -> C) l k :
  map f k = map g l -> Forall2 (fun x y => f y = g x) l k.
Proof.
  revert k. induction l as [|x l IH]; intros [|y k] H; try discriminate.
  - constructor.
  - injection H as H1 H2. constructor; auto.
Qed.

(** C2. Every point of the output document has the content of the element
    it was copied from (tag, attributes, text, tail and the whole tree
    below, whatever its elements are), record by record in the order of the
    collection, and is made of objects of its own: it has no object in
    common with any element of the collection. *)
Theorem copies_are_equivalent_and_independent (self : merger) (w : world) :
  Spec.allocated w (track_points self) ->
  exists doc w',
    build_document self w = (Ok doc, w')
    /\ Forall2 (fun p c => content_of c = content_of (point_elem p))
               (track_points self) (Spec.output_points doc)
    /\ forall c q, c ∈ Spec.output_points doc -> q ∈ track_points self ->
                   Spec.independent c (point_elem q).
Proof.
  intros Hall.
  destruct (build_document_spec self w) as (cs & Hb & Hconts & Hobjs).
  eexists _, _. split; [exact Hb|].
  change (Spec.output_points (Spec.document _ _ _ _ cs)) with cs.
  split; [by apply map_eq_Forall2|].
  intros c q Hc Hq i Hi Hiq.
  assert (Hfresh : next_id w + 16 <= i).
  { assert (i ∈ concat (map objects cs)) as Hin.
    { apply elem_of_concat. exists (objects c). split; [done|].
      by apply (list_elem_of_fmap_2 objects). }
    rewrite Hobjs in Hin. apply elem_of_seq in Hin. lia. }
  unfold Spec.allocated in Hall. rewrite Forall_forall in Hall.
  specialize (Hall q Hq). rewrite Forall_forall in Hall.
  specialize (Hall i Hiq). lia.
Qed.

Lemma copies_are_equivalent_and_independent_witness :
  Spec.allocated Examples.empty_world (track_points Examples.three_points)
  /\ exists doc w',
       build_document Examples.three_points Examples.empty_world = (Ok doc, w')
       /\ Forall2 (fun p c => content_of c = content_of (point_elem p))
                  (track_points Examples.three_points) (Spec.output_points doc)
       /\ forall c q, c ∈ Spec.output_points doc ->
                      q ∈ track_points Examples.three_points ->
                      Spec.independent c (point_elem q).
Proof.
  assert (H : Spec.allocated Examples.empty_world
                (track_points Examples.three_points)).
  { repeat (constructor; [repeat (constructor; [cbn; lia|]); constructor|]).
    constructor. }
  split; [exact H|].
  exact (copies_are_equivalent_and_independent
           Examples.three_points Examples.empty_world H).
Defined.

End Clone.

(** ** Parsing *)

Section Parse.

Lemma advance_fs k w : fs (Spec.advance k w) = fs w.
Proof. reflexivity. Qed.

(** The tree builder on the children: it stops at the first error. *)
Lemma build_loop env (kids : list markup) :
  Forall (fun m => forall w,
            match Spec.check env m with
            | Some msg =>
                exists k, ET.build env m w
                          = (Raise (ParseError msg), Spec.advance k w)
            | None =>
                exists e, ET.build env m w
                          = (Ok e, Spec.advance (length (objects e)) w)
                          /\ objects e = seq (next_id w) (length (objects e))
            end) kids ->
  forall acc w,
    match Spec.first_error (Spec.check env) kids with
    | Some msg =>
        exists k,
          for_each (fun elem k => c <- ET.build env k ;; ret (ET.append elem c))%py
                   kids acc w
          = (Raise (ParseError msg), Spec.advance k w)
    | None =>
        exists cs,
          for_each (fun elem k => c <- ET.build env k ;; ret (ET.append elem c))%py
                   kids acc w
          = (Ok (Spec.with_children acc cs),
             Spec.advance (length (concat (map objects cs))) w)
          /\ concat (map objects cs)
             = seq (next_id w) (length (concat (map objects cs)))
    end.
Proof.
  induction 1 as [|m kids Hm _ IH]; intros acc w.
  - exists []. cbn. by rewrite with_children_nil, advance_0.
  - cbn [Spec.first_error for_each]. specialize (Hm w).
    destruct (Spec.check env m) as [msg|].
    + destruct Hm as (k & Hk). exists k.
      erewrite bind_Raise; [reflexivity|]. by erewrite bind_Raise.
    + destruct Hm as (e & He & Hobj).
      specialize (IH (ET.append acc e) (Spec.advance (length (objects e)) w)).
      destruct (Spec.first_error (Spec.check env) kids) as [msg|].
      * destruct IH as (k & Hk). exists (length (objects e) + k).
        erewrite bind_Ok; [|erewrite bind_Ok by exact He; reflexivity].
        by rewrite Hk, advance_advance.
      * destruct IH as (cs & Hcs & Hobjs). exists (e :: cs).
        erewrite bind_Ok; [|erewrite bind_Ok by exact He; reflexivity].
        rewrite Hcs, with_children_append, advance_advance.
        cbn [map concat]. rewrite length_app. split; [reflexivity|].
        rewrite Hobj at 1. rewrite Hobjs at 1. cbn [Spec.advance next_id].
        by rewrite <- seq_app.
Qed.

(** The parser reports the error [check] finds, and otherwise returns an
    element made of new objects; it touches nothing but the supply of
    identities. *)
Lemma build_check env m w :
  match Spec.check env m with
  | Some msg =>
      exists k, ET.build env m w = (Raise (ParseError msg), Spec.advance k w)
  | None =>
      exists e, ET.build env m w = (Ok e, Spec.advance (length (objects e)) w)
                /\ objects e = seq (next_id w) (length (objects e))
  end.
Proof.
  revert env w. induction m as [name attrs tx kids tl IH] using markup_ind'.
  intros env w. cbn [Spec.check ET.build].
  destruct (ET.start_tag env name attrs) as [msg|[[env' t] a]].
  { exists 0. by rewrite advance_0. }
  erewrite bind_Ok by apply new_Element_spec.
  match goal with
  | |- context [for_each _ _ ?acc ?w0] =>
      pose proof (build_loop env' kids
                    ltac:(eapply Forall_impl; [exact IH|];
                          intros m Hm w1; apply Hm) acc w0) as Hloop
  end.
  destruct (Spec.first_error _ kids) as [msg|].
  - destruct Hloop as (k & ->). exists (2 + k). by rewrite advance_advance.
  - destruct Hloop as (cs & -> & Hobjs). rewrite advance_advance.
    cbn [ET.set_tail ET.set_text Spec.with_children app].
    eexists (mkElement _ _ _ _ _ _ _). split; [reflexivity|].
    cbn [objects length]. rewrite Hobjs at 1. cbn [Spec.advance next_id seq].
    by rewrite Nat.add_succ_r, Nat.add_succ_r, Nat.add_0_r.
Qed.

End Parse.

(** ** One document *)

Section ParseFile.
Import GPXMerger.
Variable fromisoformat : string -> option Datetime.datetime.

Local Abbreviation parse_gpx_file := (GPXMerger.parse_gpx_file fromisoformat).
Local Abbreviation process_file := (GPXMerger.process_file fromisoformat).
Local Abbreviation absorb := (Spec.absorb fromisoformat).
Local Abbreviation warning_of := (Spec.warning_of fromisoformat).

Lemma parse_check path w c :
  fs w !! path = Some c ->
  match Spec.parse_error c with
  | Some msg =>
      exists k, ET.parse path w = (Raise (ParseError msg), Spec.advance k w)
  | None =>
      exists root,
        ET.parse path w = (Ok root, Spec.advance (length (objects root)) w)
        /\ objects root = seq (next_id w) (length (objects root))
  end.
Proof.
  intros Hc. unfold ET.parse, bind, read_file. rewrite Hc.
  destruct c as [e|m]; cbn [Spec.parse_error].
  - exists 0. by rewrite advance_0.
  - apply build_check.
Qed.

Lemma _extract_metadata_track_points self root :
  track_points (_extract_metadata self root) = track_points self.
Proof.
  unfold _extract_metadata. by destruct (ET.find root (gpx "metadata")).
Qed.

(** [parse_gpx_file], case by case: the file is missing, or its document is
    not well-formed, or the merger takes the document in. *)
Lemma parse_gpx_file_spec self f w :
  match fs w !! f with
  | None =>
      parse_gpx_file self f w
      = (Raise (FileNotFoundError ("GPX file not found: " +:+ f)), w)
  | Some c =>
      match Spec.parse_error c with
      | Some msg =>
          exists k,
            parse_gpx_file self f w
            = (Raise (ParseError ("Invalid GPX file '" +:+ f +:+ "': " +:+ msg)),
               Spec.advance k w)
      | None =>
          exists root,
            ET.parse f w = (Ok root, Spec.advance (length (objects root)) w)
            /\ objects root = seq (next_id w) (length (objects root))
            /\ parse_gpx_file self f w
               = (Ok (absorb f self root),
                  Spec.with_stderr (omap (warning_of f) (Spec.candidates root))
                    (Spec.advance (length (objects root)) w))
      end
  end.
Proof.
  unfold GPXMerger.parse_gpx_file.
  erewrite bind_Ok by (unfold read_file; reflexivity).
  destruct (fs w !! f) as [c|] eqn:Hc; [|reflexivity].
  pose proof (parse_check f w c Hc) as Hp. unfold try_except.
  destruct (Spec.parse_error c) as [msg|].
  - destruct Hp as (k & Hk). exists k. by erewrite bind_Raise by exact Hk.
  - destruct Hp as (root & Hr & Hobj). exists root.
    split; [done|]. split; [done|].
    erewrite bind_Ok by exact Hr. cbv zeta.
    rewrite _extract_track_points_spec. unfold Spec.absorb.
    destruct (bool_decide (metadata self = ∅));
      by rewrite ?_extract_metadata_track_points.
Qed.

(** One turn of the loop of [main]: on a missing or malformed file the
    error is printed and the run ends with status 1; nothing is written. *)
Lemma process_file_spec self f w :
  exists w',
    match fs w !! f with
    | None =>
        process_file self f w = (Raise (SystemExit 1), w')
        /\ last (stderr w') = Some ("Error: GPX file not found: " +:+ f)
    | Some c =>
        match Spec.parse_error c with
        | Some msg =>
            process_file self f w = (Raise (SystemExit 1), w')
            /\ last (stderr w') = Some (Spec.invalid_file_error f msg)
        | None =>
            exists root,
              process_file self f w = (Ok (absorb f self root), w')
              /\ Forall (fun i => next_id w <= i < next_id w') (objects root)
        end
    end
    /\ fs w' = fs w /\ utcnow w' = utcnow w /\ next_id w <= next_id w'.
Proof.
  unfold GPXMerger.process_file, try_except.
  erewrite bind_Ok by (unfold print; reflexivity).
  set (w1 := mk_world (next_id w) (fs w) (stdout w ++ _) (stderr w) (utcnow w)
                      (openable w) (stdout_unicode w)).
  pose proof (parse_gpx_file_spec self f w1) as Hp.
  change (fs w1) with (fs w) in Hp.
  destruct (fs w !! f) as [c|].
  - destruct (Spec.parse_error c) as [msg|].
    + destruct Hp as (k & ->). cbn [str_exn].
      eexists. split; [split; [reflexivity|]|].
      * cbn. by rewrite last_snoc.
      * cbn. repeat split. lia.
    + destruct Hp as (root & Hr & Hobj & ->).
      eexists. split; [exists root; split; [reflexivity|]|].
      * rewrite Hobj. apply Forall_forall. intros i Hi%elem_of_seq.
        subst w1. unfold Spec.with_stderr, Spec.advance.
        cbn [next_id] in *. rewrite length_seq. lia.
      * cbn. repeat split. lia.
  - rewrite Hp. cbn [str_exn].
    eexists. split; [split; [reflexivity|]|].
    + cbn. by rewrite last_snoc.
    + cbn. repeat split. lia.
Qed.

End ParseFile.

(** ** The run *)

Section Run.
Import GPXMerger.
Variable fromisoformat : string -> option Datetime.datetime.

Local Abbreviation process_file := (GPXMerger.process_file fromisoformat).
Local Abbreviation main := (GPXMerger.main fromisoformat).
Local Abbreviation run := (GPXMerger.run fromisoformat).

Lemma readable_same_files w w' f :
  fs w' = fs w -> Spec.readable w f -> Spec.readable w' f.
Proof. unfold Spec.readable. by intros ->. Qed.

Lemma malformed_same_files w w' f msg :
  fs w' = fs w -> Spec.malformed w f msg -> Spec.malformed w' f msg.
Proof. unfold Spec.malformed. by intros ->. Qed.

(** The listing of the files found prints, and does nothing else. *)
Lemma print_files (files : list string) w :
  exists w',
    for_each (fun (_ : unit) f => print ("  - " +:+ f)) files tt w = (Ok tt, w')
    /\ fs w' = fs w /\ stderr w' = stderr w /\ utcnow w' = utcnow w
    /\ next_id w' = next_id w.
Proof.
  revert w. induction files as [|f files IH]; intros w; cbn [for_each].
  - by exists w.
  - erewrite bind_Ok by (unfold print; reflexivity).
    destruct (IH (mk_world (next_id w) (fs w) (stdout w ++ ["  - " +:+ f])
                    (stderr w) (utcnow w) (openable w) (stdout_unicode w)))
      as (w' & -> & ? & ? & ? & ?).
    by exists w'.
Qed.

(** While the documents are well-formed, the loop goes on and writes
    nothing. *)
Lemma loop_readable files self w :
  Forall (Spec.readable w) files ->
  exists self' w',
    for_each process_file files self w = (Ok self', w')
    /\ fs w' = fs w /\ utcnow w' = utcnow w /\ next_id w <= next_id w'.
Proof.
  revert self w. induction files as [|f files IH]; intros self w Hall.
  - exists self, w. by cbn.
  - apply Forall_cons in Hall as [(c & Hc & Hok) Hall].
    destruct (process_file_spec fromisoformat self f w) as (w1 & Hf & Hfs & Hnow & Hid).
    rewrite Hc, Hok in Hf. destruct Hf as (root & Hf & _).
    destruct (IH (Spec.absorb fromisoformat f self root) w1)
      as (self' & w' & Hl & Hfs' & Hnow' & Hid').
    { eapply Forall_impl; [exact Hall|]. intros g. by apply readable_same_files. }
    exists self', w'. cbn [for_each]. erewrite bind_Ok by exact Hf.
    repeat split; [done|congruence|congruence|lia].
Qed.

(** At the first document that is not well-formed the loop ends the run:
    the error that names the document is printed, and the status is 1. *)
Lemma loop_malformed pre f post msg self w :
  Forall (Spec.readable w) pre -> Spec.malformed w f msg ->
  exists w',
    for_each process_file (pre ++ f :: post) self w = (Raise (SystemExit 1), w')
    /\ fs w' = fs w
    /\ last (stderr w') = Some (Spec.invalid_file_error f msg).
Proof.
  intros Hpre (c & Hc & Hbad).
  destruct (loop_readable pre self w Hpre) as (self1 & w1 & Hl & Hfs & _ & _).
  destruct (process_file_spec fromisoformat self1 f w1) as (w' & Hf & Hfs' & _ & _).
  rewrite Hfs, Hc, Hbad in Hf. destruct Hf as (Hf & Hlast).
  exists w'. rewrite for_each_app. erewrite bind_Ok by exact Hl.
  cbn [for_each]. erewrite bind_Raise by exact Hf.
  repeat split; [congruence|done].
Qed.

(** Among files that exist, the first whose document is not well-formed
    comes after well-formed ones only. *)
Lemma first_malformed w (files : list string) :
  Forall (fun f => is_Some (fs w !! f)) files ->
  Exists (fun f => exists msg, Spec.malformed w f msg) files ->
  exists pre f post msg,
    files = pre ++ f :: post
    /\ Forall (Spec.readable w) pre /\ Spec.malformed w f msg.
Proof.
  induction files as [|g files IH]; intros Hex Hbad.
  - by apply Exists_nil in Hbad.
  - apply Forall_cons in Hex as [[c Hc] Hex].
    destruct (Spec.parse_error c) as [msg|] eqn:Hp.
    + exists [], g, files, msg. split; [done|]. split; [constructor|].
      by exists c.
    + assert (Hg : Spec.readable w g) by by exists c.
      apply Exists_cons in Hbad as [(msg & c' & Hc' & Hp')|Hbad]; [congruence|].
      destruct (IH Hex Hbad) as (pre & f & post & msg & -> & Hpre & Hf).
      exists (g :: pre), f, post, msg. split; [done|]. split; [|done].
      by constructor.
Qed.

(** The run on files of which the first that is not well-formed is [f]. *)
Lemma main_first_malformed pre f post msg output w :
  Forall (Spec.readable w) pre -> Spec.malformed w f msg ->
  exists w',
    main (pre ++ f :: post) output w = (Raise (SystemExit 1), w')
    /\ fs w' = fs w
    /\ last (stderr w') = Some (Spec.invalid_file_error f msg).
Proof.
  intros Hpre Hf. unfold GPXMerger.main.
  destruct (pre ++ f :: post) as [|g rest] eqn:Hin; [by destruct pre|].
  rewrite <- Hin.
  erewrite bind_Ok by (unfold print; reflexivity).
  match goal with
  | |- context [bind (for_each _ (pre ++ f :: post) tt) _ ?w0] =>
      destruct (print_files (pre ++ f :: post) w0) as (w1 & Hp & Hfs1 & _ & _ & _)
  end.
  erewrite bind_Ok by exact Hp. cbn [fs] in Hfs1.
  destruct (loop_malformed pre f post msg __init__ w1)
    as (w' & Hl & Hfs' & Hlast).
  { eapply Forall_impl; [exact Hpre|]. intros h. by apply readable_same_files. }
  { by apply (malformed_same_files w). }
  exists w'. erewrite bind_Raise by exact Hl.
  repeat split; [congruence|done].
Qed.

(** C4. When a document among the input files is not well-formed, the run
    ends with status 1 and no file has been written or changed; the last
    line of the diagnostic stream is the error of the parser for the first
    such document, and names its file.  The loop stops there: nothing of
    that document, and no later document, is read. *)
Theorem malformed_document_aborts_run (input_files : list string)
    (output : string) (w : world) :
  Forall (fun f => is_Some (fs w !! f)) input_files ->
  Exists (fun f => exists msg, Spec.malformed w f msg) input_files ->
  exists f msg w',
    f ∈ input_files /\ Spec.malformed w f msg
    /\ run input_files output w = (1%Z, w')
    /\ fs w' = fs w
    /\ last (stderr w') = Some (Spec.invalid_file_error f msg)
    /\ Str.contains f (Spec.invalid_file_error f msg) = true.
Proof.
  intros Hex Hbad.
  destruct (first_malformed w input_files Hex Hbad)
    as (pre & f & post & msg & -> & Hpre & Hf).
  destruct (main_first_malformed pre f post msg output w Hpre Hf)
    as (w' & Hm & Hfs & Hlast).
  exists f, msg, w'.
  split; [apply elem_of_app; right; apply elem_of_cons; auto|].
  split; [done|]. unfold GPXMerger.run. rewrite Hm. cbn [exit_status].
  repeat split; [done..|].
  unfold Spec.invalid_file_error. apply contains_app_r, contains_prefix.
Qed.

End Run.

(** ** Metadata *)

Section Metadata.
Import GPXMerger.
Variable fromisoformat : string -> option Datetime.datetime.

Local Abbreviation parse_gpx_file := (GPXMerger.parse_gpx_file fromisoformat).

Lemma parse_gpx_file_Ok_inv self f w self' w' :
  parse_gpx_file self f w = (Ok self', w') ->
  exists root w0,
    ET.parse f w = (Ok root, w0)
    /\ self' = Spec.absorb fromisoformat f self root.
Proof.
  intros H. pose proof (parse_gpx_file_spec fromisoformat self f w) as Hs.
  destruct (fs w !! f) as [c|]; [|congruence].
  destruct (Spec.parse_error c) as [msg|].
  - destruct Hs as (k & Hk). congruence.
  - destruct Hs as (root & Hr & _ & Hp). exists root. eexists.
    split; [exact Hr|]. congruence.
Qed.

(** Metadata that has been captured stays as it is. *)
Lemma metadata_captured_once self f w self' w' :
  metadata self <> ∅ ->
  parse_gpx_file self f w = (Ok self', w') ->
  metadata self' = metadata self.
Proof.
  intros Hne H. apply parse_gpx_file_Ok_inv in H as (root & w0 & _ & ->).
  unfold Spec.absorb. cbn [metadata].
  by rewrite bool_decide_eq_false_2.
Qed.

(** From a merger with no metadata, the fields a document supplies are
    captured, and nothing else. *)
Lemma _extract_metadata_supplied self root field :
  field = "name" \/ field = "desc" ->
  metadata self = ∅ ->
  metadata (_extract_metadata self root) !! field = Spec.supplied root field.
Proof.
  intros Hf He. unfold _extract_metadata, Spec.supplied.
  destruct (ET.find root (gpx "metadata")) as [md|];
    [|by rewrite He, lookup_empty].
  cbn [metadata]. rewrite He.
  destruct Hf as [-> | ->];
    destruct (ET.find md (gpx "name")), (ET.find md (gpx "desc"));
    by simplify_map_eq.
Qed.


End Metadata.

(** ** The namespace of the output *)

Section Namespace.
Import GPXMerger.
Variable fromisoformat : string -> option Datetime.datetime.

Local Abbreviation process_file := (GPXMerger.process_file fromisoformat).

Lemma process_file_Ok_inv self f w self' w' :
  process_file self f w = (Ok self', w') ->
  exists root,
    self' = Spec.absorb fromisoformat f self root
    /\ Forall (fun i => next_id w <= i < next_id w') (objects root)
    /\ next_id w <= next_id w'.
Proof.
  intros H.
  destruct (process_file_spec fromisoformat self f w) as (w1 & Hs & _ & _ & Hid).
  destruct (fs w !! f) as [c|]; [destruct (Spec.parse_error c)|].
  - destruct Hs as [Hs _]. congruence.
  - destruct Hs as (root & Hs & Hobj). rewrite H in Hs. injection Hs as -> ->.
    by exists root.
  - destruct Hs as [Hs _]. congruence.
Qed.

(** The records of a document are made of its path and marker points. *)
Lemma record_of_candidate file root p :
  p ∈ omap (Spec.record_of fromisoformat file) (Spec.candidates root) ->
  Spec.gpx_point (point_elem p) /\ point_elem p ∈ ET.descendants root.
Proof.
  intros (e & He & Hp)%list_elem_of_omap.
  unfold Spec.record_of in Hp.
  destruct (Spec.timestamp_text e); [|discriminate].
  destruct (Spec.parse_timestamp _ _); [|discriminate].
  injection Hp as <-. cbn [point_elem fst snd].
  unfold Spec.candidates, Spec.path_points, Spec.marker_points,
    ET.findall_descendants in He.
  apply elem_of_app in He as [He|He];
    apply list_elem_of_filter in He as [Ht He];
    (split; [|done]); [by left|by right].
Qed.

Lemma loop_gpx_points files self w self' w' :
  for_each process_file files self w = (Ok self', w') ->
  Forall (fun p => Spec.gpx_point (point_elem p)) (track_points self) ->
  Forall (fun p => Spec.gpx_point (point_elem p)) (track_points self').
Proof.
  revert self w. induction files as [|f files IH]; intros self w H Hall.
  - cbn in H. by injection H as <- _.
  - cbn [for_each] in H. apply bind_inv_Ok in H as (s1 & w1 & Hf & Hl).
    apply process_file_Ok_inv in Hf as (root & -> & _).
    apply (IH _ _ Hl). unfold Spec.absorb. cbn [track_points].
    apply Forall_app. split; [done|].
    apply Forall_forall. intros p Hp. by apply record_of_candidate in Hp as [? _].
Qed.

Lemma sort_by_timestamp_Forall (P : point -> Prop) self sorted w w' :
  sort_by_timestamp self w = (Ok sorted, w') ->
  Forall P (track_points self) -> Forall P (track_points sorted).
Proof.
  unfold sort_by_timestamp.
  destruct (Builtins.sort _ _ _) as [l|] eqn:Hs; [|discriminate].
  intros [= <- _]. cbn [track_points]. rewrite !Forall_forall.
  intros H p Hp. apply H. by apply (sort_elem_of _ _ _ _ Hs).
Qed.

Lemma content_of_tag c e : content_of c = content_of e -> tag c = tag e.
Proof. destruct c, e. cbn. by intros [= -> _]. Qed.

End Namespace.

(** ** The written file *)

Section Serialise.
Import GPXMerger Builtins.

Lemma dict_get_app {V} k (d1 d2 : list (string * V)) :
  dict_get k (d1 ++ d2)
  = match dict_get k d1 with
    | Some v => Some v
    | None => dict_get k d2
    end.
Proof.
  induction d1 as [|[k' v'] d1 IH]; [done|]. cbn [app dict_get].
  by destruct (String.eqb k k').
Qed.

Lemma dict_get_elem_of {V} k (v : V) d : dict_get k d = Some v -> (k, v) ∈ d.
Proof.
  induction d as [|[k' v'] d IH]; [done|]. cbn [dict_get].
  destruct (String.eqb_spec k k') as [->|Hne].
  - intros [= ->]. apply elem_of_cons; auto.
  - intros H. apply elem_of_cons; auto.
Qed.

Lemma add_qname_inv qn st st' :
  ET.add_qname registry qn st = Some st' ->
  Spec.tables_inv st ->
  Spec.tables_inv st'
  /\ is_Some (fst st' !! qn)
  /\ (forall k, is_Some (fst st !! k) -> is_Some (fst st' !! k)).
Proof.
  destruct st as [qnames ns]. unfold ET.add_qname.
  intros H (K & J & Q). cbn [fst snd] in *.
  destruct (Str.after_brace qn) as [rest|] eqn:Hb.
  - destruct (Str.rsplit1 "}" rest) as [[uri local]|] eqn:Hr; [|discriminate].
    assert (Hx : qn <> "xmlns") by (intros ->; discriminate).
    destruct (dict_get uri ns) as [p|] eqn:Hu.
    + injection H as <-. unfold Spec.tables_inv. cbn [fst snd]. split; [split; [done|split]|split].
      * intros qn0 Hq0 Hs.
        destruct (decide (qn = qn0)) as [->|Hne].
        -- assert (uri = GPX_NAMESPACE) as ->.
           { destruct Hq0 as [-> | ->]; vm_compute in Hb; injection Hb as <-;
               vm_compute in Hr; by injection Hr as <- _. }
           by rewrite (K _ Hu) in Hu.
        -- rewrite lookup_insert_ne in Hs by done. exact (J qn0 Hq0 Hs).
      * intros v. rewrite lookup_insert_ne by done. apply Q.
      * rewrite lookup_insert_eq. eauto.
      * intros k Hk. destruct (decide (qn = k)) as [->|Hne];
          [rewrite lookup_insert_eq; eauto|by rewrite lookup_insert_ne].
    + set (p := match dict_get uri registry with
                | Some p => p
                | None => "ns" +:+ Str.of_nat (length ns)
                end) in *.
      assert (Hgpx : uri = GPX_NAMESPACE -> p = "").
      { intros ->. reflexivity. }
      assert (Hns : forall ns', ns' = (if String.eqb p "xml" then ns else ns ++ [(uri, p)]) ->
                (forall q, dict_get GPX_NAMESPACE ns' = Some q -> q = "")
                /\ (dict_get GPX_NAMESPACE ns = Some "" -> dict_get GPX_NAMESPACE ns' = Some "")
                /\ (uri = GPX_NAMESPACE -> dict_get GPX_NAMESPACE ns' = Some "")).
      { intros ns' ->. destruct (String.eqb_spec p "xml") as [Hp|Hp].
        - split; [done|]. split; [done|]. intros Hu'. apply Hgpx in Hu'. congruence.
        - rewrite dict_get_app. cbn [dict_get].
          destruct (dict_get GPX_NAMESPACE ns) as [q|] eqn:Hq.
          + split; [intros ? [= <-]; by apply K|]. split; [done|].
            intros ->. congruence.
          + destruct (String.eqb_spec GPX_NAMESPACE uri) as [<-|Hne].
            * rewrite (Hgpx eq_refl). split; [by intros ? [= <-]|]. done.
            * split; [done|]. split; [done|]. intros ->. done. }
      injection H as <-. unfold Spec.tables_inv. cbn [fst snd].
      destruct (Hns _ eq_refl) as (K' & Hkeep & Hnew).
      split; [split; [done|split]|split].
      * intros qn0 Hq0 Hs.
        destruct (decide (qn = qn0)) as [->|Hne].
        -- apply Hnew.
           destruct Hq0 as [-> | ->]; vm_compute in Hb; injection Hb as <-;
             vm_compute in Hr; by injection Hr as <- _.
        -- rewrite lookup_insert_ne in Hs by done. exact (Hkeep (J qn0 Hq0 Hs)).
      * intros v. rewrite lookup_insert_ne by done. apply Q.
      * rewrite lookup_insert_eq. eauto.
      * intros k Hk. destruct (decide (qn = k)) as [->|Hne];
          [rewrite lookup_insert_eq; eauto|by rewrite lookup_insert_ne].
  - injection H as <-. unfold Spec.tables_inv. cbn [fst snd]. split; [split; [done|split]|split].
    + intros qn0 Hq0 Hs. apply (J qn0 Hq0).
      rewrite lookup_insert_ne in Hs; [done|].
      intros ->. by destruct Hq0 as [-> | ->].
    + intros v. destruct (decide (qn = "xmlns")) as [->|Hne].
      * rewrite lookup_insert_eq. by intros [= <-].
      * rewrite lookup_insert_ne by done. apply Q.
    + rewrite lookup_insert_eq. eauto.
    + intros k Hk. destruct (decide (qn = k)) as [->|Hne];
        [rewrite lookup_insert_eq; eauto|by rewrite lookup_insert_ne].
Qed.

Lemma add_all_inv qns st st' :
  ET.add_all registry qns st = Some st' ->
  Spec.tables_inv st ->
  Spec.tables_inv st'
  /\ (forall qn, qn ∈ qns -> is_Some (fst st' !! qn))
  /\ (forall k, is_Some (fst st !! k) -> is_Some (fst st' !! k)).
Proof.
  revert st. induction qns as [|qn qns IH]; intros st H Hinv.
  - injection H as <-. split; [done|]. split; [|done].
    intros qn Hq. by apply elem_of_nil in Hq.
  - cbn [ET.add_all] in H. unfold ET.add_if_new in H.
    destruct (fst st !! qn) as [v|] eqn:Hq.
    + destruct (IH st H Hinv) as (Hinv' & Hall & Hmono).
      split; [done|]. split; [|done].
      intros k [->|Hk]%elem_of_cons; [|auto]. apply Hmono. by rewrite Hq.
    + destruct (ET.add_qname registry qn st) as [st1|] eqn:Ha; [|discriminate].
      destruct (add_qname_inv qn st st1 Ha Hinv) as (Hinv1 & Hnew & Hmono1).
      destruct (IH st1 H Hinv1) as (Hinv' & Hall & Hmono).
      split; [done|]. split; [|by auto].
      intros k [->|Hk]%elem_of_cons; auto.
Qed.

(** A sort whose comparison always answers returns, and what it returns
    holds the elements of the list. *)
Lemma sort_str_lt {A} (key : A -> string) l :
  exists s, sort ET.str_lt key l = Some s /\ forall z, z ∈ l <-> z ∈ s.
Proof.
  assert (Hins : forall x s, exists s', insert ET.str_lt key x s = Some s').
  { intros x s. induction s as [|y s [s' IH]]; [by eexists|].
    cbn [insert]. unfold ET.str_lt at 1. destruct (String.ltb _ _); [|by eexists].
    rewrite IH. by eexists. }
  induction l as [|x l (s & Hs & _)].
  - by exists [].
  - cbn [sort]. rewrite Hs. destruct (Hins x s) as [s' Hs'].
    exists s'. split; [done|]. apply (sort_elem_of ET.str_lt key).
    cbn [sort]. by rewrite Hs.
Qed.

(** Once a point is in the tree, the root start tag declares the namespace
    of the format. *)
Lemma declarations_xmlns ns :
  dict_get GPX_NAMESPACE ns = Some "" ->
  ("xmlns", GPX_NAMESPACE) ∈ ET.declarations ns.
Proof.
  intros H%dict_get_elem_of. unfold ET.declarations.
  destruct (sort_str_lt snd ns) as (s & -> & Hs). cbn [from_option id].
  apply (list_elem_of_fmap_2' _ s (GPX_NAMESPACE, "")); [by apply Hs|done].
Qed.

(** A start tag the parser takes has no attribute name twice. *)
Lemma declare_all_NoDup seen attrs env env' :
  ET.declare_all seen attrs env = inr env' ->
  NoDup (map fst attrs) /\ forall k, k ∈ map fst attrs -> k ∉ seen.
Proof.
  revert seen env. induction attrs as [|kv attrs IH]; intros seen env H.
  - split; [constructor|]. intros k Hk. by apply elem_of_nil in Hk.
  - cbn [ET.declare_all] in H. case_bool_decide as Hseen; [discriminate|].
    destruct (ET.declare env kv) as [e|env1]; [discriminate|].
    destruct (IH _ _ H) as [Hnd Hnew]. cbn [map]. split.
    + constructor; [|done]. intros Hin. apply (Hnew _ Hin).
      apply elem_of_cons. by left.
    + intros k [->|Hk]%elem_of_cons; [done|].
      intros Hs. apply (Hnew _ Hk). apply elem_of_cons. by right.
Qed.

Lemma start_tag_NoDup env name attrs r :
  ET.start_tag env name attrs = inr r -> NoDup (map fst attrs).
Proof.
  unfold ET.start_tag. destruct (negb _); [discriminate|].
  destruct (ET.declare_all [] attrs env) as [e|env'] eqn:Hd; [discriminate|].
  intros _. by apply declare_all_NoDup in Hd as [? _].
Qed.

(** The file [merge_to_file] writes is never a well-formed document: when
    the path opens, what is left there is rejected by the parser; when it
    does not, no file is touched. *)
Lemma write_document_not_well_formed n name desc now cs path w :
  cs <> [] -> Forall Spec.gpx_point cs ->
  exists r w',
    ET.write registry (Spec.document n name desc now cs) path w = (r, w')
    /\ stdout w' = stdout w /\ stderr w' = stderr w
    /\ (fs w' = fs w
        \/ exists c msg, fs w' = <[path := c]> (fs w)
                         /\ Spec.parse_error c = Some msg).
Proof.
  intros Hne Hcs. unfold ET.write.
  destruct (can_open w path) eqn:Hopen.
  2:{ destruct (ET._namespaces registry _) as [[qnames ns]|];
        [destruct (ET._serialize_xml qnames (Some ns) _)|];
        unfold bind, write_file; rewrite Hopen;
        eexists _, _; (split; [reflexivity|]); auto. }
  destruct (ET._namespaces registry _) as [[qnames ns]|] eqn:Hn.
  2:{ unfold bind, write_file, raise. rewrite Hopen.
      eexists _, _. split; [reflexivity|]. cbn. do 2 (split; [reflexivity|]).
      right. by eexists (Unparsable _), _. }
  destruct (ET._serialize_xml qnames (Some ns) _) as [m|] eqn:Hm.
  2:{ unfold bind, write_file, raise. rewrite Hopen.
      eexists _, _. split; [reflexivity|]. cbn. do 2 (split; [reflexivity|]).
      right. by eexists (Unparsable _), _. }
  unfold write_file. rewrite Hopen.
  eexists _, _. split; [reflexivity|]. cbn [fs stdout stderr].
  do 2 (split; [reflexivity|]). right. exists (Markup m).
  unfold ET._namespaces in Hn.
  apply add_all_inv in Hn as ((K & J & Q) & Hall & _).
  2:{ unfold Spec.tables_inv. cbn [fst snd]. split; [done|].
      split; [|by intros v; rewrite lookup_empty].
      intros ? _ [? Hx]. by rewrite lookup_empty in Hx. }
  cbn [fst snd] in *.
  (* the name of the first point has been seen *)
  destruct cs as [|c cs]; [done|]. apply Forall_cons in Hcs as [Hc _].
  assert (Hgpx : dict_get GPX_NAMESPACE ns = Some "").
  { apply (J (tag c) Hc), Hall, elem_of_concat. exists (ET.names_of c).
    split; [apply elem_of_cons; by left|].
    apply (list_elem_of_fmap_2 ET.names_of).
    cbn [ET.iter Spec.document map concat app].
    do 8 (apply elem_of_cons; right).
    apply elem_of_app. left. apply elem_of_app. left.
    destruct c. cbn [ET.iter]. apply elem_of_cons. by left. }
  (* the root start tag *)
  cbn [Spec.document ET._serialize_xml] in Hm.
  destruct (qnames !! "gpx") as [t'|]; [|discriminate].
  unfold ET.written_items in Hm. cbn [all_some fst snd] in Hm.
  destruct (qnames !! "version") as [k1|]; [|discriminate].
  destruct (qnames !! "creator") as [k2|]; [|discriminate].
  destruct (qnames !! "xmlns") as [k3|] eqn:Hx; [|discriminate].
  rewrite (Q k3 eq_refl) in Hm.
  match type of Hm with
  | match ?x with _ => _ end = _ => destruct x as [ks|]; [|discriminate]
  end.
  injection Hm as <-. cbn [Spec.parse_error Spec.check].
  destruct (ET.start_tag _ _ _) as [msg|r] eqn:Hst; [by exists msg|].
  exfalso. apply start_tag_NoDup in Hst.
  rewrite map_app in Hst. apply NoDup_app in Hst as (_ & Hd & _).
  apply (Hd "xmlns").
  - apply (list_elem_of_fmap_2' fst _ ("xmlns", GPX_NAMESPACE));
      [by apply declarations_xmlns|done].
  - cbn. rewrite !elem_of_cons. auto.
Qed.

Lemma merge_to_file_nonempty self output :
  track_points self <> [] ->
  merge_to_file self output
  = (gpx <- build_document self ;;
     ET.write registry gpx output ;;
     print_check_mark ("✓ Merged GPX file created: " +:+ output) ;;
     print ("  Total track points merged: "
            +:+ Str.of_nat (length (track_points self))))%py.
Proof.
  intros Hne. unfold merge_to_file.
  destruct (track_points self); [done|reflexivity].
Qed.

(** [merge_to_file] on a collection of points leaves the files as they
    were, or leaves at the output path a file that is not a well-formed
    document. *)
Lemma merge_to_file_not_well_formed self output w :
  track_points self <> [] ->
  Forall (fun p => Spec.gpx_point (point_elem p)) (track_points self) ->
  exists r w',
    merge_to_file self output w = (r, w')
    /\ stderr w' = stderr w
    /\ (fs w' = fs w
        \/ exists c msg, fs w' = <[output := c]> (fs w)
                         /\ Spec.parse_error c = Some msg).
Proof.
  intros Hne Hg. rewrite (merge_to_file_nonempty self output Hne).
  destruct (build_document_spec self w) as (cs & Hb & Hconts & _).
  pose proof (map_eq_Forall2 content_of (fun p => content_of (point_elem p))
                _ _ Hconts) as H2.
  assert (Hcs : cs <> [] /\ Forall Spec.gpx_point cs).
  { split.
    - intros ->. apply Forall2_nil_inv_r in H2. exact (Hne H2).
    - clear -H2 Hg. induction H2 as [|q c l k Hqc _ IH]; [constructor|].
      apply Forall_cons in Hg as [Hq Hg]. constructor; [|by apply IH].
      unfold Spec.gpx_point in *. by rewrite (content_of_tag _ _ Hqc). }
  destruct Hcs as [Hcs1 Hcs2].
  erewrite bind_Ok by exact Hb.
  match goal with
  | |- context [bind (ET.write _ ?doc _) _ ?w0] =>
      destruct (write_document_not_well_formed (next_id w) (Spec.output_name self)
                  (Spec.output_desc self) (utcnow w) cs output w0 Hcs1 Hcs2)
        as (r & w1 & Hw & Hout & Herr & Hfs)
  end.
  change (fs (Spec.advance _ w)) with (fs w) in Hfs.
  change (stderr (Spec.advance _ w)) with (stderr w) in Herr.
  destruct r as [[]|e].
  - erewrite bind_Ok by exact Hw. unfold bind, print_check_mark.
    destruct (stdout_unicode w1).
    + unfold print. cbv beta iota. eexists _, _. split; [reflexivity|].
      cbv beta iota delta [fs stderr]. split; [exact Herr|exact Hfs].
    + eexists _, _. split; [reflexivity|]. split; [exact Herr|exact Hfs].
  - erewrite bind_Raise by exact Hw.
    eexists _, _. split; [reflexivity|]. split; [exact Herr|exact Hfs].
Qed.

End Serialise.

(** ** What a run writes *)

Section Output.
Import GPXMerger.
Variable fromisoformat : string -> option Datetime.datetime.

Local Abbreviation process_file := (GPXMerger.process_file fromisoformat).
Local Abbreviation main := (GPXMerger.main fromisoformat).
Local Abbreviation run := (GPXMerger.run fromisoformat).

(** The loop over the input files writes nothing, however it ends. *)
Lemma loop_frame files self w r w' :
  for_each process_file files self w = (r, w') -> fs w' = fs w.
Proof.
  revert self w. induction files as [|f files IH]; intros self w H.
  - cbn in H. by injection H as _ <-.
  - cbn [for_each] in H. unfold bind in H.
    destruct (process_file self f w) as [[s1|e] w1] eqn:Hf.
    + destruct (process_file_spec fromisoformat self f w) as (w2 & Hs & Hfs & _).
      assert (w2 = w1) as ->.
      { destruct (fs w !! f) as [c|]; [destruct (Spec.parse_error c)|].
        - destruct Hs as [Hs _]. congruence.
        - destruct Hs as (root & Hs & _). congruence.
        - destruct Hs as [Hs _]. congruence. }
      rewrite (IH _ _ H). exact Hfs.
    + injection H as _ <-.
      destruct (process_file_spec fromisoformat self f w) as (w2 & Hs & Hfs & _).
      assert (w2 = w1) as ->; [|exact Hfs].
      destruct (fs w !! f) as [c|]; [destruct (Spec.parse_error c)|].
      * destruct Hs as [Hs _]. congruence.
      * destruct Hs as (root & Hs & _). congruence.
      * destruct Hs as [Hs _]. congruence.
Qed.

(** Whatever a run writes, it is a file that is not a well-formed
    document: a run leaves the files as they were, or leaves at the output
    path a file the parser rejects. *)
Lemma main_writes_no_well_formed_document files output w r w' :
  main files output w = (r, w') ->
  fs w' = fs w
  \/ exists c msg, fs w' = <[output := c]> (fs w) /\ Spec.parse_error c = Some msg.
Proof.
  unfold GPXMerger.main. destruct files as [|f0 files0] eqn:Hfiles.
  { intros [= _ <-]. by left. }
  rewrite <- Hfiles. clear Hfiles f0 files0.
  erewrite bind_Ok by (unfold print; reflexivity).
  match goal with
  | |- context [bind (for_each _ files tt) _ ?w0] =>
      destruct (print_files files w0) as (w1 & Hp & Hfs1 & _ & _ & _)
  end.
  erewrite bind_Ok by exact Hp. cbn [fs] in Hfs1.
  unfold bind at 1.
  destruct (for_each process_file files __init__ w1) as [[self|e] w2] eqn:Hl.
  2:{ intros [= _ <-]. left. rewrite (loop_frame _ _ _ _ _ Hl). exact Hfs1. }
  pose proof (loop_frame _ _ _ _ _ Hl) as Hfs2.
  pose proof (loop_gpx_points fromisoformat _ _ _ _ _ Hl (Forall_nil_2 _)) as Hg.
  unfold bind at 1.
  destruct (sort_by_timestamp self w2) as [[sorted|e] w3] eqn:Hs.
  2:{ intros [= _ <-]. left.
      unfold sort_by_timestamp in Hs. destruct (Builtins.sort _ _ _); [done|].
      injection Hs as _ <-. congruence. }
  pose proof (sort_by_timestamp_Forall _ _ _ _ _ Hs Hg) as Hg'.
  apply sort_by_timestamp_inv in Hs as [-> _].
  intros Hm. destruct (track_points sorted) as [|p tp] eqn:Htp.
  - left. unfold merge_to_file in Hm. rewrite Htp in Hm.
    injection Hm as _ <-. cbn [fs]. congruence.
  - destruct (merge_to_file_not_well_formed sorted output w2)
      as (r' & w4 & Hm' & _ & Hfs4).
    { by rewrite Htp. } { by rewrite Htp. }
    rewrite Hm in Hm'. injection Hm' as _ <-.
    destruct Hfs4 as [Hfs4|(c & msg & Hfs4 & Hc)]; [left; congruence|].
    right. exists c, msg. split; [|exact Hc]. rewrite Hfs4. congruence.
Qed.

(** X8. The merger does not read back what it wrote: the run on the
    output of a run that wrote one stops at the parser, with status 1 and
    the error that names the file, and writes nothing. *)
Lemma output_is_rejected files output again w r w' :
  main files output w = (r, w') ->
  fs w' <> fs w ->
  exists msg w'',
    run [output] again w' = (1%Z, w'')
    /\ fs w'' = fs w'
    /\ last (stderr w'') = Some (Spec.invalid_file_error output msg).
Proof.
  intros Hm Hne.
  destruct (main_writes_no_well_formed_document _ _ _ _ _ Hm)
    as [Hsame|(c & msg & Hfs & Hc)]; [done|].
  destruct (main_first_malformed fromisoformat [] output [] msg again w')
    as (w'' & Hm' & Hfs' & Hlast).
  { constructor. }
  { exists c. split; [|exact Hc]. by rewrite Hfs, lookup_insert_eq. }
  exists msg, w''. unfold GPXMerger.run. cbn [app] in Hm'. rewrite Hm'.
  by repeat split.
Qed.

End Output.

(** ** Runs on sample documents *)

Section Scenarios.
Import GPXMerger.

Lemma malformed_document_aborts_run_witness :
  exists f msg w',
    f ∈ ["a.gpx"; "bad.gpx"]
    /\ Spec.malformed (Examples.world_of Examples.with_a_broken_file) f msg
    /\ run Iso8601.fromisoformat ["a.gpx"; "bad.gpx"] "merged.gpx"
         (Examples.world_of Examples.with_a_broken_file) = (1%Z, w')
    /\ fs w' = fs (Examples.world_of Examples.with_a_broken_file)
    /\ last (stderr w') = Some (Spec.invalid_file_error f msg)
    /\ Str.contains f (Spec.invalid_file_error f msg) = true.
Proof.
  apply (malformed_document_aborts_run Iso8601.fromisoformat).
  - repeat constructor; vm_compute; eauto.
  - right. left. eexists. eexists. split; vm_compute; reflexivity.
Defined.

(** The run on the broken file, as it goes. *)
Example run_with_a_broken_file :
  (let (status, w') := Examples.run_on Examples.with_a_broken_file
                         ["a.gpx"; "bad.gpx"] "merged.gpx" in
   (status, stderr w', fs w' !! "merged.gpx"))
  = (1%Z,
     ["Error: Invalid GPX file 'bad.gpx': mismatched tag: line 7, column 4"],
     None).
Proof. vm_compute. reflexivity. Qed.


(** The second document does supply the name "B" and the description "X";
    the written metadata block has the name "A" and the default
    description. *)
Example second_document_is_ignored :
  option_map (fun root => (Spec.supplied root "name", Spec.supplied root "desc"))
             (Examples.root_of Examples.doc_b)
  = Some (Some (Some "B"), Some (Some "X"))
  /\ option_map (fun doc => map (fun e => (tag e, text e))
                               (ET.descendants (default doc (ET.find doc "metadata"))))
                (Examples.output_document Examples.two_documents ["a.gpx"; "b.gpx"])
     = Some [("name", Some "A");
             ("desc", Some "Merged from multiple GPX files");
             ("time", Some "2024-06-01T12:00:00Z")].
Proof. split; vm_compute; reflexivity. Qed.

(** The three points of the two documents come out by instant, the tie in
    the order of the documents. *)
Example merge_two_documents :
  option_map (fun doc => map (fun e => Builtins.dict_get "lat" (attrib e))
                             (Spec.output_points doc))
             (Examples.output_document Examples.two_documents ["a.gpx"; "b.gpx"])
  = Some [Some "2"; Some "3"; Some "1"].
Proof. vm_compute. reflexivity. Qed.

(** Of the four candidates of [doc_dropped] one is merged, one is warned
    about, and two are passed over in silence. *)
Example dropped_points :
  (let (status, w') := Examples.run_on [("d.gpx", Markup Examples.doc_dropped)]
                         ["d.gpx"] "merged.gpx" in
   (status, stderr w', last (stdout w')))
  = (0%Z,
     ["Warning: Could not parse timestamp 'yesterday' from d.gpx"],
     Some "  Total track points merged: 1").
Proof. vm_compute. reflexivity. Qed.

(** The four candidates of [doc_dropped], one of each kind. *)
Lemma extraction_is_point_level_witness :
  exists root pt1 pt2 pt3 pt4 te2 te3 te4 ts,
    Examples.root_of Examples.doc_dropped = Some root
    /\ Spec.candidates root = [pt1; pt2; pt3; pt4]
    /\ Forall (fun pt => Spec.below root pt /\ Spec.gpx_point pt)
              [pt1; pt2; pt3; pt4]
    /\ _extract_track_points Iso8601.fromisoformat __init__ root "d.gpx"
         Examples.empty_world
       = (Ok (mk_merger [(ts, pt4, "d.gpx")] ∅),
          Spec.with_stderr
            ["Warning: Could not parse timestamp 'yesterday' from d.gpx"]
            Examples.empty_world)
    /\ Spec.no_child pt1 (gpx "time")
    /\ Spec.first_child pt2 (gpx "time") te2 /\ text te2 = None
    /\ Spec.first_child pt3 (gpx "time") te3 /\ text te3 = Some "yesterday"
    /\ Spec.first_child pt4 (gpx "time") te4
    /\ text te4 = Some "2024-01-01T10:00:00Z"
    /\ map (fun pt => (Spec.record_of Iso8601.fromisoformat "d.gpx" pt,
                       Spec.warning_of Iso8601.fromisoformat "d.gpx" pt))
           [pt1; pt2; pt3; pt4]
       = [(None, None); (None, None);
          (None, Some "Warning: Could not parse timestamp 'yesterday' from d.gpx");
          (Some (ts, pt4, "d.gpx"), None)].
Proof.
  pose (r := Examples.root_of Examples.doc_dropped). vm_compute in r.
  match eval unfold r in r with
  | Some ?root =>
      pose (cs := Spec.candidates root); vm_compute in cs;
      match eval unfold cs in cs with
      | [?p1; ?p2; ?p3; ?p4] =>
          match eval vm_compute in
                (ET.find p2 (gpx "time"), ET.find p3 (gpx "time"),
                 ET.find p4 (gpx "time"),
                 Iso8601.fromisoformat "2024-01-01T10:00:00+00:00") with
          | (Some ?t2, Some ?t3, Some ?t4, Some ?ts) =>
              destruct (extraction_is_point_level Iso8601.fromisoformat
                          __init__ root "d.gpx" Examples.empty_world)
                as (He & Hcand & Hpt);
              destruct (Hpt p1) as (H1 & _), (Hpt p2) as (_ & H2 & _),
                       (Hpt p3) as (_ & _ & H3 & _), (Hpt p4) as (_ & _ & _ & H4);
              clear Hpt;
              specialize (H2 t2); specialize (H3 t3 "yesterday");
              specialize (H4 t4 "2024-01-01T10:00:00Z" ts);
              assert (Hcs : Spec.candidates root = [p1; p2; p3; p4])
                by (vm_compute; reflexivity);
              exists root, p1, p2, p3, p4, t2, t3, t4, ts
          end
      end
  end.
  clear r cs.
  split; [vm_compute; reflexivity|].
  split; [exact Hcs|].
  split.
  { apply Forall_forall. intros pt Hin. apply Hcand. rewrite Hcs. exact Hin. }
  split.
  { rewrite He, Hcs. vm_compute. reflexivity. }
  match goal with
  | |- ?F1 /\ ?F2 /\ ?T2 /\ ?F3 /\ ?T3 /\ ?F4 /\ ?T4 /\ _ =>
      assert (W1 : F1) by constructor;
      assert (W2 : F2)
        by (exists [], []; split; [reflexivity|split; [reflexivity|constructor]]);
      assert (W3 : F3)
        by (exists [], []; split; [reflexivity|split; [reflexivity|constructor]]);
      assert (W4 : F4)
        by (exists [], []; split; [reflexivity|split; [reflexivity|constructor]])
  end.
  split; [exact W1|]. split; [exact W2|]. split; [reflexivity|].
  split; [exact W3|]. split; [reflexivity|].
  split; [exact W4|]. split; [reflexivity|].
  destruct (H1 W1) as [R1 N1].
  destruct (H2 W2 (or_introl eq_refl)) as [R2 N2].
  destruct (H3 W3 eq_refl ltac:(discriminate) ltac:(vm_compute; reflexivity))
    as (R3 & N3 & _).
  destruct (H4 W4 eq_refl ltac:(discriminate) ltac:(vm_compute; reflexivity))
    as [R4 N4].
  cbn [map]. rewrite R1, N1, R2, N2, R3, N3, R4, N4. reflexivity.
Defined.

Lemma path_points_before_marker_points_witness :
  exists root,
    Examples.root_of Examples.doc_marker_first = Some root
    /\ map tag (ET.descendants root)
       = [gpx "wpt"; gpx "time"; gpx "trk"; gpx "trkseg"; gpx "trkpt"; gpx "time"]
    /\ exists self' w',
         _extract_track_points Iso8601.fromisoformat __init__ root "m.gpx"
           Examples.empty_world = (Ok self', w')
         /\ map (fun p => tag (point_elem p)) (track_points self')
            = [gpx "trkpt"; gpx "wpt"]
         /\ forall later sorted w1 w2 t,
              sort_by_timestamp
                (mk_merger (track_points self' ++ later) (metadata self')) w1
              = (Ok sorted, w2) ->
              Spec.at_instant t (track_points sorted)
              = Spec.at_instant t []
                ++ Spec.at_instant t
                     (omap (Spec.record_of Iso8601.fromisoformat "m.gpx")
                           (Spec.path_points root))
                ++ Spec.at_instant t
                     (omap (Spec.record_of Iso8601.fromisoformat "m.gpx")
                           (Spec.marker_points root))
                ++ Spec.at_instant t later.
Proof.
  eexists. split; [vm_compute; reflexivity|]. split; [vm_compute; reflexivity|].
  match goal with
  | |- context [_extract_track_points _ _ ?root _ _] =>
      destruct (path_points_before_marker_points Iso8601.fromisoformat
                  __init__ root "m.gpx" Examples.empty_world)
        as (self' & w' & He & Htp & Hsort)
  end.
  exists self', w'. split; [exact He|]. split; [|exact Hsort].
  rewrite Htp. vm_compute. reflexivity.
Defined.

(** In the written segment the path point stands before the marker point of
    the same instant, which stands before it in the document. *)
Example marker_after_path_point :
  option_map (fun doc => map tag (Spec.output_points doc))
             (Examples.output_document
                [("m.gpx", Markup Examples.doc_marker_first)] ["m.gpx"])
  = Some [gpx "trkpt"; gpx "wpt"].
Proof. vm_compute. reflexivity. Qed.

(** C3 (the code departs from the claim).  A well-formed document with no
    usable point: nothing is written and the error is printed, but the run
    ends with status 0, where the other error paths of [main] end it with
    status 1. *)
Theorem empty_collection_exits_with_status_0 :
  (let (status, w') := Examples.run_on [("u.gpx", Markup Examples.doc_untimed)]
                         ["u.gpx"] "merged.gpx" in
   (status, stderr w', fs w' !! "merged.gpx"))
  = (0%Z, ["Error: No track points found to merge."], None).
Proof. vm_compute. reflexivity. Qed.

(** Whatever the world, [merge_to_file] on an empty collection prints the
    error and returns as it does after a successful write. *)
Lemma merge_to_file_empty (md : gmap string (option string)) output w :
  merge_to_file (mk_merger [] md) output w
  = (Ok tt, Spec.with_stderr ["Error: No track points found to merge."] w).
Proof. reflexivity. Qed.

(** C7 (the code departs from the claim).  A timestamp with the UTC
    designator and a timestamp with no offset both parse; the two values do
    not compare ([<] raises), and the run on a document that holds both ends
    in the sort with that exception, status 1, and writes nothing. *)
Theorem naive_and_aware_timestamps_do_not_compare :
  Spec.parse_timestamp Iso8601.fromisoformat "2024-01-01T10:00:00Z"
  = Some Examples.t_100000_utc
  /\ Spec.parse_timestamp Iso8601.fromisoformat "2024-01-01T10:00:05"
     = Some Examples.t_100005_naive
  /\ Datetime.__lt__ Examples.t_100000_utc Examples.t_100005_naive = None
  /\ Datetime.__lt__ Examples.t_100005_naive Examples.t_100000_utc = None
  /\ (let (r, w') := main Iso8601.fromisoformat ["x.gpx"] "merged.gpx"
                       (Examples.world_of [("x.gpx", Markup Examples.doc_mixed)]) in
      (r, exit_status r, fs w' !! "merged.gpx"))
     = (Raise (TypeError "can't compare offset-naive and offset-aware datetimes"),
        1%Z, None).
Proof. repeat split; vm_compute; reflexivity. Qed.

(** X10. What does hold of instants: a timestamp text that ends in the
    designator [Z] is read as the same text ending in the offset [+00:00],
    whatever the parser makes of it. *)
Lemma z_designator_is_zero_offset (fromisoformat : string -> option Datetime.datetime) s :
  Spec.parse_timestamp fromisoformat (s +:+ "Z")
  = Spec.parse_timestamp fromisoformat (s +:+ "+00:00").
Proof. unfold Spec.parse_timestamp. by rewrite replace_Z_designator. Qed.

(** Values that both carry an offset are ordered, and equal exactly when
    they denote one moment. *)
Lemma aware_timestamps_compare a b :
  Datetime.aware a = true -> Datetime.aware b = true ->
  Datetime.__lt__ a b = Some (Datetime.instant a <? Datetime.instant b)%Z
  /\ (Datetime.__eq__ a b = true <-> Datetime.instant a = Datetime.instant b).
Proof.
  intros Ha Hb. split.
  - apply DatetimeFacts.__lt___instant. congruence.
  - rewrite DatetimeFacts.__eq___instant by congruence. apply Z.eqb_eq.
Qed.

Example same_moment_other_offset :
  Datetime.__eq__ Examples.t_100000_utc Examples.t_110000_plus1 = true.
Proof. vm_compute. reflexivity. Qed.

(** C8 (the code departs from the claim).  In the document that
    [merge_to_file] builds, only the copied points and what is below them
    are in the GPX namespace.  The eight elements the code makes itself
    (the root, the metadata block with its three fields, the track, its
    name and its segment) have plain tags, which are in no namespace: the
    attribute [xmlns] the root is given is an attribute like any other for
    the tree.  A lookup by qualified name, as the merger does on its inputs,
    finds no metadata block and no track in it; and the written root start
    tag has [xmlns] twice, so no reader of XML accepts the file. *)
Theorem synthesized_elements_are_in_no_namespace :
  option_map (fun doc =>
                (map (fun e => (tag e, Spec.namespace_of e)) (ET.iter doc),
                 Builtins.dict_get "xmlns" (attrib doc),
                 ET.find doc (gpx "metadata"), ET.find doc (gpx "trk"),
                 option_map tag (ET.find doc "metadata")))
             (Examples.output_document [("a.gpx", Markup Examples.doc_a)] ["a.gpx"])
  = Some ([("gpx", None); ("metadata", None); ("name", None); ("desc", None);
           ("time", None); ("trk", None); ("name", None); ("trkseg", None);
           (gpx "trkpt", Some GPX_NAMESPACE); (gpx "time", Some GPX_NAMESPACE);
           (gpx "trkpt", Some GPX_NAMESPACE); (gpx "time", Some GPX_NAMESPACE)],
          Some GPX_NAMESPACE, None, None, Some "metadata")
  /\ (let (status, w') := Examples.run_on [("a.gpx", Markup Examples.doc_a)]
                            ["a.gpx"] "merged.gpx" in
      (status,
       match fs w' !! "merged.gpx" with
       | Some (Markup (MTag name attrs _ _ _)) => Some (name, attrs)
       | _ => None
       end,
       option_map Spec.parse_error (fs w' !! "merged.gpx")))
     = (0%Z,
        Some ("gpx", [("xmlns", GPX_NAMESPACE); ("version", "1.1");
                      ("creator", "GPX Merger Script");
                      ("xmlns", GPX_NAMESPACE)]),
        Some (Some "duplicate attribute")).
Proof. split; vm_compute; reflexivity. Qed.

(** C9 (the code departs from the claim).  The output of a merge is not
    well-formed: its root start tag carries the attribute [xmlns] twice,
    once from the serialiser (the copied points are in the registered
    namespace) and once from the attribute the root was given.  Merging it
    again aborts at the parser; no point is read back. *)
Theorem merging_the_output_again_fails :
  (let (status1, w1) := Examples.run_on Examples.two_documents
                          ["a.gpx"; "b.gpx"] "merged.gpx" in
   let (status2, w2) := run Iso8601.fromisoformat ["merged.gpx"] "again.gpx" w1 in
   (status1,
    match fs w1 !! "merged.gpx" with
    | Some (Markup (MTag name attrs _ _ _)) => Some (name, map fst attrs)
    | _ => None
    end,
    option_map Spec.parse_error (fs w1 !! "merged.gpx"),
    status2, last (stderr w2), fs w2 !! "again.gpx"))
  = (0%Z,
     Some ("gpx", ["xmlns"; "version"; "creator"; "xmlns"]),
     Some (Some "duplicate attribute"),
     1%Z,
     Some "Error: Invalid GPX file 'merged.gpx': duplicate attribute",
     None).
Proof. vm_compute. reflexivity. Qed.

End Scenarios.

(** * Further properties *)

(** ** What a file yields *)

Section Content.
Import GPXMerger.

(** The tree builder gives each child the content of its markup. *)
Lemma build_loop_content env (kids : list markup) :
  Forall (fun m => forall w e w',
            ET.build env m w = (Ok e, w') ->
            content_of e = Spec.content_tree env m) kids ->
  forall acc w e w',
    for_each (fun elem k => c <- ET.build env k ;; ret (ET.append elem c))%py
             kids acc w = (Ok e, w') ->
    exists cs, e = Spec.with_children acc cs
               /\ map content_of cs = map (Spec.content_tree env) kids.
Proof.
  induction 1 as [|m kids Hm _ IH]; intros acc w e w' H.
  - cbn in H. injection H as <- _. exists []. by rewrite with_children_nil.
  - cbn [for_each] in H. apply bind_inv_Ok in H as (acc1 & w1 & Hb & Hl).
    apply bind_inv_Ok in Hb as (c & w0 & Hc & Hr).
    injection Hr as <- <-.
    destruct (IH _ _ _ _ Hl) as (cs & -> & Hcs).
    exists (c :: cs). rewrite with_children_append. split; [done|].
    cbn [map]. by rewrite (Hm _ _ _ Hc), Hcs.
Qed.

Lemma build_content env m w e w' :
  ET.build env m w = (Ok e, w') -> content_of e = Spec.content_tree env m.
Proof.
  revert env w e w'. induction m as [name attrs tx kids tl IH] using markup_ind'.
  intros env w e w'. cbn [ET.build Spec.content_tree].
  destruct (ET.start_tag env name attrs) as [msg|[[env' t] a]]; [discriminate|].
  erewrite bind_Ok by apply new_Element_spec.
  intros H.
  eapply build_loop_content in H as (cs & -> & Hcs).
  2:{ eapply Forall_impl; [exact IH|]. intros m Hm w1 e1 w1'. apply Hm. }
  cbn. by rewrite Hcs.
Qed.

Local Abbreviation same := (fun e1 e2 : Element => content_of e1 = content_of e2).

Lemma same_children e1 e2 :
  content_of e1 = content_of e2 -> Forall2 same (children e1) (children e2).
Proof.
  destruct e1, e2. cbn. intros [= _ _ _ _ H].
  symmetry in H. apply (map_eq_Forall2 content_of content_of) in H.
  eapply Forall2_impl; [exact H|]. by intros ?? ->.
Qed.

Lemma Forall2_concat_same {A B} (R : A -> B -> Prop) ls1 ls2 :
  Forall2 (Forall2 R) ls1 ls2 -> Forall2 R (concat ls1) (concat ls2).
Proof.
  induction 1; cbn [concat]; [constructor|]. by apply Forall2_app.
Qed.

Lemma same_iter e1 e2 :
  content_of e1 = content_of e2 -> Forall2 same (ET.iter e1) (ET.iter e2).
Proof.
  revert e2. induction e1 as [i t d a tx tl ch IH] using Element_ind'.
  intros [i2 t2 d2 a2 tx2 tl2 ch2] H. cbn [ET.iter].
  constructor; [exact H|].
  apply same_children in H. cbn [children] in H.
  apply Forall2_concat_same.
  clear -IH H. induction H as [|c1 c2 l1 l2 Hc _ IHl]; cbn [map]; [constructor|].
  apply Forall_cons in IH as [IHc IH]. constructor; auto.
Qed.

Lemma same_descendants e1 e2 :
  content_of e1 = content_of e2 ->
  Forall2 same (ET.descendants e1) (ET.descendants e2).
Proof.
  intros H%same_children. unfold ET.descendants.
  apply Forall2_concat_same.
  induction H; cbn [map]; constructor; auto using same_iter.
Qed.

Lemma same_findall e1 e2 t :
  content_of e1 = content_of e2 ->
  Forall2 same (ET.findall_descendants e1 t) (ET.findall_descendants e2 t).
Proof.
  intros H%same_descendants. unfold ET.findall_descendants.
  induction H as [|x y l1 l2 Hxy _ IH]; [constructor|].
  rewrite !filter_cons. rewrite <- (content_of_tag _ _ Hxy).
  destruct (decide (tag x = t)); [constructor|]; done.
Qed.

Lemma same_find e1 e2 t :
  content_of e1 = content_of e2 ->
  option_Forall2 same (ET.find e1 t) (ET.find e2 t).
Proof.
  intros H%same_children. unfold ET.find.
  induction H as [|x y l1 l2 Hxy _ IH]; cbn [List.find]; [constructor|].
  rewrite <- (content_of_tag _ _ Hxy).
  destruct (String.eqb (tag x) t); [by constructor|done].
Qed.

Lemma content_of_text c e : content_of c = content_of e -> text c = text e.
Proof. destruct c, e. cbn. by intros [= _ _ -> _]. Qed.

Lemma same_timestamp_text e1 e2 :
  content_of e1 = content_of e2 ->
  Spec.timestamp_text e1 = Spec.timestamp_text e2.
Proof.
  intros H. unfold Spec.timestamp_text.
  destruct (same_find e1 e2 (gpx "time") H) as [x y Hxy|]; [|done].
  by rewrite (content_of_text _ _ Hxy).
Qed.

(** The metadata taken from a document depends on its content only. *)
Lemma same_metadata self r1 r2 :
  content_of r1 = content_of r2 ->
  metadata (_extract_metadata self r1) = metadata (_extract_metadata self r2).
Proof.
  intros H. unfold _extract_metadata.
  destruct (same_find r1 r2 (gpx "metadata") H) as [m1 m2 Hm|]; [|done].
  cbn [metadata].
  destruct (same_find m1 m2 (gpx "name") Hm) as [n1 n2 Hn|],
           (same_find m1 m2 (gpx "desc") Hm) as [d1 d2 Hd|];
    by rewrite ?(content_of_text _ _ Hn), ?(content_of_text _ _ Hd).
Qed.

Lemma _extract_metadata_empty self root :
  metadata self = ∅ ->
  metadata (_extract_metadata self root)
  = metadata (_extract_metadata __init__ root).
Proof.
  intros H. unfold _extract_metadata.
  destruct (ET.find root (gpx "metadata")); cbn [metadata]; by rewrite H.
Qed.

Variable fromisoformat : string -> option Datetime.datetime.

Lemma same_record f e1 e2 :
  content_of e1 = content_of e2 ->
  option_map Spec.timed (Spec.record_of fromisoformat f e1)
  = option_map Spec.timed (Spec.record_of fromisoformat f e2)
  /\ Spec.warning_of fromisoformat f e1 = Spec.warning_of fromisoformat f e2.
Proof.
  intros H. unfold Spec.record_of, Spec.warning_of.
  rewrite (same_timestamp_text _ _ H).
  destruct (Spec.timestamp_text e2) as [txt|]; [|done].
  destruct (Spec.parse_timestamp _ txt); [|done].
  split; [|done]. cbn. unfold Spec.timed. cbn. by rewrite H.
Qed.

Lemma same_records f l1 l2 :
  Forall2 same l1 l2 ->
  map Spec.timed (omap (Spec.record_of fromisoformat f) l1)
  = map Spec.timed (omap (Spec.record_of fromisoformat f) l2)
  /\ omap (Spec.warning_of fromisoformat f) l1
     = omap (Spec.warning_of fromisoformat f) l2.
Proof.
  induction 1 as [|x y l1 l2 Hxy _ [IH1 IH2]]; [done|].
  destruct (same_record f x y Hxy) as [Hr Hw].
  cbn [omap list_omap]. rewrite Hw, IH2. split; [|done].
  destruct (Spec.record_of _ f x), (Spec.record_of _ f y);
    cbn [option_map] in Hr; try discriminate; cbn [map]; [|done].
  f_equal; [congruence|exact IH1].
Qed.

Lemma same_candidates e1 e2 :
  content_of e1 = content_of e2 ->
  Forall2 same (Spec.candidates e1) (Spec.candidates e2).
Proof.
  intros H. unfold Spec.candidates, Spec.path_points, Spec.marker_points.
  apply Forall2_app; by apply same_findall.
Qed.

(** What a file yields does not depend on when it is parsed. *)
Lemma parse_same_content f w1 w2 r1 r2 w1' w2' :
  fs w1 !! f = fs w2 !! f ->
  ET.parse f w1 = (Ok r1, w1') -> ET.parse f w2 = (Ok r2, w2') ->
  content_of r1 = content_of r2.
Proof.
  unfold ET.parse, bind, read_file. intros <-.
  destruct (fs w1 !! f) as [[msg|m]|]; try discriminate.
  intros H1%build_content H2%build_content. congruence.
Qed.

Lemma file_records_same_files f w1 w2 :
  fs w1 !! f = fs w2 !! f ->
  map Spec.timed (Spec.file_records fromisoformat w1 f)
  = map Spec.timed (Spec.file_records fromisoformat w2 f)
  /\ Spec.file_warnings fromisoformat w1 f = Spec.file_warnings fromisoformat w2 f.
Proof.
  intros Hfs. unfold Spec.file_records, Spec.file_warnings.
  pose proof (parse_same_content f w1 w2) as Hsame.
  destruct (fs w1 !! f) as [c|] eqn:Hc.
  - pose proof (parse_check f w1 c Hc) as H1.
    pose proof (parse_check f w2 c (eq_sym Hfs)) as H2.
    destruct (Spec.parse_error c).
    + destruct H1 as (k1 & ->), H2 as (k2 & ->). done.
    + destruct H1 as (r1 & Hr1 & _), H2 as (r2 & Hr2 & _).
      rewrite Hr1, Hr2. apply same_records, same_candidates.
      eapply Hsame; [exact Hfs|done..].
  - unfold ET.parse, bind, read_file. rewrite Hc, <- Hfs. done.
Qed.

Lemma file_metadata_same_files f w1 w2 :
  fs w1 !! f = fs w2 !! f ->
  Spec.file_metadata w1 f = Spec.file_metadata w2 f.
Proof.
  intros Hfs. unfold Spec.file_metadata.
  pose proof (parse_same_content f w1 w2) as Hsame.
  destruct (fs w1 !! f) as [c|] eqn:Hc.
  - pose proof (parse_check f w1 c Hc) as H1.
    pose proof (parse_check f w2 c (eq_sym Hfs)) as H2.
    destruct (Spec.parse_error c).
    + destruct H1 as (k1 & ->), H2 as (k2 & ->). done.
    + destruct H1 as (r1 & Hr1 & _), H2 as (r2 & Hr2 & _).
      rewrite Hr1, Hr2. apply same_metadata.
      eapply Hsame; [exact Hfs|done..].
  - unfold ET.parse, bind, read_file. rewrite Hc, <- Hfs. done.
Qed.

End Content.

(** ** The loop over the input files *)

Section Collect.
Import GPXMerger.
Variable fromisoformat : string -> option Datetime.datetime.

Local Abbreviation process_file := (GPXMerger.process_file fromisoformat).
Local Abbreviation main := (GPXMerger.main fromisoformat).
Local Abbreviation run := (GPXMerger.run fromisoformat).
Local Abbreviation file_records := (Spec.file_records fromisoformat).
Local Abbreviation file_warnings := (Spec.file_warnings fromisoformat).
Local Abbreviation collected := (Spec.collected fromisoformat).

Lemma collected_same_files files w1 w2 :
  fs w1 = fs w2 ->
  map Spec.timed (collected w1 files) = map Spec.timed (collected w2 files)
  /\ concat (map (file_warnings w1) files) = concat (map (file_warnings w2) files).
Proof.
  intros Hfs. unfold Spec.collected.
  induction files as [|f files [IH1 IH2]]; [done|].
  cbn [map concat]. rewrite !map_app, IH1, IH2.
  destruct (file_records_same_files fromisoformat f w1 w2) as [H1 H2];
    [by rewrite Hfs|]. by rewrite H1, H2.
Qed.

(** One turn of the loop of [main] on a well-formed document. *)
Lemma process_file_readable self f w :
  Spec.readable w f ->
  exists root w0 w',
    ET.parse f w0 = (Ok root, w') /\ fs w0 = fs w
    /\ process_file self f w
       = (Ok (Spec.absorb fromisoformat f self root),
          Spec.with_stderr (omap (Spec.warning_of fromisoformat f) (Spec.candidates root)) w')
    /\ fs w' = fs w /\ utcnow w' = utcnow w
    /\ stdout w' = stdout w ++ ["Processing: " +:+ f]
    /\ stderr w' = stderr w
    /\ (next_id w <= next_id w')%nat
    /\ openable w' = openable w /\ stdout_unicode w' = stdout_unicode w.
Proof.
  intros (c & Hc & Hok). unfold GPXMerger.process_file, try_except.
  erewrite bind_Ok by (unfold print; reflexivity).
  set (w1 := mk_world (next_id w) (fs w) (stdout w ++ _) (stderr w) (utcnow w)
                      (openable w) (stdout_unicode w)).
  pose proof (parse_gpx_file_spec fromisoformat self f w1) as Hp.
  change (fs w1) with (fs w) in Hp. rewrite Hc, Hok in Hp.
  destruct Hp as (root & Hr & _ & ->).
  exists root, w1. eexists. split; [exact Hr|]. split; [done|].
  split; [reflexivity|]. cbn. repeat split. lia.
Qed.

(** The loop of [main] over well-formed documents, in closed form. *)
Lemma loop_collects files self w :
  Forall (Spec.readable w) files ->
  exists self' w',
    for_each process_file files self w = (Ok self', w')
    /\ map Spec.timed (track_points self')
       = map Spec.timed (track_points self) ++ map Spec.timed (collected w files)
    /\ fs w' = fs w /\ utcnow w' = utcnow w
    /\ stdout w' = stdout w ++ map (fun f => "Processing: " +:+ f) files
    /\ stderr w' = stderr w ++ concat (map (file_warnings w) files)
    /\ (metadata self'
        = if bool_decide (metadata self = ∅)
          then Spec.first_nonempty (map (Spec.file_metadata w) files)
          else metadata self)
    /\ openable w' = openable w /\ stdout_unicode w' = stdout_unicode w.
Proof.
  revert self w. induction files as [|f files IH]; intros self w Hall.
  - exists self, w. unfold Spec.collected. cbn [for_each map concat].
    rewrite !app_nil_r. do 6 (split; [reflexivity|]).
    split; [|done].
    case_bool_decide as He; [exact He|reflexivity].
  - apply Forall_cons in Hall as [Hf Hall].
    destruct (process_file_readable self f w Hf)
      as (root & w0 & w1 & Hr & Hfs0 & Hp & Hfs1 & Hnow1 & Hout1 & Herr1 & _
          & Hop1 & Hsu1).
    set (w2 := Spec.with_stderr _ w1) in Hp.
    destruct (IH (Spec.absorb fromisoformat f self root) w2)
      as (self' & w' & Hl & Htp & Hfs' & Hnow' & Hout' & Herr' & Hmd' & Hop' & Hsu').
    { eapply Forall_impl; [exact Hall|]. intros g. by apply readable_same_files. }
    exists self', w'. cbn [for_each]. erewrite bind_Ok by exact Hp.
    split; [exact Hl|].
    assert (Hrec : file_records w0 f
                   = omap (Spec.record_of fromisoformat f) (Spec.candidates root)).
    { unfold Spec.file_records. by rewrite Hr. }
    assert (Hwarn : file_warnings w0 f
                    = omap (Spec.warning_of fromisoformat f) (Spec.candidates root)).
    { unfold Spec.file_warnings. by rewrite Hr. }
    destruct (file_records_same_files fromisoformat f w0 w) as [Hr0 Hw0];
      [by rewrite Hfs0|].
    destruct (collected_same_files files w2 w) as [Hc2 Hw2]; [done|].
    assert (Hfs2 : fs w2 = fs w1) by reflexivity.
    assert (Hnow2 : utcnow w2 = utcnow w1) by reflexivity.
    assert (Hop2 : openable w2 = openable w1) by reflexivity.
    assert (Hsu2 : stdout_unicode w2 = stdout_unicode w1) by reflexivity.
    split; [|split; [congruence|split; [congruence|split;
      [|split; [|split; [|split; congruence]]]]]].
    + rewrite Htp. unfold Spec.absorb. cbn [track_points].
      unfold Spec.collected. cbn [map concat].
      rewrite !map_app, <- app_assoc, <- Hrec, Hr0. f_equal. f_equal. exact Hc2.
    + rewrite Hout'. cbn [map]. subst w2. cbn [Spec.with_stderr stdout].
      rewrite Hout1, <- app_assoc. reflexivity.
    + rewrite Herr', Hw2. cbn [map concat]. subst w2.
      cbn [Spec.with_stderr stderr].
      rewrite Herr1, <- Hwarn, Hw0, app_assoc. reflexivity.
    + rewrite Hmd'. unfold Spec.absorb. cbn [metadata map].
      assert (Hfm : Spec.file_metadata w f
                    = metadata (_extract_metadata __init__ root)).
      { rewrite <- (file_metadata_same_files f w0 w) by (by rewrite Hfs0).
        unfold Spec.file_metadata. by rewrite Hr. }
      assert (Hrest : map (Spec.file_metadata w2) files
                      = map (Spec.file_metadata w) files).
      { apply map_ext. intros g. apply file_metadata_same_files.
        by rewrite Hfs2, Hfs1. }
      rewrite Hrest. unfold Spec.first_nonempty. rewrite filter_cons.
      destruct (bool_decide (metadata self = ∅)) eqn:He.
      * apply bool_decide_eq_true in He.
        rewrite (_extract_metadata_empty self root He), <- Hfm.
        destruct (decide (Spec.file_metadata w f = ∅)) as [E|E].
        -- rewrite (bool_decide_eq_true_2 _ E).
           rewrite decide_False by (by intros HE; apply HE). reflexivity.
        -- rewrite (bool_decide_eq_false_2 _ E).
           rewrite decide_True by done. reflexivity.
      * apply bool_decide_eq_false in He. by rewrite bool_decide_eq_false_2.
Qed.

End Collect.

(** ** Names the serialiser can write *)

Section Names.
Import GPXMerger Builtins.

Lemma rsplit1_sep c a b : is_Some (Str.rsplit1 c (a +:+ String c b)).
Proof.
  induction a as [|x a [[u v] IH]].
  - rewrite append_nil. cbn [Str.rsplit1].
    destruct (Str.rsplit1 c b) as [[u v]|]; [by eexists|].
    rewrite Ascii.eqb_refl. by eexists.
  - rewrite append_String. cbn [Str.rsplit1]. rewrite IH. by eexists.
Qed.

Lemma writable_qname uri local : Spec.writable (ET.qname uri local) = true.
Proof.
  unfold Spec.writable, ET.qname.
  rewrite append_String, append_nil. cbn [Str.after_brace].
  change (Ascii.eqb "{" "{") with true. cbn iota.
  apply bool_decide_eq_true_2.
  change ("}" +:+ local) with (String "}" local). apply rsplit1_sep.
Qed.

Lemma writable_plain n : Str.after_brace n = None -> Spec.writable n = true.
Proof. unfold Spec.writable. by intros ->. Qed.

Lemma ncname_ok_no_brace c s : ET.ncname_ok (String c s) = true -> Ascii.eqb c "{" = false.
Proof.
  unfold ET.ncname_ok. intros H.
  apply andb_true_iff in H as [H _]. apply andb_true_iff in H as [_ H].
  apply negb_true_iff in H. cbn [Str.contains String.prefix] in H.
  destruct (Ascii.eqb c "{") eqn:E; [|done].
  apply Ascii.eqb_eq in E. subst c. by destruct s.
Qed.

(** A name the parser accepts does not start with a brace. *)
Lemma name_ok_plain n : ET.name_ok n = true -> Str.after_brace n = None.
Proof.
  destruct n as [|c n]; [done|]. unfold ET.name_ok. cbn [Str.split1 Str.after_brace].
  destruct (Ascii.eqb c ":") eqn:Ec.
  - apply Ascii.eqb_eq in Ec. by subst c.
  - destruct (Str.split1 ":" n) as [[a b]|].
    + intros [H _]%andb_true_iff. by rewrite (ncname_ok_no_brace _ _ H).
    + intros H. by rewrite (ncname_ok_no_brace _ _ H).
Qed.

Lemma resolve_element_writable env name t :
  Str.after_brace name = None ->
  ET.resolve_element env name = Some t -> Spec.writable t = true.
Proof.
  intros Hn. unfold ET.resolve_element.
  destruct (Str.split1 ":" name) as [[p local]|].
  - destruct (dict_get p (ET.prefixes env)); [|discriminate].
    intros [= <-]. apply writable_qname.
  - destruct (ET.default_ns env); intros [= <-];
      [apply writable_qname|by apply writable_plain].
Qed.

Lemma resolve_attribute_writable env name t :
  Str.after_brace name = None ->
  ET.resolve_attribute env name = Some t -> Spec.writable t = true.
Proof.
  intros Hn. unfold ET.resolve_attribute.
  destruct (Str.split1 ":" name) as [[p local]|].
  - destruct (dict_get p (ET.prefixes env)); [|discriminate].
    intros [= <-]. apply writable_qname.
  - intros [= <-]. by apply writable_plain.
Qed.

Lemma resolve_attributes_writable env seen attrs a :
  forallb (fun kv => ET.name_ok (fst kv)) attrs = true ->
  ET.resolve_attributes env seen attrs = inr a ->
  Forall (fun n => Spec.writable n = true) (map fst a).
Proof.
  revert seen a.
  induction attrs as [|[k v] attrs IH]; intros seen a Hx H.
  - injection H as <-. constructor.
  - cbn [forallb fst] in Hx. apply andb_true_iff in Hx as [Hk Hx].
    apply name_ok_plain in Hk.
    cbn [ET.resolve_attributes fst snd] in H.
    destruct (ET.is_declaration k); [by eapply IH|].
    destruct (ET.resolve_attribute env k) as [k'|] eqn:Hr; [|discriminate].
    destruct (bool_decide (k' ∈ seen)); [discriminate|].
    destruct (ET.resolve_attributes env (k' :: seen) attrs) as [e|r] eqn:Hrest;
      [discriminate|].
    injection H as <-. cbn [map fst]. constructor.
    + by eapply resolve_attribute_writable.
    + by eapply IH.
Qed.

Lemma start_tag_writable env name attrs env' t a :
  ET.start_tag env name attrs = inr (env', t, a) ->
  Spec.writable t = true /\ Forall (fun n => Spec.writable n = true) (map fst a).
Proof.
  unfold ET.start_tag.
  destruct (ET.name_ok name && forallb _ attrs) eqn:Hn; cbn [negb]; [|discriminate].
  apply andb_true_iff in Hn as [Hn Ha].
  destruct (ET.declare_all [] attrs env) as [e|env1]; [discriminate|].
  destruct (ET.resolve_attributes env1 [] attrs) as [e|a1] eqn:Hr; [discriminate|].
  destruct (ET.resolve_element env1 name) as [t1|] eqn:Ht; [|discriminate].
  intros [= <- <- <-]. split.
  - eapply resolve_element_writable; [|exact Ht]. by apply name_ok_plain.
  - by eapply resolve_attributes_writable.
Qed.

Lemma first_error_None {A} (f : A -> option string) l :
  Spec.first_error f l = None -> Forall (fun x => f x = None) l.
Proof.
  induction l as [|x l IH]; cbn [Spec.first_error]; [constructor|].
  destruct (f x) eqn:E; [discriminate|]. intros H. constructor; auto.
Qed.

(** The names the parser gives to the markup it accepts can all be
    written. *)
Lemma content_tree_writable env m :
  Spec.check env m = None ->
  Forall (fun n => Spec.writable n = true)
         (Spec.content_names (Spec.content_tree env m)).
Proof.
  revert env. induction m as [name attrs tx kids tl IH] using markup_ind'.
  intros env. cbn [Spec.check Spec.content_tree].
  destruct (ET.start_tag env name attrs) as [msg|[[env' t] a]] eqn:Hs; [discriminate|].
  intros Hkids%first_error_None.
  destruct (start_tag_writable _ _ _ _ _ _ Hs) as [Ht Ha].
  cbn [Spec.content_names].
  constructor; [exact Ht|]. apply Forall_app. split; [exact Ha|].
  apply Forall_concat, Forall_forall.
  intros l (c & -> & [k [-> Hk]]%list_elem_of_fmap)%list_elem_of_fmap.
  rewrite Forall_forall in IH, Hkids. by apply (IH k Hk), Hkids.
Qed.

Lemma names_of_content e :
  concat (map ET.names_of (ET.iter e)) = Spec.content_names (content_of e).
Proof.
  induction e as [i t d a tx tl ch IH] using Element_ind'.
  cbn [ET.iter map concat ET.names_of tag attrib content_of Spec.content_names app].
  f_equal. f_equal. rewrite map_map.
  induction IH as [|c l Hc _ IHl]; [done|].
  cbn [map concat]. by rewrite map_app, concat_app, Hc, IHl.
Qed.

End Names.

(** ** Writing the document *)

Section Write.
Import GPXMerger Builtins.

Lemma add_qname_writable qn st :
  Spec.writable qn = true -> is_Some (ET.add_qname registry qn st).
Proof.
  destruct st as [qnames ns]. unfold Spec.writable, ET.add_qname.
  destruct (Str.after_brace qn) as [rest|]; [|by eexists].
  intros [[uri local] ->]%bool_decide_eq_true.
  destruct (dict_get uri ns); by eexists.
Qed.

Lemma add_all_writable qns st :
  Forall (fun n => Spec.writable n = true) qns ->
  is_Some (ET.add_all registry qns st).
Proof.
  intros H. revert st. induction H as [|qn qns Hq _ IH]; intros st.
  - by eexists.
  - cbn [ET.add_all]. unfold ET.add_if_new.
    destruct (fst st !! qn); [apply IH|].
    destruct (add_qname_writable qn st Hq) as [st' ->]. apply IH.
Qed.

Lemma written_items_Some (qnames : gmap string string) items :
  (forall k, k ∈ map fst items -> is_Some (qnames !! k)) ->
  is_Some (ET.written_items qnames items).
Proof.
  unfold ET.written_items. induction items as [|[k v] items IH]; intros H.
  - by eexists.
  - cbn [all_some fst snd].
    destruct (H k) as [k' ->]; [apply elem_of_cons; by left|].
    destruct IH as [r ->]; [|by eexists].
    intros k0 Hk0. apply H. apply elem_of_cons. by right.
Qed.

Lemma all_some_Some {A B} (f : A -> option B) l :
  Forall (fun x => is_Some (f x)) l -> is_Some (all_some f l).
Proof.
  induction 1 as [|x l [y Hy] _ [r IH]]; [by eexists|].
  cbn [all_some]. rewrite Hy, IH. by eexists.
Qed.

Lemma _serialize_xml_Some (qnames : gmap string string) nso e :
  (forall n, n ∈ concat (map ET.names_of (ET.iter e)) -> is_Some (qnames !! n)) ->
  is_Some (ET._serialize_xml qnames nso e).
Proof.
  revert nso. induction e as [i t d a tx tl ch IH] using Element_ind'.
  intros nso H.
  cbn [ET.iter map concat ET.names_of tag attrib] in H.
  cbn [ET._serialize_xml].
  destruct (H t) as [t' ->]; [apply elem_of_app; left; apply elem_of_cons; by left|].
  destruct (written_items_Some qnames a) as [items ->].
  { intros k Hk. apply H, elem_of_app. left. apply elem_of_cons. by right. }
  destruct (all_some_Some (ET._serialize_xml qnames None) ch) as [kids ->];
    [|by eexists].
  apply Forall_forall. intros c Hc. rewrite Forall_forall in IH.
  apply (IH c Hc). intros n Hn. apply H, elem_of_app. right.
  apply elem_of_concat in Hn as (l & Hn & Hl).
  apply list_elem_of_fmap in Hl as (x & -> & Hx).
  apply elem_of_concat. exists (ET.names_of x). split; [done|].
  apply list_elem_of_fmap_2. apply elem_of_concat. exists (ET.iter c).
  split; [done|]. by apply list_elem_of_fmap_2.
Qed.

(** A document whose names can be written is written. *)
Lemma written_Some doc :
  Forall (fun n => Spec.writable n = true) (Spec.content_names (content_of doc)) ->
  is_Some (Spec.written doc).
Proof.
  intros H. rewrite <- names_of_content in H. unfold Spec.written, ET._namespaces.
  destruct (add_all_writable _ (∅, []) H) as [[qnames ns] Hst]. rewrite Hst.
  apply add_all_inv in Hst as (_ & Hall & _).
  - apply _serialize_xml_Some. exact Hall.
  - unfold Spec.tables_inv. cbn [fst snd]. split; [done|].
    split; [|by intros v; rewrite lookup_empty].
    intros ? _ [? Hx]. by rewrite lookup_empty in Hx.
Qed.

Lemma write_written doc m path w :
  Spec.written doc = Some m -> can_open w path = true ->
  ET.write registry doc path w
  = (Ok tt, mk_world (next_id w) (<[path := Markup m]> (fs w))
                     (stdout w) (stderr w) (utcnow w)
                     (openable w) (stdout_unicode w)).
Proof.
  unfold Spec.written, ET.write.
  destruct (ET._namespaces registry doc) as [[qnames ns]|]; [|discriminate].
  intros -> Ho. unfold write_file. by rewrite Ho.
Qed.

Lemma iter_self e : e ∈ ET.iter e.
Proof.
  destruct e as [i t d a tx tl ch]. cbn [ET.iter]. apply elem_of_cons. by left.
Qed.

Lemma iter_trans x e root :
  x ∈ ET.iter e -> e ∈ ET.iter root -> x ∈ ET.iter root.
Proof.
  intros Hx. induction root as [i t d a tx tl ch IH] using Element_ind'.
  cbn [ET.iter]. intros [->|He]%elem_of_cons; [exact Hx|].
  apply elem_of_cons. right.
  apply elem_of_concat in He as (l & He & Hl).
  apply list_elem_of_fmap in Hl as (c & -> & Hc).
  apply elem_of_concat. exists (ET.iter c). split; [|by apply list_elem_of_fmap_2].
  rewrite Forall_forall in IH. by apply (IH c Hc).
Qed.

Lemma descendants_iter e root : e ∈ ET.descendants root -> e ∈ ET.iter root.
Proof.
  destruct root as [i t d a tx tl ch]. unfold ET.descendants.
  cbn [children ET.iter].
  intros H. apply elem_of_cons. by right.
Qed.

(** The names of an element of a tree are among the names of the tree. *)
Lemma content_names_iter e root :
  e ∈ ET.iter root ->
  forall n, n ∈ Spec.content_names (content_of e) ->
            n ∈ Spec.content_names (content_of root).
Proof.
  intros He n. rewrite <- !names_of_content. rewrite !elem_of_concat.
  intros (l & Hn & Hl). apply list_elem_of_fmap in Hl as (x & -> & Hx).
  exists (ET.names_of x). split; [done|].
  apply list_elem_of_fmap_2. by eapply iter_trans.
Qed.

End Write.

(** ** Sorting lists that agree on their keys *)

Section SortRelated.
Import Builtins.
Context {A B K : Type} (lt : K -> K -> option bool).
Context (keyA : A -> K) (keyB : B -> K) (R : A -> B -> Prop).
Hypothesis R_key : forall a b, R a b -> keyA a = keyB b.

Lemma insert_related a b l1 l2 :
  R a b -> Forall2 R l1 l2 ->
  option_Forall2 (Forall2 R) (insert lt keyA a l1) (insert lt keyB b l2).
Proof.
  intros Hab H. induction H as [|x y l1 l2 Hxy Hl IH]; cbn [insert].
  - constructor. by constructor.
  - rewrite (R_key _ _ Hxy), (R_key _ _ Hab).
    destruct (lt (keyB y) (keyB b)) as [[|]|]; [|constructor..].
    + destruct IH as [s1 s2 Hs|]; cbn [option_map]; constructor. by constructor.
    + constructor; [done|]. by constructor.
Qed.

(** Lists that agree on their keys, element by element, are sorted alike. *)
Lemma sort_related l1 l2 :
  Forall2 R l1 l2 ->
  option_Forall2 (Forall2 R) (sort lt keyA l1) (sort lt keyB l2).
Proof.
  induction 1 as [|a b l1 l2 Hab _ IH]; cbn [sort].
  - constructor. constructor.
  - destruct IH as [s1 s2 Hs|]; [|constructor]. by apply insert_related.
Qed.

End SortRelated.

(** ** The run as a whole *)

Section Merge.
Import GPXMerger.
Variable fromisoformat : string -> option Datetime.datetime.

Local Abbreviation process_file := (GPXMerger.process_file fromisoformat).
Local Abbreviation main := (GPXMerger.main fromisoformat).
Local Abbreviation run := (GPXMerger.run fromisoformat).
Local Abbreviation file_records := (Spec.file_records fromisoformat).
Local Abbreviation file_warnings := (Spec.file_warnings fromisoformat).
Local Abbreviation collected := (Spec.collected fromisoformat).
Local Abbreviation names_writable :=
  (fun e : Element => Forall (fun n => Spec.writable n = true)
                             (Spec.content_names (content_of e))).

(** The listing of the files found, line by line. *)
Lemma print_files_stdout (files : list string) w :
  for_each (fun (_ : unit) f => print ("  - " +:+ f)) files tt w
  = (Ok tt, mk_world (next_id w) (fs w)
              (stdout w ++ map (fun f => "  - " +:+ f) files)
              (stderr w) (utcnow w) (openable w) (stdout_unicode w)).
Proof.
  revert w. induction files as [|f files IH]; intros w; cbn [for_each map].
  - destruct w. cbn. by rewrite app_nil_r.
  - erewrite bind_Ok by (unfold print; reflexivity).
    rewrite IH. cbn. by rewrite <- app_assoc.
Qed.

(** The names of the element of a record that a well-formed document
    yields can be written. *)
Lemma parse_writable f w0 m root w' p :
  fs w0 !! f = Some (Markup m) ->
  ET.parse f w0 = (Ok root, w') ->
  p ∈ omap (Spec.record_of fromisoformat f) (Spec.candidates root) ->
  names_writable (point_elem p).
Proof.
  intros Hm Hr Hp. apply record_of_candidate in Hp as [_ Hp].
  apply descendants_iter in Hp.
  unfold ET.parse, bind, read_file in Hr. rewrite Hm in Hr.
  assert (Hx : Spec.check ET.initial_env m = None).
  { pose proof (build_check ET.initial_env m w0) as Hc. rewrite Hr in Hc.
    destruct (Spec.check ET.initial_env m); [|done]. by destruct Hc. }
  apply build_content in Hr.
  pose proof (content_tree_writable ET.initial_env m Hx) as Hw.
  rewrite <- Hr in Hw. rewrite Forall_forall in Hw. apply Forall_forall.
  intros n Hn. apply Hw. by eapply content_names_iter.
Qed.

Lemma loop_writable files self w self' w' :
  Forall (Spec.readable w) files ->
  for_each process_file files self w = (Ok self', w') ->
  Forall (fun p => names_writable (point_elem p)) (track_points self) ->
  Forall (fun p => names_writable (point_elem p)) (track_points self').
Proof.
  revert self w. induction files as [|f files IH]; intros self w Hall H Hinv.
  - cbn in H. by injection H as <- _.
  - apply Forall_cons in Hall as [Hf Hall].
    cbn [for_each] in H. apply bind_inv_Ok in H as (s1 & w1 & Hp & Hl).
    destruct (process_file_readable fromisoformat self f w Hf)
      as (root & w0 & wp & Hr & Hfs0 & Hp' & Hfs1 & _).
    rewrite Hp in Hp'. injection Hp' as -> ->.
    eapply IH; [|exact Hl|].
    { eapply Forall_impl; [exact Hall|]. intros g.
      by apply readable_same_files. }
    unfold Spec.absorb. cbn [track_points]. apply Forall_app. split; [done|].
    apply Forall_forall. intros p Hp0.
    destruct Hf as ([e|m] & Hm & Hok); [discriminate|].
    eapply parse_writable; [|exact Hr|exact Hp0]. by rewrite Hfs0.
Qed.


(** [main] on well-formed documents, up to the sort. *)
Lemma main_collects files output w :
  files <> [] -> Forall (Spec.readable w) files ->
  exists self w1 w2,
    main files output w
    = bind (sort_by_timestamp self) (fun m => merge_to_file m output) w2
    /\ fs w1 = fs w
    /\ for_each process_file files __init__ w1 = (Ok self, w2)
    /\ map Spec.timed (track_points self) = map Spec.timed (collected w files)
    /\ fs w2 = fs w /\ utcnow w2 = utcnow w
    /\ stdout w2
       = stdout w
         ++ ("Found " +:+ Str.of_nat (length files) +:+ " GPX file(s) to merge:")
            :: map (fun f => "  - " +:+ f) files
         ++ map (fun f => "Processing: " +:+ f) files
    /\ stderr w2 = stderr w ++ concat (map (file_warnings w) files)
    /\ metadata self = Spec.first_nonempty (map (Spec.file_metadata w) files)
    /\ openable w2 = openable w /\ stdout_unicode w2 = stdout_unicode w.
Proof.
  intros Hne Hall. unfold GPXMerger.main.
  destruct files as [|f0 files0] eqn:Hfiles; [done|].
  rewrite <- Hfiles in *. clear Hfiles Hne f0 files0.
  erewrite bind_Ok by (unfold print; reflexivity).
  erewrite bind_Ok by apply print_files_stdout.
  match goal with
  | |- context [bind (for_each _ files __init__) _ ?w0] => set (w1 := w0)
  end.
  destruct (loop_collects fromisoformat files __init__ w1)
    as (self & w2 & Hl & Htp & Hfs & Hnow & Hout & Herr & Hmd & Hop & Hsu).
  { eapply Forall_impl; [exact Hall|]. intros g. by apply readable_same_files. }
  destruct (collected_same_files fromisoformat files w1 w) as [Hc Hw]; [done|].
  exists self, w1, w2. erewrite bind_Ok by exact Hl.
  split; [reflexivity|]. split; [reflexivity|]. split; [exact Hl|].
  split; [by rewrite Htp, Hc|]. split; [exact Hfs|]. split; [exact Hnow|].
  split; [|split; [|split; [|split; [exact Hop|exact Hsu]]]].
  - rewrite Hout. subst w1. cbn [stdout]. by rewrite <- !app_assoc.
  - rewrite Herr, Hw. reflexivity.
  - rewrite Hmd. cbn [__init__ metadata]. rewrite bool_decide_eq_true_2 by done.
    f_equal. apply map_ext. intros g. by apply file_metadata_same_files.
Qed.

Lemma map_timed_Forall2 (l1 l2 : list point) :
  map Spec.timed l1 = map Spec.timed l2 ->
  Forall2 (fun p q => Spec.timed p = Spec.timed q) l1 l2.
Proof.
  intros H. symmetry in H. apply (map_eq_Forall2 Spec.timed Spec.timed) in H.
  eapply Forall2_impl; [exact H|]. by intros ?? ->.
Qed.

Lemma timed_timestamp p q : Spec.timed p = Spec.timed q -> timestamp p = timestamp q.
Proof. unfold Spec.timed. by intros [= -> _ _]. Qed.

Lemma timed_content p q :
  Spec.timed p = Spec.timed q ->
  content_of (point_elem p) = content_of (point_elem q).
Proof. unfold Spec.timed. by intros [= _ -> _]. Qed.

(** The sort of the collection of a run and the sort of the records of the
    files, read on their own, go the same way. *)
Lemma sort_timed (l1 l2 : list point) :
  map Spec.timed l1 = map Spec.timed l2 ->
  option_Forall2 (Forall2 (fun p q => Spec.timed p = Spec.timed q))
    (Builtins.sort Datetime.__lt__ timestamp l1)
    (Builtins.sort Datetime.__lt__ timestamp l2).
Proof.
  intros H. apply sort_related; [apply timed_timestamp|].
  by apply map_timed_Forall2.
Qed.


(** X4. A run on well-formed documents that yield no timed point at all
    writes nothing, prints (after the warnings) the error that there is no
    point to merge, and ends with status 0. *)
Theorem run_with_no_timed_point files output w :
  files <> [] -> Forall (Spec.readable w) files ->
  collected w files = [] ->
  exists w',
    run files output w = (0%Z, w')
    /\ fs w' = fs w
    /\ stderr w'
       = stderr w ++ concat (map (file_warnings w) files)
         ++ ["Error: No track points found to merge."].
Proof.
  intros Hne Hall Hnone.
  destruct (main_collects files output w Hne Hall)
    as (self & w1 & w2 & Hm & _ & _ & Htp & Hfs & _ & _ & Herr & _).
  rewrite Hnone in Htp. apply map_eq_nil in Htp.
  unfold GPXMerger.run. rewrite Hm.
  unfold bind, sort_by_timestamp. rewrite Htp. cbn [Builtins.sort ret].
  cbn [merge_to_file track_points print_stderr exit_status].
  eexists. split; [reflexivity|]. cbn [fs stderr]. split; [exact Hfs|].
  by rewrite Herr, <- app_assoc.
Qed.

(** X5. A run on well-formed documents among whose timed points one
    carries an offset and one does not ends in the sort, with a [TypeError]
    that [main] does not catch: status 1, and nothing written. *)
Theorem run_with_mixed_timestamps files output w p q :
  Forall (Spec.readable w) files ->
  p ∈ collected w files -> q ∈ collected w files ->
  Datetime.aware (timestamp p) <> Datetime.aware (timestamp q) ->
  exists msg w',
    main files output w = (Raise (TypeError msg), w')
    /\ run files output w = (1%Z, w')
    /\ fs w' = fs w.
Proof.
  intros Hall Hp Hq Hpq.
  assert (Hne : files <> []) by (intros ->; by apply elem_of_nil in Hp).
  destruct (main_collects files output w Hne Hall)
    as (self & w1 & w2 & Hm & _ & _ & Htp & Hfs & _ & _ & Herr & _).
  assert (Hin : forall x, x ∈ collected w files ->
            exists y, y ∈ track_points self /\ timestamp y = timestamp x).
  { intros x Hx. apply (list_elem_of_fmap_2 Spec.timed) in Hx.
    change (Spec.timed <$> collected w files) with (map Spec.timed (collected w files)) in Hx.
    rewrite <- Htp in Hx.
    apply list_elem_of_fmap in Hx as (y & Hy & Hin). exists y. split; [done|].
    symmetry. by apply timed_timestamp. }
  destruct (Hin p Hp) as (p' & Hp' & Ep), (Hin q Hq) as (q' & Hq' & Eq).
  assert (Hs : Builtins.sort Datetime.__lt__ timestamp (track_points self) = None).
  { apply (sort_mixed _ p' q'); [done..|]. by rewrite Ep, Eq. }
  unfold GPXMerger.run. rewrite Hm.
  unfold bind at 1. unfold sort_by_timestamp. rewrite Hs. cbn [raise exit_status].
  eexists _, _. by repeat split.
Qed.

Lemma sort_comparable (l : list point) :
  Spec.comparable l ->
  exists s,
    Builtins.sort Datetime.__lt__ timestamp l = Some s
    /\ s ≡ₚ l /\ Spec.non_decreasing s
    /\ forall t, Spec.at_instant t s = Spec.at_instant t l.
Proof.
  intros Hc.
  destruct (sort_by_timestamp_Ok (mk_merger l ∅)
              (mk_world 0 ∅ [] [] "" (fun _ => true) true) Hc) as (s & Hs & _ & Hp & Hn & Hf).
  unfold sort_by_timestamp in Hs. cbn [track_points] in *.
  destruct (Builtins.sort Datetime.__lt__ timestamp l) as [s'|]; [|discriminate].
  injection Hs as <-. by exists s'.
Qed.

Lemma document_writable n name desc now cs :
  Forall names_writable cs ->
  names_writable (Spec.document n name desc now cs).
Proof.
  intros H. cbn [Spec.document content_of map Spec.content_names concat app fst].
  rewrite !app_nil_r.
  repeat (constructor; [reflexivity|]).
  apply Forall_concat, Forall_forall.
  intros l (c & -> & [e [-> He]]%list_elem_of_fmap)%list_elem_of_fmap.
  rewrite Forall_forall in H. by apply H.
Qed.

(** The end of a run, from a collection that can be sorted and written. *)
Lemma sort_and_merge self output w recs :
  map Spec.timed (track_points self) = map Spec.timed recs ->
  Forall (fun p => names_writable (point_elem p)) (track_points self) ->
  Spec.comparable recs -> recs <> [] ->
  can_open w output = true -> stdout_unicode w = true ->
  exists sorted cs m w',
    bind (sort_by_timestamp self) (fun m => merge_to_file m output) w = (Ok tt, w')
    /\ sorted ≡ₚ recs
    /\ Spec.non_decreasing sorted
    /\ (forall t, Spec.at_instant t sorted = Spec.at_instant t recs)
    /\ map content_of cs = map (fun p => content_of (point_elem p)) sorted
    /\ Spec.written
         (Spec.document (next_id w) (Spec.output_name self)
            (Spec.output_desc self) (utcnow w) cs) = Some m
    /\ fs w' = <[output := Markup m]> (fs w)
    /\ stdout w'
       = stdout w
         ++ ["✓ Merged GPX file created: " +:+ output;
             "  Total track points merged: " +:+ Str.of_nat (length sorted)]
    /\ stderr w' = stderr w.
Proof.
  intros Htp Hself Hc Hne Hopen Hsu.
  destruct (sort_comparable _ Hc) as (s0 & Hs0 & Hp0 & Hn0 & Hf0).
  pose proof (sort_timed (track_points self) _ Htp) as Hrel.
  rewrite Hs0 in Hrel.
  destruct (Builtins.sort Datetime.__lt__ timestamp (track_points self))
    as [s'|] eqn:Hs'; [|by inversion Hrel].
  inversion Hrel as [? ? Hrel'|]; subst. clear Hrel. rename Hrel' into Hrel.
  assert (Hw : Forall (fun p => names_writable (point_elem p)) s').
  { apply Forall_forall. intros p Hp.
    apply (sort_elem_of _ _ _ _ Hs') in Hp.
    rewrite Forall_forall in Hself. by apply Hself. }
  assert (Hne' : s' <> []).
  { intros ->. apply Forall2_nil_inv_l in Hrel. subst s0.
    apply Permutation_nil_l in Hp0. by apply Hne. }
  set (sorted := mk_merger s' (metadata self)).
  destruct (build_document_spec sorted w) as (cs & Hb & Hconts & _).
  unfold sorted in Hconts at 1. cbn [track_points] in Hconts.
  assert (Hcs : Forall names_writable cs).
  { clear -Hconts Hw.
    apply (map_eq_Forall2 content_of (fun p => content_of (point_elem p))) in Hconts.
    induction Hconts as [|p c l k Hpc _ IH]; [constructor|].
    apply Forall_cons in Hw as [Hp Hw]. constructor; [|by apply IH].
    cbn. by rewrite Hpc. }
  destruct (written_Some _ (document_writable (next_id w) (Spec.output_name sorted)
                              (Spec.output_desc sorted) (utcnow w) cs Hcs))
    as [m Hwr].
  exists s0, cs, m.
  eexists. unfold bind at 1. unfold sort_by_timestamp at 1.
  rewrite Hs'. cbn [ret]. fold sorted.
  rewrite (merge_to_file_nonempty sorted output) by exact Hne'.
  erewrite bind_Ok by exact Hb.
  erewrite bind_Ok by (apply write_written; [exact Hwr|exact Hopen]).
  erewrite bind_Ok
    by (unfold print_check_mark; cbn [stdout_unicode Spec.advance];
        rewrite Hsu; unfold print; reflexivity).
  unfold print at 1.
  split; [reflexivity|]. split; [exact Hp0|]. split; [exact Hn0|].
  split; [exact Hf0|]. split.
  { rewrite Hconts. clear -Hrel.
    induction Hrel as [|p q l k Hpq _ IH]; [done|].
    cbn [map]. by rewrite IH, (timed_content _ _ Hpq). }
  split; [exact Hwr|]. cbn [fs stdout stderr Spec.advance].
  split; [reflexivity|]. split; [|reflexivity].
  rewrite <- app_assoc. cbn [app]. subst sorted. cbn [track_points].
  rewrite (Forall2_length _ _ _ Hrel). reflexivity.
Qed.

(** [main] on well-formed documents whose timed points compare and are at
    least one, when the output path opens and the standard output takes the
    check mark. *)
Lemma main_merges files output w :
  Forall (Spec.readable w) files ->
  Spec.comparable (collected w files) -> collected w files <> [] ->
  can_open w output = true -> stdout_unicode w = true ->
  exists sorted cs n m w',
    main files output w = (Ok tt, w')
    /\ sorted ≡ₚ collected w files
    /\ Spec.non_decreasing sorted
    /\ (forall t, Spec.at_instant t sorted = Spec.at_instant t (collected w files))
    /\ map content_of cs = map (fun p => content_of (point_elem p)) sorted
    /\ Spec.written
         (Spec.document n
            (Spec.output_name
               (mk_merger sorted
                  (Spec.first_nonempty (map (Spec.file_metadata w) files))))
            (Spec.output_desc
               (mk_merger sorted
                  (Spec.first_nonempty (map (Spec.file_metadata w) files))))
            (utcnow w) cs) = Some m
    /\ fs w' = <[output := Markup m]> (fs w)
    /\ stdout w'
       = stdout w
         ++ ("Found " +:+ Str.of_nat (length files) +:+ " GPX file(s) to merge:")
            :: map (fun f => "  - " +:+ f) files
         ++ map (fun f => "Processing: " +:+ f) files
         ++ ["✓ Merged GPX file created: " +:+ output;
             "  Total track points merged: " +:+ Str.of_nat (length sorted)]
    /\ stderr w' = stderr w ++ concat (map (file_warnings w) files).
Proof.
  intros Hall Hc Hne Hopen Hsu.
  assert (Hfiles : files <> []) by (intros ->; by apply Hne).
  destruct (main_collects files output w Hfiles Hall)
    as (self & w1 & w2 & Hm & Hfs1 & Hl & Htp & Hfs & Hnow & Hout & Herr & Hmd
        & Hop2 & Hsu2).
  assert (Hself : Forall (fun p => names_writable (point_elem p)) (track_points self)).
  { apply (loop_writable files __init__ w1 self w2);
      [|exact Hl|constructor].
    eapply Forall_impl; [exact Hall|]. intros g.
    by apply readable_same_files. }
  assert (Hopen2 : can_open w2 output = true).
  { unfold can_open in *. by rewrite Hop2. }
  assert (Hsu2' : stdout_unicode w2 = true) by congruence.
  destruct (sort_and_merge self output w2 _ Htp Hself Hc Hne Hopen2 Hsu2')
    as (sorted & cs & m & w' & Hsm & Hp & Hn & Hf & Hcs & Hwr & Hfs' & Hout' & Herr').
  exists sorted, cs, (next_id w2), m, w'. rewrite Hm.
  split; [exact Hsm|]. do 4 (split; [assumption|]).
  rewrite <- Hnow, <- Hmd. split; [exact Hwr|].
  split; [by rewrite Hfs', Hfs|]. split; [|by rewrite Herr', Herr].
  rewrite Hout', Hout, <- !app_assoc. cbn [app].
  rewrite <- !app_assoc. reflexivity.
Qed.


(** X1. A run on well-formed documents whose timed points compare and
    are at least one, when the output path opens and the standard output
    takes the check mark, ends with status 0 and writes at the output path
    what [ET.write] makes of a document of the layout [Spec.document],
    whose segment holds one element per timed point of the inputs, with the
    content of that point, ordered by instant; points of one instant stand
    in the order of the command line and, within a file, of the
    extraction. *)
Theorem run_merges files output w :
  Forall (Spec.readable w) files ->
  Spec.comparable (collected w files) -> collected w files <> [] ->
  can_open w output = true -> stdout_unicode w = true ->
  exists sorted cs n name desc m w',
    run files output w = (0%Z, w')
    /\ sorted ≡ₚ collected w files
    /\ Spec.non_decreasing sorted
    /\ (forall t, Spec.at_instant t sorted = Spec.at_instant t (collected w files))
    /\ map content_of cs = map (fun p => content_of (point_elem p)) sorted
    /\ Spec.output_points (Spec.document n name desc (utcnow w) cs) = cs
    /\ Spec.written (Spec.document n name desc (utcnow w) cs) = Some m
    /\ fs w' = <[output := Markup m]> (fs w).
Proof.
  intros Hall Hc Hne Hopen Hsu.
  destruct (main_merges files output w Hall Hc Hne Hopen Hsu)
    as (sorted & cs & n & m & w' & Hm & Hp & Hn & Hf & Hcs & Hw & Hfs & _).
  exists sorted, cs, n. eexists _, _, m, w'. unfold GPXMerger.run. rewrite Hm.
  cbn [exit_status]. split; [reflexivity|]. do 4 (split; [assumption|]).
  split; [reflexivity|]. split; [exact Hw|exact Hfs].
Qed.



End Merge.


(** ** More on runs *)

Section RunFacts.
Import GPXMerger.
Variable fromisoformat : string -> option Datetime.datetime.

Local Abbreviation process_file := (GPXMerger.process_file fromisoformat).
Local Abbreviation main := (GPXMerger.main fromisoformat).
Local Abbreviation run := (GPXMerger.run fromisoformat).

(** X7. A run changes no file but the one at the output path, and what it
    leaves there is never a well-formed document. *)
Theorem run_writes_no_well_formed_document files output w :
  fs (run files output w).2 = fs w
  \/ exists c msg,
       fs (run files output w).2 = <[output := c]> (fs w)
       /\ Spec.parse_error c = Some msg.
Proof.
  unfold GPXMerger.run.
  destruct (main files output w) as [r w'] eqn:Hm. cbn [snd].
  exact (main_writes_no_well_formed_document fromisoformat _ _ _ _ _ Hm).
Qed.

(** X9. Sorting a collection that has been sorted changes nothing. *)
Theorem sort_by_timestamp_idempotent self sorted w w' :
  sort_by_timestamp self w = (Ok sorted, w') ->
  sort_by_timestamp sorted w' = (Ok sorted, w').
Proof.
  intros Hs.
  destruct (sort_by_timestamp_inv _ _ _ _ Hs) as [-> Hc].
  destruct (sort_by_timestamp_Ok self w Hc) as (s1 & Hs1 & _ & Hp & Hn & Hf).
  rewrite Hs in Hs1. injection Hs1 as <-.
  assert (Hc' : Spec.comparable (track_points sorted)).
  { destruct Hc as [Hc|Hc]; [left|right]; by rewrite Hp. }
  destruct (sort_by_timestamp_Ok sorted w Hc') as (s2 & Hs2 & Hm2 & _ & Hn2 & Hf2).
  rewrite Hs2. do 2 f_equal.
  destruct s2 as [l2 m2], sorted as [l m]. cbn [track_points metadata] in *.
  subst m2. f_equal.
  by apply (stable_sorted_unique Spec.instant_of).
Qed.

Lemma loop_missing pre f post self w :
  Forall (Spec.readable w) pre -> fs w !! f = None ->
  exists w',
    for_each process_file (pre ++ f :: post) self w = (Raise (SystemExit 1), w')
    /\ fs w' = fs w
    /\ last (stderr w') = Some ("Error: GPX file not found: " +:+ f).
Proof.
  intros Hpre Hf.
  destruct (loop_readable fromisoformat pre self w Hpre) as (self1 & w1 & Hl & Hfs & _ & _).
  destruct (process_file_spec fromisoformat self1 f w1) as (w' & Hpf & Hfs' & _ & _).
  rewrite Hfs, Hf in Hpf. destruct Hpf as (Hpf & Hlast).
  exists w'. rewrite for_each_app. erewrite bind_Ok by exact Hl.
  cbn [for_each]. erewrite bind_Raise by exact Hpf.
  repeat split; [congruence|done].
Qed.

(** X6. When an input file does not exist, and those before it are
    well-formed, the run ends with status 1 and the error that names the
    file, and nothing is written. *)
Theorem missing_file_aborts_run pre f post output w :
  Forall (Spec.readable w) pre -> fs w !! f = None ->
  exists w',
    run (pre ++ f :: post) output w = (1%Z, w')
    /\ fs w' = fs w
    /\ last (stderr w') = Some ("Error: GPX file not found: " +:+ f).
Proof.
  intros Hpre Hf. unfold GPXMerger.run, GPXMerger.main.
  destruct (pre ++ f :: post) as [|g rest] eqn:Hin; [by destruct pre|].
  rewrite <- Hin.
  erewrite bind_Ok by (unfold print; reflexivity).
  match goal with
  | |- context [bind (for_each _ (pre ++ f :: post) tt) _ ?w0] =>
      destruct (print_files (pre ++ f :: post) w0) as (w1 & Hp & Hfs1 & _ & _ & _)
  end.
  erewrite bind_Ok by exact Hp. cbn [fs] in Hfs1.
  destruct (loop_missing pre f post __init__ w1) as (w' & Hl & Hfs' & Hlast).
  { eapply Forall_impl; [exact Hpre|]. intros h. by apply readable_same_files. }
  { by rewrite Hfs1. }
  exists w'. erewrite bind_Raise by exact Hl.
  cbn [exit_status]. repeat split; [congruence|done].
Qed.

End RunFacts.

(** ** The objects of the collection *)

Section Objects.
Import GPXMerger.
Variable fromisoformat : string -> option Datetime.datetime.

Local Abbreviation parse_gpx_file := (GPXMerger.parse_gpx_file fromisoformat).
Local Abbreviation process_file := (GPXMerger.process_file fromisoformat).

(** The objects of an element of a tree are objects of the tree. *)
Lemma objects_iter e root :
  e ∈ ET.iter root -> forall i, i ∈ objects e -> i ∈ objects root.
Proof.
  induction root as [n t d a tx tl ch IH] using Element_ind'.
  cbn [ET.iter]. intros [->|He]%elem_of_cons i Hi; [exact Hi|].
  cbn [objects]. do 2 (apply elem_of_cons; right).
  apply elem_of_concat in He as (l & He & Hl).
  apply list_elem_of_fmap in Hl as (c & -> & Hc).
  apply elem_of_concat. exists (objects c). split; [|by apply list_elem_of_fmap_2].
  rewrite Forall_forall in IH. by apply (IH c Hc).
Qed.

(** The records of a document are records of its file, each determined by
    its element, which is a point of the tree. *)
Lemma record_of_inv file root p :
  p ∈ omap (Spec.record_of fromisoformat file) (Spec.candidates root) ->
  source_file p = file
  /\ Spec.record_of fromisoformat file (point_elem p) = Some p
  /\ Spec.gpx_point (point_elem p)
  /\ point_elem p ∈ ET.iter root.
Proof.
  intros Hp. destruct (record_of_candidate fromisoformat file root p Hp) as [Hg Hd].
  apply list_elem_of_omap in Hp as (e & He & Hp).
  assert (point_elem p = e /\ source_file p = file) as [<- Hf].
  { unfold Spec.record_of in Hp.
    destruct (Spec.timestamp_text e); [|discriminate].
    destruct (Spec.parse_timestamp _ _); [|discriminate]. by injection Hp as <-. }
  split; [done|]. split; [done|]. split; [done|]. by apply descendants_iter.
Qed.

(** X11. [parse_gpx_file], when it returns, has only appended to the
    collection: the records before are in place, and every new record
    names the file, is the record of its element, which is a [trkpt] or a
    [wpt] of the format made of objects created by this call.  No file is
    written and nothing goes to the standard output. *)
Theorem parse_gpx_file_appends self f w self' w' :
  parse_gpx_file self f w = (Ok self', w') ->
  exists new,
    track_points self' = track_points self ++ new
    /\ Forall (fun p =>
                 source_file p = f
                 /\ Spec.record_of fromisoformat f (point_elem p) = Some p
                 /\ Spec.gpx_point (point_elem p)
                 /\ Forall (fun i => next_id w <= i < next_id w')%nat
                           (objects (point_elem p))) new
    /\ fs w' = fs w /\ stdout w' = stdout w.
Proof.
  intros H. pose proof (parse_gpx_file_spec fromisoformat self f w) as Hs.
  destruct (fs w !! f) as [c|]; [|congruence].
  destruct (Spec.parse_error c) as [msg|].
  { destruct Hs as (k & Hk). congruence. }
  destruct Hs as (root & Hr & Hobj & Hp). rewrite H in Hp.
  injection Hp as -> ->.
  eexists. split; [reflexivity|]. split; [|done].
  apply Forall_forall. intros p Hp.
  destruct (record_of_inv f root p Hp) as (Hf & Hrec & Hg & Hin).
  do 3 (split; [done|]). apply Forall_forall. intros i Hi.
  apply (objects_iter _ _ Hin) in Hi. rewrite Hobj in Hi.
  apply elem_of_seq in Hi. cbn [Spec.with_stderr Spec.advance next_id]. lia.
Qed.

Lemma allocated_mono w w' l :
  (next_id w <= next_id w')%nat -> Spec.allocated w l -> Spec.allocated w' l.
Proof.
  intros Hle H. unfold Spec.allocated in *.
  eapply Forall_impl; [exact H|]. intros p Hp. cbn beta in Hp |- *.
  eapply Forall_impl; [exact Hp|]. intros i Hi. cbn beta in Hi |- *. lia.
Qed.

(** The loop keeps the collection made of objects that exist. *)
Lemma loop_allocated files self w self' w' :
  for_each process_file files self w = (Ok self', w') ->
  Spec.allocated w (track_points self) ->
  Spec.allocated w' (track_points self').
Proof.
  revert self w. induction files as [|f files IH]; intros self w H Hall.
  - cbn in H. by injection H as <- <-.
  - cbn [for_each] in H. apply bind_inv_Ok in H as (s1 & w1 & Hf & Hl).
    apply process_file_Ok_inv in Hf as (root & -> & Hobj & Hle).
    apply (IH _ _ Hl). unfold Spec.absorb. cbn [track_points].
    apply Forall_app. split; [by apply (allocated_mono w)|].
    apply Forall_forall. intros p Hp.
    destruct (record_of_inv f root p Hp) as (_ & _ & _ & Hin).
    apply Forall_forall. intros i Hi.
    apply (objects_iter _ _ Hin) in Hi. rewrite Forall_forall in Hobj.
    specialize (Hobj i Hi). lia.
Qed.

(** X12. In a run, the collection is made of objects that exist when the
    document is built, so that the copies in the output document share no
    object with any element of the collection. *)
Theorem run_copies_are_independent files w self w1 sorted w2 :
  for_each process_file files __init__ w = (Ok self, w1) ->
  sort_by_timestamp self w1 = (Ok sorted, w2) ->
  Spec.allocated w2 (track_points sorted)
  /\ exists doc w3,
       build_document sorted w2 = (Ok doc, w3)
       /\ forall c q, c ∈ Spec.output_points doc -> q ∈ track_points sorted ->
                      Spec.independent c (point_elem q).
Proof.
  intros Hl Hs.
  assert (Hall : Spec.allocated w2 (track_points sorted)).
  { pose proof (loop_allocated _ _ _ _ _ Hl (Forall_nil_2 _)) as Ha.
    destruct (sort_by_timestamp_inv _ _ _ _ Hs) as [-> _].
    eapply sort_by_timestamp_Forall; [exact Hs|exact Ha]. }
  split; [exact Hall|].
  destruct (build_document_spec sorted w2) as (cs & Hb & _ & Hobjs).
  eexists _, _. split; [exact Hb|].
  change (Spec.output_points (Spec.document _ _ _ _ cs)) with cs.
  intros c q Hc Hq i Hi Hiq.
  assert (Hfresh : (next_id w2 + 16 <= i)%nat).
  { assert (i ∈ concat (map objects cs)) as Hin.
    { apply elem_of_concat. exists (objects c). split; [done|].
      by apply (list_elem_of_fmap_2 objects). }
    rewrite Hobjs in Hin. apply elem_of_seq in Hin. lia. }
  unfold Spec.allocated in Hall. rewrite Forall_forall in Hall.
  specialize (Hall q Hq). rewrite Forall_forall in Hall.
  specialize (Hall i Hiq). lia.
Qed.

End Objects.

(** ** The example of use *)

Section Example.
Import GPXMerger ExampleUsage.
Variable fromisoformat : string -> option Datetime.datetime.

Local Abbreviation load_file := (ExampleUsage.load_file fromisoformat).
Local Abbreviation example_merge := (ExampleUsage.example_merge fromisoformat).
Local Abbreviation file_records := (Spec.file_records fromisoformat).
Local Abbreviation file_warnings := (Spec.file_warnings fromisoformat).
Local Abbreviation collected := (Spec.collected fromisoformat).
Local Abbreviation names_writable :=
  (fun e : Element => Forall (fun n => Spec.writable n = true)
                             (Spec.content_names (content_of e))).

Lemma first_nonempty_cons (md0 md : gmap string (option string)) l :
  (if bool_decide ((if bool_decide (md0 = ∅) then md else md0) = ∅)
   then Spec.first_nonempty l
   else if bool_decide (md0 = ∅) then md else md0)
  = if bool_decide (md0 = ∅) then Spec.first_nonempty (md :: l) else md0.
Proof.
  unfold Spec.first_nonempty. rewrite filter_cons.
  destruct (decide (md0 = ∅)) as [E0|E0].
  - rewrite !(bool_decide_eq_true_2 _ E0).
    destruct (decide (md = ∅)) as [E|E].
    + rewrite (bool_decide_eq_true_2 _ E).
      rewrite decide_False by (by intros HE; apply HE). reflexivity.
    + rewrite (bool_decide_eq_false_2 _ E).
      rewrite decide_True by done. reflexivity.
  - rewrite !(bool_decide_eq_false_2 _ E0). reflexivity.
Qed.

(** A file that is missing or not well-formed yields no record, no warning
    and no metadata. *)
Lemma unreadable_yields_nothing w f :
  ~ Spec.readable w f ->
  file_records w f = [] /\ file_warnings w f = [] /\ Spec.file_metadata w f = ∅.
Proof.
  intros Hn. unfold Spec.file_records, Spec.file_warnings, Spec.file_metadata.
  destruct (fs w !! f) as [c|] eqn:Hc.
  - pose proof (parse_check f w c Hc) as Hparse.
    destruct (Spec.parse_error c) as [msg|] eqn:Hmsg.
    + destruct Hparse as (k & ->). done.
    + destruct Hn. by exists c.
  - unfold ET.parse, bind, read_file. rewrite Hc. done.
Qed.

(** One turn of the loop of [example_merge]: whatever the file, the turn
    returns, with one line printed; a file that does not parse leaves the
    merger as it was. *)
Lemma load_file_spec self f w :
  exists self1 w1,
    load_file self f w = (Ok self1, w1)
    /\ fs w1 = fs w /\ utcnow w1 = utcnow w
    /\ openable w1 = openable w /\ stdout_unicode w1 = stdout_unicode w
    /\ stdout w1 = stdout w ++ [Spec.load_report w f]
    /\ stderr w1 = stderr w ++ file_warnings w f
    /\ track_points self1 = track_points self ++ file_records w f
    /\ (metadata self1
        = if bool_decide (metadata self = ∅) then Spec.file_metadata w f
          else metadata self)
    /\ (~ Spec.readable w f -> self1 = self)
    /\ (Forall (fun p => names_writable (point_elem p)) (track_points self) ->
        Forall (fun p => names_writable (point_elem p)) (track_points self1)).
Proof.
  unfold ExampleUsage.load_file, try_except, Spec.load_report,
    Spec.file_records, Spec.file_warnings, Spec.file_metadata.
  pose proof (parse_gpx_file_spec fromisoformat self f w) as Hp.
  destruct (fs w !! f) as [c|] eqn:Hc.
  - pose proof (parse_check f w c Hc) as Hparse.
    destruct (Spec.parse_error c) as [msg|] eqn:Hmsg.
    + destruct Hp as (k & Hp), Hparse as (k' & ->).
      erewrite bind_Raise by exact Hp. cbn [str_exn].
      eexists _, _. split; [reflexivity|]. cbn. rewrite !app_nil_r.
      do 7 (split; [reflexivity|]). split; [|done].
      destruct (decide (metadata self = ∅)) as [E|E];
        [by rewrite (bool_decide_eq_true_2 _ E)
        |by rewrite (bool_decide_eq_false_2 _ E)].
    + destruct Hp as (root & Hr & _ & Hp). clear Hparse. rewrite Hr.
      erewrite bind_Ok by exact Hp.
      eexists _, _. split; [reflexivity|]. cbn.
      do 7 (split; [reflexivity|]). split; [|split].
      * destruct (decide (metadata self = ∅)) as [E|E].
        -- rewrite !(bool_decide_eq_true_2 _ E).
           by apply _extract_metadata_empty.
        -- by rewrite !(bool_decide_eq_false_2 _ E).
      * intros Hn. destruct Hn. by exists c.
      * intros Hinv. apply Forall_app. split; [done|].
        destruct c as [e|m]; [discriminate|].
        apply Forall_forall. intros p Hp0.
        by eapply (parse_writable fromisoformat f w m root).
  - assert (exists e, ET.parse f w = (Raise e, w)) as [e ->].
    { unfold ET.parse, bind, read_file. rewrite Hc. by eexists. }
    erewrite bind_Raise by exact Hp.
    eexists _, _. split; [reflexivity|]. cbn. rewrite !app_nil_r.
    do 7 (split; [reflexivity|]). split; [|done].
    destruct (decide (metadata self = ∅)) as [E|E];
      [by rewrite (bool_decide_eq_true_2 _ E)
      |by rewrite (bool_decide_eq_false_2 _ E)].
Qed.

(** The loop of [example_merge], in closed form. *)
Lemma load_loop files self w :
  exists self' w' new,
    for_each load_file files self w = (Ok self', w')
    /\ fs w' = fs w /\ utcnow w' = utcnow w
    /\ openable w' = openable w /\ stdout_unicode w' = stdout_unicode w
    /\ stdout w' = stdout w ++ map (Spec.load_report w) files
    /\ stderr w' = stderr w ++ concat (map (file_warnings w) files)
    /\ track_points self' = track_points self ++ new
    /\ map Spec.timed new = map Spec.timed (collected w files)
    /\ (metadata self'
        = if bool_decide (metadata self = ∅)
          then Spec.first_nonempty (map (Spec.file_metadata w) files)
          else metadata self)
    /\ (Forall (fun f => ~ Spec.readable w f) files -> self' = self)
    /\ (Forall (fun p => names_writable (point_elem p)) (track_points self) ->
        Forall (fun p => names_writable (point_elem p)) (track_points self')).
Proof.
  revert self w. induction files as [|f files IH]; intros self w.
  - exists self, w, []. unfold Spec.collected. cbn [for_each map concat].
    rewrite !app_nil_r. do 9 (split; [reflexivity|]).
    split; [|done].
    destruct (decide (metadata self = ∅)) as [E|E];
      [by rewrite (bool_decide_eq_true_2 _ E)
      |by rewrite (bool_decide_eq_false_2 _ E)].
  - destruct (load_file_spec self f w)
      as (self1 & w1 & Hf & Hfs1 & Hnow1 & Hop1 & Hsu1 & Hout1 & Herr1 & Htp1
          & Hmd1 & Hsame1 & Hinv1).
    destruct (IH self1 w1)
      as (self' & w' & new & Hl & Hfs' & Hnow' & Hop' & Hsu' & Hout' & Herr'
          & Htp' & Hnew' & Hmd' & Hsame' & Hinv').
    exists self', w', (file_records w f ++ new).
    cbn [for_each]. erewrite bind_Ok by exact Hf.
    destruct (collected_same_files fromisoformat files w1 w Hfs1) as [Hc Hw].
    split; [exact Hl|]. do 4 (split; [congruence|]).
    split; [|split; [|split; [|split; [|split; [|split]]]]].
    + rewrite Hout', Hout1, <- app_assoc. cbn [map app]. do 2 f_equal.
      apply map_ext. intros g. unfold Spec.load_report. by rewrite Hfs1.
    + rewrite Herr', Herr1, Hw, <- app_assoc. reflexivity.
    + by rewrite Htp', Htp1, <- app_assoc.
    + unfold Spec.collected. cbn [map concat].
      rewrite !map_app. f_equal. rewrite Hnew', Hc. reflexivity.
    + rewrite Hmd', Hmd1. cbn [map].
      assert (Hrest : map (Spec.file_metadata w1) files
                      = map (Spec.file_metadata w) files).
      { apply map_ext. intros g. apply file_metadata_same_files.
        by rewrite Hfs1. }
      rewrite Hrest. apply first_nonempty_cons.
    + intros Hx. apply Forall_cons in Hx as [Hxf Hx].
      rewrite <- (Hsame1 Hxf). apply Hsame'.
      eapply Forall_impl; [exact Hx|]. intros g Hg Hr. apply Hg.
      eapply readable_same_files; [|exact Hr]. by symmetry.
    + intros Hinv. by apply Hinv', Hinv1.
Qed.



End Example.

(** ** More runs on sample documents *)

Section FurtherScenarios.
Import GPXMerger.

Local Abbreviation two := (Examples.world_of Examples.two_documents).

Lemma run_merges_witness :
  exists sorted cs n name desc m w',
    run Iso8601.fromisoformat ["a.gpx"; "b.gpx"] "merged.gpx" two = (0%Z, w')
    /\ sorted ≡ₚ Spec.collected Iso8601.fromisoformat two ["a.gpx"; "b.gpx"]
    /\ Spec.non_decreasing sorted
    /\ (forall t, Spec.at_instant t sorted
                  = Spec.at_instant t
                      (Spec.collected Iso8601.fromisoformat two ["a.gpx"; "b.gpx"]))
    /\ map content_of cs = map (fun p => content_of (point_elem p)) sorted
    /\ Spec.output_points (Spec.document n name desc (utcnow two) cs) = cs
    /\ Spec.written (Spec.document n name desc (utcnow two) cs) = Some m
    /\ fs w' = <["merged.gpx" := Markup m]> (fs two).
Proof.
  apply (run_merges Iso8601.fromisoformat ["a.gpx"; "b.gpx"] "merged.gpx" two).
  - repeat constructor; eexists; split; vm_compute; reflexivity.
  - left. vm_compute. repeat constructor.
  - vm_compute. discriminate.
  - vm_compute. reflexivity.
  - vm_compute. reflexivity.
Defined.



(** Where the output path does not open, the run ends with status 1 once
    the document is built, and no file changes; so it does for the empty
    output path on any host.  Where the standard output cannot encode the
    check mark, the file is written and the run ends with status 1 at the
    first line of the report. *)
Example run_on_read_only_host :
  (let (status, w') := run Iso8601.fromisoformat ["a.gpx"; "b.gpx"] "merged.gpx"
                         (Examples.read_only_world_of Examples.two_documents) in
   (status, fs w' !! "merged.gpx", last (stdout w'), stderr w'))
  = (1%Z, None, Some "Processing: b.gpx", []).
Proof. vm_compute. reflexivity. Qed.

Example run_with_empty_output_path :
  (let (status, w') := run Iso8601.fromisoformat ["a.gpx"; "b.gpx"] "" two in
   (status, fs w' !! "", last (stdout w'), stderr w'))
  = (1%Z, None, Some "Processing: b.gpx", []).
Proof. vm_compute. reflexivity. Qed.

Example run_on_ascii_stdout :
  (let (status, w') := run Iso8601.fromisoformat ["a.gpx"; "b.gpx"] "merged.gpx"
                         (Examples.ascii_world_of Examples.two_documents) in
   (status, option_map Spec.parse_error (fs w' !! "merged.gpx"),
    last (stdout w'), stderr w'))
  = (1%Z, Some (Some "duplicate attribute"), Some "Processing: b.gpx", []).
Proof. vm_compute. reflexivity. Qed.

Local Abbreviation untimed :=
  (Examples.world_of [("u.gpx", Markup Examples.doc_untimed)]).

Lemma run_with_no_timed_point_witness :
  exists w',
    run Iso8601.fromisoformat ["u.gpx"] "merged.gpx" untimed = (0%Z, w')
    /\ fs w' = fs untimed
    /\ stderr w'
       = stderr untimed
         ++ concat (map (Spec.file_warnings Iso8601.fromisoformat untimed) ["u.gpx"])
         ++ ["Error: No track points found to merge."].
Proof.
  apply (run_with_no_timed_point Iso8601.fromisoformat).
  - discriminate.
  - repeat constructor. eexists. split; vm_compute; reflexivity.
  - vm_compute. reflexivity.
Defined.

Local Abbreviation mixed :=
  (Examples.world_of [("x.gpx", Markup Examples.doc_mixed)]).

Lemma run_with_mixed_timestamps_witness :
  exists msg w',
    main Iso8601.fromisoformat ["x.gpx"] "merged.gpx" mixed
    = (Raise (TypeError msg), w')
    /\ run Iso8601.fromisoformat ["x.gpx"] "merged.gpx" mixed = (1%Z, w')
    /\ fs w' = fs mixed.
Proof.
  eapply (run_with_mixed_timestamps Iso8601.fromisoformat).
  - repeat constructor. eexists. split; vm_compute; reflexivity.
  - vm_compute. apply list_elem_of_here.
  - vm_compute. apply list_elem_of_further, list_elem_of_here.
  - vm_compute. discriminate.
Defined.

Lemma missing_file_aborts_run_witness :
  exists w',
    run Iso8601.fromisoformat (["a.gpx"] ++ "nowhere.gpx" :: ["b.gpx"])
      "merged.gpx" two = (1%Z, w')
    /\ fs w' = fs two
    /\ last (stderr w') = Some ("Error: GPX file not found: " +:+ "nowhere.gpx").
Proof.
  apply (missing_file_aborts_run Iso8601.fromisoformat).
  - repeat constructor. eexists. split; vm_compute; reflexivity.
  - vm_compute. reflexivity.
Defined.

Lemma output_is_rejected_witness :
  exists msg w'',
    run Iso8601.fromisoformat ["merged.gpx"] "again.gpx"
      (snd (main Iso8601.fromisoformat ["a.gpx"; "b.gpx"] "merged.gpx" two))
    = (1%Z, w'')
    /\ fs w''
       = fs (snd (main Iso8601.fromisoformat ["a.gpx"; "b.gpx"] "merged.gpx" two))
    /\ last (stderr w'') = Some (Spec.invalid_file_error "merged.gpx" msg).
Proof.
  eapply (output_is_rejected Iso8601.fromisoformat ["a.gpx"; "b.gpx"] "merged.gpx"
            "again.gpx" two).
  - apply surjective_pairing.
  - intros H. apply (f_equal (fun m => m !! "merged.gpx")) in H.
    vm_compute in H. discriminate.
Defined.

Lemma sort_by_timestamp_idempotent_witness :
  exists sorted,
    sort_by_timestamp Examples.three_points Examples.empty_world
    = (Ok sorted, Examples.empty_world)
    /\ sort_by_timestamp sorted Examples.empty_world
       = (Ok sorted, Examples.empty_world).
Proof.
  eexists. split.
  - vm_compute. reflexivity.
  - apply (sort_by_timestamp_idempotent Examples.three_points _
             Examples.empty_world).
    vm_compute. reflexivity.
Defined.

Lemma parse_gpx_file_appends_witness :
  exists self' w',
    parse_gpx_file Iso8601.fromisoformat __init__ "a.gpx" two = (Ok self', w')
    /\ exists new,
         track_points self' = track_points __init__ ++ new
         /\ Forall (fun p =>
                      source_file p = "a.gpx"
                      /\ Spec.record_of Iso8601.fromisoformat "a.gpx" (point_elem p)
                         = Some p
                      /\ Spec.gpx_point (point_elem p)
                      /\ Forall (fun i => next_id two <= i < next_id w')%nat
                                (objects (point_elem p))) new
         /\ fs w' = fs two /\ stdout w' = stdout two.
Proof.
  eexists _, _. split.
  - vm_compute. reflexivity.
  - apply (parse_gpx_file_appends Iso8601.fromisoformat __init__ "a.gpx" two).
    vm_compute. reflexivity.
Defined.

Lemma run_copies_are_independent_witness :
  exists self w1 sorted w2,
    for_each (process_file Iso8601.fromisoformat) ["a.gpx"; "b.gpx"] __init__ two
    = (Ok self, w1)
    /\ sort_by_timestamp self w1 = (Ok sorted, w2)
    /\ Spec.allocated w2 (track_points sorted)
    /\ exists doc w3,
         build_document sorted w2 = (Ok doc, w3)
         /\ forall c q, c ∈ Spec.output_points doc -> q ∈ track_points sorted ->
                        Spec.independent c (point_elem q).
Proof.
  eexists _, _, _, _.
  split; [vm_compute; reflexivity|].
  split; [vm_compute; reflexivity|].
  eapply (run_copies_are_independent Iso8601.fromisoformat ["a.gpx"; "b.gpx"] two).
  - vm_compute. reflexivity.
  - vm_compute. reflexivity.
Defined.

Local Abbreviation directory := (Examples.world_of Examples.example_directory).


End FurtherScenarios.
